(** * Parameters of a workflow: [airflow.sdk.definitions.param]

    A shallow embedding of [Param], [ParamsDict], [DagParam] and
    [process_params], and the properties of the parameter system proved
    on it.

    Python objects that the module mutates in place ([Param] instances) live
    in a store and are named by their address, so that two collections
    holding the same [Param] really share it.  The two libraries the module
    calls, [json] and [jsonschema], are outside the repository: [json.dumps]
    is modelled on the value type below, [jsonschema.validate] is a
    parameter of the development (class [Externals]) and every call to it is
    recorded in the store. *)

From Stdlib Require Import ZArith Lia.
From stdpp Require Import base list strings.

Open Scope string_scope.
Open Scope list_scope.
Set Warnings "-register-all".

(** ** Python values *)

(** The values that reach the module: JSON data, the sentinel
    [airflow.utils.types.NOTSET] (the one instance of [ArgNotSet]) and
    objects that [json.dumps] refuses (a set, a class instance, ...).
    Floats and tuples, which [json.dumps] encodes like integers and lists,
    are left out. *)
Inductive pyval : Type :=
| PNone
| PBool (b : bool)
| PInt (n : Z)
| PStr (s : string)
| PList (items : list pyval)
| PDict (entries : list (string * pyval))
| PObject (id : nat)
| NOTSET.

(** [value is NOTSET] *)
Definition is_NOTSET (v : pyval) : bool :=
  match v with NOTSET => true | _ => false end.

(** [json.dumps(value)] returns without raising. *)
Fixpoint json_dumps_ok (v : pyval) : bool :=
  match v with
  | PNone | PBool _ | PInt _ | PStr _ => true
  | PList items => forallb json_dumps_ok items
  | PDict entries => forallb (fun '(_, x) => json_dumps_ok x) entries
  | PObject _ | NOTSET => false
  end.

(** ** Python dicts, in insertion order *)

Section Dict.
Context {V : Type}.

(** [d.get(k)] / [k in d] *)
Fixpoint dict_get (d : list (string * V)) (k : string) : option V :=
  match d with
  | [] => None
  | (k', v) :: rest => if String.eqb k k' then Some v else dict_get rest k
  end.

(** [d[k] = v]: an existing key keeps its place, a new key goes last. *)
Fixpoint dict_set (d : list (string * V)) (k : string) (v : V) : list (string * V) :=
  match d with
  | [] => [(k, v)]
  | (k', v') :: rest =>
      if String.eqb k k' then (k', v) :: rest else (k', v') :: dict_set rest k v
  end.

Definition dict_keys (d : list (string * V)) : list string := map fst d.
(** [del d[k]] on a dict that has the key. *)
Fixpoint dict_del (d : list (string * V)) (k : string) : list (string * V) :=
  match d with
  | [] => []
  | (k', v') :: rest =>
      if String.eqb k k' then rest else (k', v') :: dict_del rest k
  end.
End Dict.

(** ** Exceptions and the store *)

Inductive exn : Type :=
| ParamValidationError (msg : string)
| TypeError (msg : string)
| KeyError (key : string)
| AirflowException (msg : string)
| JsonschemaSchemaError (msg : string)   (* raised by jsonschema, not a ValidationError *)
| DanglingReference.                     (* an address with no object: never in Python *)

Inductive outcome (A : Type) : Type :=
| Return (a : A)
| Raise (e : exn).
Arguments Return {A} a.
Arguments Raise {A} e.

(** What [jsonschema.validate(instance, schema, format_checker=...)] does. *)
Inductive validation : Type :=
| Valid
| ValidationError (message : string)
| SchemaError (message : string).

(** The interfaces outside the repository: the schema validator and
    Python's [str()] as used by the f-strings of the error messages. *)
Class Externals := {
  jsonschema_validate : pyval -> pyval -> validation;
  py_str : pyval -> string;
}.

Abbreviation loc := nat (only parsing).

(** The fields of a [Param] instance ([self.__dict__]). *)
Record ParamObj := mkParam {
  value : pyval;
  description : pyval;
  schema : pyval;
}.

(** [heap]: the [Param] objects alive; [validations]: the calls made to
    [jsonschema.validate], oldest first, as [(instance, schema)]. *)
Record store := mkStore {
  heap : list ParamObj;
  validations : list (pyval * pyval);
}.

(** Computations that read and write the store and may raise.  A raised
    exception keeps the writes made before it. *)
Definition M (A : Type) : Type := store -> outcome A * store.

Definition ret {A} (a : A) : M A := fun st => (Return a, st).
Definition raise {A} (e : exn) : M A := fun st => (Raise e, st).
Definition bind {A B} (m : M A) (k : A -> M B) : M B :=
  fun st => match m st with
            | (Return a, st') => k a st'
            | (Raise e, st') => (Raise e, st')
            end.

Notation "x <- m ;; k" := (bind m (fun x => k))
  (at level 100, m at next level, right associativity).
Notation "m ;;; k" := (bind m (fun _ => k))
  (at level 100, right associativity).

(** [Param(...)] allocation of the new instance. *)
Definition alloc (p : ParamObj) : M loc :=
  fun st => (Return (length (heap st)),
             mkStore (heap st ++ [p]) (validations st)).

Definition deref (l : loc) : M ParamObj :=
  fun st => match heap st !! l with
            | Some p => (Return p, st)
            | None => (Raise DanglingReference, st)
            end.

(** [self.value = v] *)
Definition set_value (l : loc) (v : pyval) : M unit :=
  fun st => match heap st !! l with
            | Some p =>
                (Return tt,
                 mkStore (<[l := mkParam v (description p) (schema p)]> (heap st))
                         (validations st))
            | None => (Raise DanglingReference, st)
            end.

(** [except ParamValidationError as ve: handler] *)
Definition except_ParamValidationError {A} (body : M A) (handler : string -> M A) : M A :=
  fun st => match body st with
            | (Raise (ParamValidationError ve), st') => handler ve st'
            | r => r
            end.

(** ** class Param *)

Module Param.
Section Param.
Context `{Externals}.

Definition __version__ : Z := 1.

Definition not_serializable_msg (v : pyval) : string :=
  "All provided parameters must be json-serializable. The value '"
    +:+ py_str v +:+ "' is not serializable.".

Definition no_value_msg : string :=
  "No value passed and Param has no default value".

Definition _check_json (v : pyval) : M unit :=
  if json_dumps_ok v then ret tt
  else raise (ParamValidationError (not_serializable_msg v)).

(** [Param(default, description, **kwargs)]; [kwargs] in call order. *)
Definition __init__ (default description : pyval)
    (kwargs : list (string * pyval)) : M loc :=
  (if is_NOTSET default then ret tt else _check_json default) ;;;
  alloc (mkParam default description
           (match dict_get kwargs "schema" with
            | Some s => s
            | None => PDict kwargs
            end)).

(** [jsonschema.validate(final_val, self.schema, format_checker=FormatChecker())] *)
Definition validate (instance sch : pyval) : M validation :=
  fun st => (Return (jsonschema_validate instance sch),
             mkStore (heap st) (validations st ++ [(instance, sch)])).

Definition resolve (self : loc) (val : pyval) (suppress_exception : bool) : M pyval :=
  (if is_NOTSET val then ret tt else _check_json val) ;;;
  p <- deref self ;;
  let final_val := if is_NOTSET val then value p else val in
  if is_NOTSET final_val then
    if suppress_exception then ret PNone
    else raise (ParamValidationError no_value_msg)
  else
    r <- validate final_val (schema p) ;;
    match r with
    | ValidationError err =>
        if suppress_exception then ret PNone
        else raise (ParamValidationError err)
    | SchemaError err => raise (JsonschemaSchemaError err)
    | Valid => set_value self final_val ;;; ret final_val
    end.

Definition serialize (self : loc) : M (list (string * pyval)) :=
  p <- deref self ;;
  ret [("value", value p); ("description", description p); ("schema", schema p)].

(** [data[key]] on a plain dict *)
Definition data_item (data : list (string * pyval)) (key : string) : M pyval :=
  match dict_get data key with
  | Some v => ret v
  | None => raise (KeyError key)
  end.

Definition deserialize (data : list (string * pyval)) (version : Z) : M loc :=
  if (version >? __version__)%Z then
    raise (TypeError "serialized version > class version")
  else
    v <- data_item data "value" ;;
    d <- data_item data "description" ;;
    s <- data_item data "schema" ;;
    __init__ v d [("schema", s)].

Definition CLASS_IDENTIFIER : string := "__class".

(** [f"{self.__module__}.{self.__class__.__name__}"] for an instance of
    [Param] itself. *)
Definition class_name : string := "airflow.sdk.definitions.param.Param".

(** [copy.copy(self)] *)
Definition __copy__ (self : loc) : M loc :=
  p <- deref self ;;
  __init__ (value p) (description p) [("schema", schema p)].

(** [out_dict.update(self.__dict__)]: the attributes in the order
    [__init__] sets them. *)
Definition dump (self : loc) : M (list (string * pyval)) :=
  p <- deref self ;;
  let out_dict := [(CLASS_IDENTIFIER, PStr class_name)] in
  let out_dict := dict_set out_dict "value" (value p) in
  let out_dict := dict_set out_dict "description" (description p) in
  let out_dict := dict_set out_dict "schema" (schema p) in
  ret (if is_NOTSET (value p) then dict_set out_dict "value" PNone else out_dict).

Definition has_value (self : loc) : M bool :=
  p <- deref self ;;
  ret (negb (is_NOTSET (value p))
       && negb (match value p with PNone => true | _ => false end)).
End Param.
End Param.

(** ** class ParamsDict *)

(** What a caller hands to a collection: a plain value, or a [Param]
    instance ([isinstance(value, Param)]). *)
Inductive object : Type :=
| Plain (v : pyval)
| Instance (p : loc).

(** The slots of a [ParamsDict]: [__dict] maps a name to a [Param]. *)
Record ParamsDictObj := mkParamsDict {
  __dict : list (string * loc);
  suppress_exception : bool;
}.

(** The argument of [update]: a [ParamsDict] or a plain dict. *)
Inductive mapping : Type :=
| AParamsDict (pd : ParamsDictObj)
| ADict (d : list (string * object)).

(** [bool(m)] *)
Definition mapping_bool (m : mapping) : bool :=
  match m with
  | AParamsDict pd => match __dict pd with [] => false | _ => true end
  | ADict d => match d with [] => false | _ => true end
  end.

Module ParamsDict.
Section ParamsDict.
Context `{Externals}.

Definition __version__ : Z := 1.

(** [{k: v if isinstance(v, Param) else Param(v) for k, v in items}] *)
Fixpoint wrap_items (items : list (string * object)) (acc : list (string * loc))
    : M (list (string * loc)) :=
  match items with
  | [] => ret acc
  | (k, v) :: rest =>
      p <- match v with
           | Instance p => ret p
           | Plain x => Param.__init__ x PNone []
           end ;;
      wrap_items rest (dict_set acc k p)
  end.

Definition __init__ (dict_obj : option (list (string * object)))
    (suppress : bool) : M ParamsDictObj :=
  d <- wrap_items (default [] dict_obj) [] ;;
  ret (mkParamsDict d suppress).

Definition invalid_input_msg (key ve : string) : string :=
  "Invalid input for param " +:+ key +:+ ": " +:+ ve.

(** [self[key] = value]; the collection after the assignment is returned. *)
Definition __setitem__ (self : ParamsDictObj) (key : string) (val : object)
    : M ParamsDictObj :=
  param <- match val with
           | Instance p => ret p
           | Plain v =>
               match dict_get (__dict self) key with
               | Some param =>
                   except_ParamValidationError
                     (Param.resolve param v (suppress_exception self) ;;; ret param)
                     (fun ve => raise (ParamValidationError (invalid_input_msg key ve)))
               | None => Param.__init__ v PNone []
               end
           end ;;
  ret (mkParamsDict (dict_set (__dict self) key param) (suppress_exception self)).

(** [self[key]] *)
Definition __getitem__ (self : ParamsDictObj) (key : string) : M pyval :=
  match dict_get (__dict self) key with
  | Some param => Param.resolve param NOTSET (suppress_exception self)
  | None => raise (KeyError key)
  end.

Definition get_param (self : ParamsDictObj) (key : string) : M loc :=
  match dict_get (__dict self) key with
  | Some param => ret param
  | None => raise (KeyError key)
  end.

(** [MutableMapping.update(self, other)] for a mapping [other]:
    [for key in other: self[key] = other[key]]. *)
Fixpoint update_keys (self : ParamsDictObj) (other : list (string * object))
    (keys : list string) : M ParamsDictObj :=
  match keys with
  | [] => ret self
  | key :: rest =>
      match dict_get other key with
      | Some val =>
          self' <- __setitem__ self key val ;;
          update_keys self' other rest
      | None => raise (KeyError key)
      end
  end.

Definition MutableMapping_update (self : ParamsDictObj) (other : list (string * object))
    : M ParamsDictObj :=
  update_keys self other (dict_keys other).

(** [args[0].__dict] seen as a mapping: every value is a [Param]. *)
Definition dict_of (pd : ParamsDictObj) : list (string * object) :=
  map (fun '(k, p) => (k, Instance p)) (__dict pd).

Definition update (self : ParamsDictObj) (other : mapping) : M ParamsDictObj :=
  match other with
  | AParamsDict pd => MutableMapping_update self (dict_of pd)
  | ADict d => MutableMapping_update self d
  end.

(** [{k: v.resolve(suppress_exception=True) for k, v in self.items()}] *)
Fixpoint dump_items (items : list (string * loc)) (acc : list (string * pyval))
    : M (list (string * pyval)) :=
  match items with
  | [] => ret acc
  | (k, v) :: rest =>
      x <- Param.resolve v NOTSET true ;;
      dump_items rest (dict_set acc k x)
  end.

Definition dump (self : ParamsDictObj) : M (list (string * pyval)) :=
  dump_items (__dict self) [].

(** The loop of [validate]; a [ParamValidationError] leaves the loop and is
    raised again with the key [k] of the iteration that raised it. *)
Fixpoint validate_items (suppress : bool) (items : list (string * loc))
    (resolved_dict : list (string * pyval)) : M (list (string * pyval)) :=
  match items with
  | [] => ret resolved_dict
  | (k, v) :: rest =>
      x <- except_ParamValidationError
             (Param.resolve v NOTSET suppress)
             (fun ve => raise (ParamValidationError (invalid_input_msg k ve))) ;;
      validate_items suppress rest (dict_set resolved_dict k x)
  end.

Definition validate (self : ParamsDictObj) : M (list (string * pyval)) :=
  validate_items (suppress_exception self) (__dict self) [].

Definition serialize (self : ParamsDictObj) : M (list (string * pyval)) :=
  dump self.

Definition deserialize (data : list (string * object)) (version : Z) : M ParamsDictObj :=
  if (version >? __version__)%Z then
    raise (TypeError "serialized version > class version")
  else __init__ (Some data) false.

Definition __bool__ (self : ParamsDictObj) : bool :=
  match __dict self with [] => false | _ => true end.

(** [o in self], for a string [o]. *)
Definition __contains__ (self : ParamsDictObj) (o : string) : bool :=
  match dict_get (__dict self) o with Some _ => true | None => false end.

Definition __len__ (self : ParamsDictObj) : nat := length (__dict self).

Definition __iter__ (self : ParamsDictObj) : list string := dict_keys (__dict self).

(** [del self[v]]; the collection after the deletion is returned. *)
Definition __delitem__ (self : ParamsDictObj) (v : string) : M ParamsDictObj :=
  match dict_get (__dict self) v with
  | Some _ => ret (mkParamsDict (dict_del (__dict self) v) (suppress_exception self))
  | None => raise (KeyError v)
  end.

(** [ParamsDict(self.__dict, self.suppress_exception)] *)
Definition __copy__ (self : ParamsDictObj) : M ParamsDictObj :=
  __init__ (Some (dict_of self)) (suppress_exception self).
End ParamsDict.
End ParamsDict.

(** ** class DagParam *)

(** The collaborators, as far as the module reads them. *)
Module DagRun.
Record t := mk { conf : option (list (string * pyval)) }.
End DagRun.

Module Context.
(** A missing key of the context is [None]. *)
Record t := mk {
  dag_run : option DagRun.t;
  params : option (list (string * pyval));
}.
End Context.

Module DagParam.

Record t := mk {
  _name : string;
  _default : pyval;
  dag_id : string;
}.

(** [d[k]] on a plain dict *)
Definition item (d : list (string * pyval)) (k : string) : outcome pyval :=
  match dict_get d k with
  | Some v => Return v
  | None => Raise (KeyError k)
  end.

(** [with contextlib.suppress(KeyError): body], then [rest].  The body
    leaves the function with a value ([Return (Some v)]), ends without one
    ([Return None]) or raises. *)
Definition suppress_KeyError {A} (body : outcome (option A)) (rest : outcome A)
    : outcome A :=
  match body with
  | Return (Some v) => Return v
  | Return None => rest
  | Raise (KeyError _) => rest
  | Raise e => Raise e
  end.

(** [bool(conf)] *)
Definition conf_bool (c : option (list (string * pyval))) : bool :=
  match c with
  | Some (_ :: _) => true
  | _ => false
  end.

Definition returning (r : outcome pyval) : outcome (option pyval) :=
  match r with
  | Return v => Return (Some v)
  | Raise e => Raise e
  end.

Definition no_value_msg (name : string) : string :=
  "No value could be resolved for parameter " +:+ name.

Definition resolve (self : t) (context : Context.t) : outcome pyval :=
  suppress_KeyError
    (match Context.dag_run context with
     | None => Raise (KeyError "dag_run")
     | Some dr =>
         if conf_bool (DagRun.conf dr)
         then returning (item (default [] (DagRun.conf dr)) (_name self))
         else Return None
     end)
    (if negb (is_NOTSET (_default self)) then Return (_default self)
     else
       suppress_KeyError
         (match Context.params context with
          | None => Raise (KeyError "params")
          | Some ps => returning (item ps (_name self))
          end)
         (Raise (AirflowException (no_value_msg (_name self))))).
End DagParam.

(** ** process_params *)

Module DAG.
Record t := mk { params : mapping }.
End DAG.

Module Operator.
(** [params] is [None], a dict or a [ParamsDict]. *)
Record t := mk { params : option mapping }.
End Operator.

Section ProcessParams.
Context `{Externals}.

(** [dag] is [None] when [dag.params] raises [AttributeError];
    [overrides] is [conf.getboolean("core", "dag_run_conf_overrides_params")]. *)
Definition process_params (dag : option DAG.t) (task : Operator.t)
    (dagrun_conf : option (list (string * object)))
    (overrides : bool) (suppress : bool) : M (list (string * pyval)) :=
  let dagrun_conf := default [] dagrun_conf in
  params <- ParamsDict.__init__ None suppress ;;
  params <- match dag with
            | Some d => ParamsDict.update params (DAG.params d)
            | None => ret params
            end ;;
  params <- match Operator.params task with
            | Some m => if mapping_bool m then ParamsDict.update params m
                        else ret params
            | None => ret params
            end ;;
  params <- (if overrides && mapping_bool (ADict dagrun_conf)
             then ParamsDict.update params (ADict dagrun_conf)
             else ret params) ;;
  ParamsDict.validate params.
End ProcessParams.

(** ** DagParam.resolve, as the specification words it *)

Module DagParamSpec.

(** The entry of the run configuration for [name], when the context has a
    run, the run has a configuration and the configuration has the name. *)
Definition run_configuration_entry (context : Context.t) (name : string)
    : option pyval :=
  match Context.dag_run context with
  | Some dr =>
      match DagRun.conf dr with
      | Some c => dict_get c name
      | None => None
      end
  | None => None
  end.

Definition parameters_entry (context : Context.t) (name : string) : option pyval :=
  match Context.params context with
  | Some ps => dict_get ps name
  | None => None
  end.

(** Three tiers, the first match wins; no match is a resolution error. *)
Definition resolve (self : DagParam.t) (context : Context.t) : outcome pyval :=
  match run_configuration_entry context (DagParam._name self) with
  | Some v => Return v
  | None =>
      match DagParam._default self with
      | NOTSET =>
          match parameters_entry context (DagParam._name self) with
          | Some v => Return v
          | None =>
              Raise (AirflowException (DagParam.no_value_msg (DagParam._name self)))
          end
      | d => Return d
      end
  end.
End DagParamSpec.

(** ** ParamsDict.update, as the specification words it *)

Module ParamsDictSpec.
Section ParamsDictSpec.
Context `{Externals}.

(** "When other is a plain mapping, merge key-by-key through setItem": one
    assignment for each entry, in the order of the mapping. *)
Fixpoint merge_plain (self : ParamsDictObj) (other : list (string * object))
    : M ParamsDictObj :=
  match other with
  | [] => ret self
  | (key, val) :: rest =>
      self' <- ParamsDict.__setitem__ self key val ;;
      merge_plain self' rest
  end.

(** "When other is a ParameterCollection, merge by adopting its underlying
    Parameter objects directly": each entry of the other collection puts
    its [Param] under its name, and nothing else happens. *)
Definition adopt (d other : list (string * loc)) : list (string * loc) :=
  fold_left (fun acc '(k, p) => dict_set acc k p) other d.

Definition merge_collection (self other : ParamsDictObj) : M ParamsDictObj :=
  ret (mkParamsDict (adopt (__dict self) (__dict other)) (suppress_exception self)).
End ParamsDictSpec.
End ParamsDictSpec.

(** ** A validator to run the definitions on *)

Module Sample.

(** The JSON-Schema name of the type of a value. *)
Definition json_type (v : pyval) : string :=
  match v with
  | PNone => "null"
  | PBool _ => "boolean"
  | PInt _ => "integer"
  | PStr _ => "string"
  | PList _ => "array"
  | PDict _ => "object"
  | PObject _ | NOTSET => "unknown"
  end.

(** A fragment of JSON Schema: the keyword [type] with one type name.  A
    schema without it accepts every instance; a schema that is not an
    object, or whose [type] is not a string, is refused as a schema. *)
Definition validate (instance sch : pyval) : validation :=
  match sch with
  | PDict entries =>
      match dict_get entries "type" with
      | None => Valid
      | Some (PStr t) =>
          if String.eqb t (json_type instance) then Valid
          else ValidationError ("instance is not of type '" +:+ t +:+ "'")
      | Some _ => SchemaError "type is not valid under any of the given schemas"
      end
  | _ => SchemaError "schema is not of type 'object', 'boolean'"
  end.

Definition str (v : pyval) : string :=
  match v with
  | PStr s => s
  | PNone => "None"
  | PBool true => "True"
  | PBool false => "False"
  | _ => "<object>"
  end.

Definition externals : Externals :=
  {| jsonschema_validate := validate; py_str := str |}.

Definition integer_schema : pyval := PDict [("type", PStr "integer")].

Definition empty_store : store := mkStore [] [].

(** One [Param] at address 0, of schema [{"type": "integer"}]: without a
    value, and with the value 1. *)
Definition unset_store : store := mkStore [mkParam NOTSET PNone integer_schema] [].
Definition int_store : store := mkStore [mkParam (PInt 1) PNone integer_schema] [].

(** The same [Param] as [Param("abc", type="integer")] leaves it: the
    construction does not validate the default. *)
Definition str_store : store := mkStore [mkParam (PStr "abc") PNone integer_schema] [].

(** [ParamsDict] collections holding that [Param] under the name [x], and
    an empty one. *)
Definition x_params : ParamsDictObj := mkParamsDict [("x", 0)] false.
Definition x_params_suppressing : ParamsDictObj := mkParamsDict [("x", 0)] true.
Definition no_params : ParamsDictObj := mkParamsDict [] false.

(** A dag with [params = ParamsDict({"x": Param(1, type="integer")})] and a
    task without params. *)
Definition dag : option DAG.t := Some (DAG.mk (AParamsDict x_params)).
Definition task : Operator.t := Operator.mk (Some (AParamsDict no_params)).
End Sample.

(** ** The outcomes of resolve *)

Section Resolved.
Context `{Externals}.

(** The three ways [resolve] ends once the candidate passed [_check_json]. *)
Definition resolved (self : loc) (p : ParamObj) (final_val : pyval) (suppress : bool)
    (st : store) : outcome pyval * store :=
  let st' := mkStore (heap st) (validations st ++ [(final_val, schema p)]) in
  match jsonschema_validate final_val (schema p) with
  | Valid =>
      (Return final_val,
       mkStore (<[self := mkParam final_val (description p) (schema p)]> (heap st))
               (validations st'))
  | ValidationError err =>
      (if suppress then Return PNone else Raise (ParamValidationError err), st')
  | SchemaError err => (Raise (JsonschemaSchemaError err), st')
  end.
End Resolved.

(** ** Vocabulary of the statements *)

Section Vocabulary.
Context `{Externals}.

(** [st'] comes after [st]: the validator was called some more times, and
    every object is still there with the schema and description it had. *)
Definition extends (st st' : store) : Prop :=
  (exists calls, validations st' = validations st ++ calls)
  /\ (forall l p, heap st !! l = Some p ->
        exists p', heap st' !! l = Some p'
                   /\ schema p' = schema p /\ description p' = description p).

(** The [Param] that the declared collections give to a name: the one of
    the task when it has the name, the one of the dag otherwise. *)
Definition declared_param (dag_params task_params : ParamsDictObj) (k : string)
    : option loc :=
  match dict_get (__dict task_params) k with
  | Some l => Some l
  | None => dict_get (__dict dag_params) k
  end.

(** The [Param] object that a collection holds under a name. *)
Definition view (pd : ParamsDictObj) (st : store) (k : string) : option ParamObj :=
  match dict_get (__dict pd) k with
  | Some l => heap st !! l
  | None => None
  end.

(** The [Param] [p] after [value] was assigned to its key and nothing was
    raised: the value is stored when the validator accepts it. *)
Definition assigned (p : ParamObj) (v : pyval) : ParamObj :=
  if is_NOTSET v then p
  else match jsonschema_validate v (schema p) with
       | Valid => mkParam v (description p) (schema p)
       | _ => p
       end.

(** The entries of a collection are live objects, one object per name. *)
Record well_formed (pd : ParamsDictObj) (st : store) : Prop := {
  wf_live : forall k l, dict_get (__dict pd) k = Some l -> l < length (heap st);
  wf_distinct : forall k1 k2 l,
    dict_get (__dict pd) k1 = Some l -> dict_get (__dict pd) k2 = Some l -> k1 = k2;
  wf_keys : NoDup (dict_keys (__dict pd));
}.

(** What reading a [Param] gives when exceptions are suppressed and the
    validator raises nothing but validation errors: the stored value when
    the validator accepts it, [None] otherwise. *)
Definition lenient_value (p : ParamObj) : pyval :=
  if is_NOTSET (value p) then PNone
  else match jsonschema_validate (value p) (schema p) with
       | Valid => value p
       | _ => PNone
       end.

(** A schemaless [Param] as [Param(v)] makes it. *)
Definition plain_param (v : pyval) : ParamObj := mkParam v PNone (PDict []).

(** A plain dict of values, as a caller hands it to a collection. *)
Definition plain_dict (d : list (string * pyval)) : list (string * object) :=
  map (fun '(k, v) => (k, Plain v)) d.

(** The value is one a [Param] may hold: [NOTSET] or JSON data. *)
Definition storable (v : pyval) : Prop :=
  is_NOTSET v = true \/ json_dumps_ok v = true.

(** The dict of a collection after an update from the dict [o] of another
    collection, name by name. *)
Fixpoint adopt_keys (d o : list (string * loc)) (keys : list string)
    : list (string * loc) :=
  match keys with
  | [] => d
  | k :: rest =>
      match dict_get o k with
      | Some p => adopt_keys (dict_set d k p) o rest
      | None => d
      end
  end.

(** The dict of the collection that [process_params] builds from the
    [params] of the dag and of the task, both [ParamsDict]. *)
Definition declared_dict (dag_params task_params : ParamsDictObj)
    : list (string * loc) :=
  let d := adopt_keys [] (__dict dag_params) (dict_keys (__dict dag_params)) in
  match __dict task_params with
  | [] => d
  | _ => adopt_keys d (__dict task_params) (dict_keys (__dict task_params))
  end.

(** [m[k]] for a source of parameters; a [ParamsDict] gives its [Param]
    objects. *)
Definition mapping_get (m : mapping) (k : string) : option object :=
  match m with
  | AParamsDict pd => Instance <$> dict_get (__dict pd) k
  | ADict d => dict_get d k
  end.

(** The three sources that [process_params] merges, in its order, each as
    the mapping it updates from, or [None] when it skips the update: the
    [params] of the dag, the [params] of the task when they are not empty,
    the run configuration when the flag is on and it is not empty. *)
Definition dag_layer (dag : option DAG.t) : option mapping := DAG.params <$> dag.

Definition task_layer (task : Operator.t) : option mapping :=
  match Operator.params task with
  | Some m => if mapping_bool m then Some m else None
  | None => None
  end.

Definition run_layer (dagrun_conf : option (list (string * object)))
    (overrides : bool) : option mapping :=
  if overrides && mapping_bool (ADict (default [] dagrun_conf))
  then Some (ADict (default [] dagrun_conf))
  else None.

Definition update_opt (params : ParamsDictObj) (layer : option mapping)
    : M ParamsDictObj :=
  match layer with
  | Some m => ParamsDict.update params m
  | None => ret params
  end.

(** The entry of a source for the name [k], and the entry of the last of
    the three sources that has the name. *)
Definition layer_get (layer : option mapping) (k : string) : option object :=
  match layer with
  | Some m => mapping_get m k
  | None => None
  end.

Definition last_given (dag : option DAG.t) (task : Operator.t)
    (dagrun_conf : option (list (string * object))) (overrides : bool)
    (k : string) : option object :=
  match layer_get (run_layer dagrun_conf overrides) k with
  | Some x => Some x
  | None =>
      match layer_get (task_layer task) k with
      | Some x => Some x
      | None => layer_get (dag_layer dag) k
      end
  end.

(** The source gives the [Param] instance at [l] for the name [k]. *)
Definition hands_over (layer : option mapping) (k : string) (l : loc) : Prop :=
  exists m, layer = Some m /\ mapping_get m k = Some (Instance l).

Definition handed (dag : option DAG.t) (task : Operator.t)
    (dagrun_conf : option (list (string * object))) (overrides : bool)
    (k : string) (l : loc) : Prop :=
  hands_over (dag_layer dag) k l
  \/ hands_over (task_layer task) k l
  \/ hands_over (run_layer dagrun_conf overrides) k l.

(** What the validator said of the value [v] against the schema of the
    [Param] [p] when the assignment of [v] to the name of [p] returned: it
    accepted [v], or it rejected it and exceptions are suppressed. *)
Definition let_through (suppress : bool) (p : ParamObj) (v : pyval) : Prop :=
  match jsonschema_validate v (schema p) with
  | Valid => True
  | ValidationError _ => suppress = true
  | SchemaError _ => False
  end.

(** What an update that gives [x] for the name [k] does to the name, from
    the collection and store before to those after: a [Param] instance
    becomes the [Param] of the name, as it is; a plain value is assigned to
    the [Param] of the name, or to a new [Param] without schema when the
    name is new, and the validator has let it through. *)
Definition assigns (x : object) (k : string)
    (pd : ParamsDictObj) (st : store) (pd' : ParamsDictObj) (st' : store) : Prop :=
  match x with
  | Instance l => view pd' st' k = heap st !! l
  | Plain v =>
      view pd' st' k
      = Some (match view pd st k with
              | Some p => assigned p v
              | None => plain_param v
              end)
      /\ (is_NOTSET v = false ->
          forall p, view pd st k = Some p -> let_through (suppress_exception pd) p v)
  end.

(** What a source does to a name: nothing when it is skipped or does not
    have the name. *)
Definition layer_law (layer : option mapping) (k : string)
    (pd : ParamsDictObj) (st : store) (pd' : ParamsDictObj) (st' : store) : Prop :=
  match layer with
  | None => view pd' st' k = view pd st k
  | Some m =>
      match mapping_get m k with
      | None => view pd' st' k = view pd st k
      | Some x => assigns x k pd st pd' st'
      end
  end.

(** [r] is what [resolve] with no candidate returns for the [Param] [p]:
    its value when it is set and passes the schema; [None], under
    suppression only, when it is not set or does not pass. *)
Definition resolves_to (p : ParamObj) (suppress : bool) (r : pyval) : Prop :=
  (is_NOTSET (value p) = false
   /\ jsonschema_validate (value p) (schema p) = Valid /\ r = value p)
  \/ (suppress = true /\ r = PNone
      /\ (is_NOTSET (value p) = true
          \/ exists m, jsonschema_validate (value p) (schema p) = ValidationError m)).

(** The invariant of the merge for a name [k] whose [Param] objects are
    handed over under this name only ([Hd] tells which instances are handed
    over under which name, [n0] is the number of objects at the start):
    entries are live, an entry that is an old object was handed over under
    its name, and no other name holds the [Param] of [k]. *)
Record owned (Hd : string -> loc -> Prop) (n0 : nat) (k : string)
    (pd : ParamsDictObj) (st : store) : Prop := {
  own_live : forall k' l, dict_get (__dict pd) k' = Some l -> l < length (heap st);
  own_handed : forall k' l, dict_get (__dict pd) k' = Some l -> l < n0 -> Hd k' l;
  own_alone : forall k' l,
    k' <> k -> dict_get (__dict pd) k' = Some l -> dict_get (__dict pd) k <> Some l;
  own_grown : n0 <= length (heap st);
  own_keys : NoDup (dict_keys (__dict pd));
}.
End Vocabulary.

(** * Properties *)

(** ** The store and the monad *)

Lemma bind_Return {A B} (m : M A) (k : A -> M B) st a st' :
  m st = (Return a, st') -> bind m k st = k a st'.
Proof. intros Hm. unfold bind. by rewrite Hm. Qed.

Lemma bind_Raise {A B} (m : M A) (k : A -> M B) st e st' :
  m st = (Raise e, st') -> bind m k st = (Raise e, st').
Proof. intros Hm. unfold bind. by rewrite Hm. Qed.

Lemma deref_Some l p st :
  heap st !! l = Some p -> deref l st = (Return p, st).
Proof. intros Hl. unfold deref. by rewrite Hl. Qed.

Lemma set_value_same (p : ParamObj) :
  mkParam (value p) (description p) (schema p) = p.
Proof. by destruct p. Qed.

Lemma dict_get_set_eq {V} (d : list (string * V)) k v :
  dict_get (dict_set d k v) k = Some v.
Proof.
  induction d as [|[k' v'] d IH]; simpl.
  - by rewrite String.eqb_refl.
  - destruct (String.eqb k k') eqn:E; simpl; rewrite E; auto.
Qed.

Lemma dict_get_set_ne {V} (d : list (string * V)) k k' v :
  k <> k' -> dict_get (dict_set d k v) k' = dict_get d k'.
Proof.
  intros Hne. induction d as [|[k0 v0] d IH]; simpl.
  - destruct (String.eqb k' k) eqn:E; auto.
    apply String.eqb_eq in E. congruence.
  - destruct (String.eqb k k0) eqn:E; simpl.
    + apply String.eqb_eq in E. subst k0.
      destruct (String.eqb k' k) eqn:E'; auto.
      apply String.eqb_eq in E'. congruence.
    + destruct (String.eqb k' k0); auto.
Qed.

Section ParamFacts.
Context `{Externals}.

Lemma resolve_not_json self val suppress st :
  is_NOTSET val = false -> json_dumps_ok val = false ->
  Param.resolve self val suppress st
  = (Raise (ParamValidationError (Param.not_serializable_msg val)), st).
Proof.
  intros Hn Hj. unfold Param.resolve, bind, Param._check_json.
  by rewrite Hn, Hj.
Qed.

Lemma resolve_dangling self val suppress st :
  heap st !! self = None ->
  (is_NOTSET val = true \/ json_dumps_ok val = true) ->
  Param.resolve self val suppress st = (Raise DanglingReference, st).
Proof.
  intros Hl Hv. unfold Param.resolve, bind, Param._check_json, deref.
  destruct (is_NOTSET val) eqn:Hn; simpl.
  - by rewrite Hl.
  - destruct Hv as [Hv|Hv]; [done|]. rewrite Hv. simpl. by rewrite Hl.
Qed.

Lemma resolve_no_value self p suppress st :
  heap st !! self = Some p -> value p = NOTSET ->
  Param.resolve self NOTSET suppress st
  = (if suppress then Return PNone
     else Raise (ParamValidationError Param.no_value_msg), st).
Proof.
  intros Hl Hv. unfold Param.resolve, bind, deref. simpl.
  rewrite Hl, Hv. simpl. by destruct suppress.
Qed.

Lemma resolve_validated self p val suppress st :
  heap st !! self = Some p ->
  (is_NOTSET val = true \/ json_dumps_ok val = true) ->
  is_NOTSET (if is_NOTSET val then value p else val) = false ->
  Param.resolve self val suppress st
  = resolved self p (if is_NOTSET val then value p else val) suppress st.
Proof.
  intros Hl Hv Hf. unfold Param.resolve, bind, Param._check_json, deref, resolved.
  assert (Hc : (if is_NOTSET val then ret tt
                else if json_dumps_ok val then ret tt
                     else raise (ParamValidationError (Param.not_serializable_msg val))) st
               = (Return tt, st)).
  { destruct (is_NOTSET val); [done|]. destruct Hv as [Hv|Hv]; [done|]. by rewrite Hv. }
  rewrite Hc, Hl. simpl. rewrite Hf.
  unfold Param.validate, set_value. simpl.
  destruct (jsonschema_validate _ _); simpl; try done.
  - by rewrite Hl.
  - by destruct suppress.
Qed.
End ParamFacts.

(** ** DagParam *)

(** C2. [DagParam.resolve] is the three-tier lookup of the specification:
    the entry of the run configuration for the name when the run
    configuration exists and has it, otherwise the own default when it is
    not [NOTSET], otherwise the entry of the context's parameters, otherwise
    the error that no value could be resolved. *)
Theorem dagparam_resolve_precedence (self : DagParam.t) (context : Context.t) :
  DagParam.resolve self context = DagParamSpec.resolve self context.
Proof.
  unfold DagParam.resolve, DagParamSpec.resolve,
    DagParamSpec.run_configuration_entry, DagParamSpec.parameters_entry.
  destruct context as [[[[[|e c]|]]|] ps]; simpl.
  - destruct (DagParam._default self); simpl; try done;
      destruct ps as [ps|]; simpl; try done;
      unfold DagParam.item; by destruct (dict_get ps _).
  - unfold DagParam.item.
    change (dict_get (e :: c) (DagParam._name self)) with
      (let '(k', v) := e in
       if String.eqb (DagParam._name self) k' then Some v
       else dict_get c (DagParam._name self)).
    destruct e as [k' v].
    destruct (if String.eqb _ _ then _ else _); simpl; [done|].
    destruct (DagParam._default self); simpl; try done;
      destruct ps as [ps|]; simpl; try done; by destruct (dict_get ps _).
  - destruct (DagParam._default self); simpl; try done;
      destruct ps as [ps|]; simpl; try done;
      unfold DagParam.item; by destruct (dict_get ps _).
  - destruct (DagParam._default self); simpl; try done;
      destruct ps as [ps|]; simpl; try done;
      unfold DagParam.item; by destruct (dict_get ps _).
Qed.

(** The example of the specification: run configuration ["A"], default
    ["B"], parameters ["C"]; then without the first, without the first two,
    without all three. *)
Example dagparam_resolve_tiers :
  let run := Some (DagRun.mk (Some [("p", PStr "A")])) in
  let no_run := Some (DagRun.mk (Some [])) in
  DagParam.resolve (DagParam.mk "p" (PStr "B") "d")
    (Context.mk run (Some [("p", PStr "C")])) = Return (PStr "A")
  /\ DagParam.resolve (DagParam.mk "p" (PStr "B") "d")
    (Context.mk no_run (Some [("p", PStr "C")])) = Return (PStr "B")
  /\ DagParam.resolve (DagParam.mk "p" NOTSET "d")
    (Context.mk no_run (Some [("p", PStr "C")])) = Return (PStr "C")
  /\ DagParam.resolve (DagParam.mk "p" NOTSET "d")
    (Context.mk no_run (Some []))
     = Raise (AirflowException "No value could be resolved for parameter p").
Proof. by repeat split. Qed.

(** ** Param *)

Section ParamTheorems.
Context `{Externals}.

(** C3. With no candidate and a stored [NOTSET], [resolve] returns [None]
    when exceptions are suppressed and raises "no value" otherwise; with a
    JSON-serializable final value that the validator rejects, it returns
    [None] when suppressed and otherwise raises a validation error that
    carries the validator's message. *)
Theorem resolve_missing_or_invalid (self : loc) (p : ParamObj) (st : store) :
  heap st !! self = Some p ->
  (value p = NOTSET ->
     fst (Param.resolve self NOTSET true st) = Return PNone
     /\ fst (Param.resolve self NOTSET false st)
        = Raise (ParamValidationError Param.no_value_msg))
  /\ (forall val message,
        json_dumps_ok (if is_NOTSET val then value p else val) = true ->
        jsonschema_validate (if is_NOTSET val then value p else val) (schema p)
        = ValidationError message ->
        fst (Param.resolve self val true st) = Return PNone
        /\ fst (Param.resolve self val false st)
           = Raise (ParamValidationError message)).
Proof.
  intros Hl. split.
  - intros Hv. by rewrite !(resolve_no_value _ p).
  - intros val message Hj Hr.
    assert (Hf : is_NOTSET (if is_NOTSET val then value p else val) = false).
    { by destruct (if is_NOTSET val then value p else val). }
    assert (Hc : is_NOTSET val = true \/ json_dumps_ok val = true).
    { destruct (is_NOTSET val); auto. }
    rewrite !(resolve_validated _ p) by done.
    unfold resolved. by rewrite Hr.
Qed.

(** C9. A candidate that is not [NOTSET] and not JSON-serializable makes
    [resolve] raise the serialization error whether or not exceptions are
    suppressed, and nothing is written; with exceptions suppressed this is
    the only [ParamValidationError] that [resolve] raises. *)
Theorem resolve_not_serializable (self : loc) (val : pyval) (st : store) :
  (is_NOTSET val = false -> json_dumps_ok val = false ->
   forall suppress,
     Param.resolve self val suppress st
     = (Raise (ParamValidationError (Param.not_serializable_msg val)), st))
  /\ (forall msg,
        fst (Param.resolve self val true st) = Raise (ParamValidationError msg) ->
        is_NOTSET val = false /\ json_dumps_ok val = false
        /\ msg = Param.not_serializable_msg val).
Proof.
  split.
  - intros Hn Hj suppress. by apply resolve_not_json.
  - intros msg.
    destruct (is_NOTSET val) eqn:Hn; [|destruct (json_dumps_ok val) eqn:Hj].
    + assert (val = NOTSET) as -> by (by destruct val).
      destruct (heap st !! self) as [p|] eqn:Hl.
      * destruct (is_NOTSET (value p)) eqn:Hv.
        -- rewrite (resolve_no_value _ p); [done|done|by destruct (value p)].
        -- rewrite (resolve_validated _ p); [|done|by left|by rewrite Hn].
           unfold resolved. rewrite Hn. by destruct (jsonschema_validate _ _).
      * rewrite resolve_dangling; [done|done|by left].
    + destruct (heap st !! self) as [p|] eqn:Hl.
      * rewrite (resolve_validated _ p); [|done|by right|by rewrite Hn].
        unfold resolved. rewrite Hn. by destruct (jsonschema_validate _ _).
      * rewrite resolve_dangling; [done|done|by right].
    + rewrite resolve_not_json by done. simpl. intros [= <-]. done.
Qed.
End ParamTheorems.

Section ParamConstruction.
Context `{Externals}.

Lemma init_not_json default description kwargs st :
  is_NOTSET default = false -> json_dumps_ok default = false ->
  Param.__init__ default description kwargs st
  = (Raise (ParamValidationError (Param.not_serializable_msg default)), st).
Proof.
  intros Hn Hj. unfold Param.__init__, bind, Param._check_json.
  by rewrite Hn, Hj.
Qed.

Lemma init_ok default description kwargs st :
  is_NOTSET default = true \/ json_dumps_ok default = true ->
  Param.__init__ default description kwargs st
  = (Return (length (heap st)),
     mkStore (heap st ++ [mkParam default description
                            (match dict_get kwargs "schema" with
                             | Some s => s
                             | None => PDict kwargs
                             end)])
             (validations st)).
Proof.
  intros Hv. unfold Param.__init__, bind, Param._check_json, alloc.
  destruct (is_NOTSET default); [done|].
  destruct Hv as [Hv|Hv]; [done|]. by rewrite Hv.
Qed.

Lemma init_cases (default : pyval) :
  (is_NOTSET default = false /\ json_dumps_ok default = false)
  \/ (is_NOTSET default = true \/ json_dumps_ok default = true).
Proof. destruct (is_NOTSET default), (json_dumps_ok default); auto. Qed.

(** C8. Constructing a [Param] with a default that is neither [NOTSET] nor
    JSON-serializable raises the serialization error and leaves the store
    as it was; in every case the construction makes no call to the schema
    validator, and any other default is stored whatever the schema; with no
    keyword argument the schema is the empty dict, and, the validator
    accepting every JSON value against the empty schema, such a [Param]
    resolves every JSON-serializable candidate to itself. *)
Theorem init_json_check_only (default description : pyval)
    (kwargs : list (string * pyval)) (st : store) :
  (is_NOTSET default = false -> json_dumps_ok default = false ->
     Param.__init__ default description kwargs st
     = (Raise (ParamValidationError (Param.not_serializable_msg default)), st))
  /\ validations (snd (Param.__init__ default description kwargs st))
     = validations st
  /\ (is_NOTSET default = true \/ json_dumps_ok default = true ->
      exists self st',
        Param.__init__ default description kwargs st = (Return self, st')
        /\ heap st' !! self
           = Some (mkParam default description
                     (match dict_get kwargs "schema" with
                      | Some s => s
                      | None => PDict kwargs
                      end))
        /\ (kwargs = [] ->
            heap st' !! self = Some (mkParam default description (PDict []))
            /\ ((forall v, json_dumps_ok v = true ->
                           jsonschema_validate v (PDict []) = Valid) ->
                forall v suppress, json_dumps_ok v = true ->
                  fst (Param.resolve self v suppress st') = Return v))).
Proof.
  split; [apply init_not_json|]. split.
  - destruct (init_cases default) as [[Hn Hj]|Hv].
    + by rewrite init_not_json.
    + by rewrite init_ok.
  - intros Hv. rewrite init_ok by done.
    eexists _, _. split; [done|]. simpl.
    assert (Hmid : forall p : ParamObj, (heap st ++ [p]) !! length (heap st) = Some p).
    { intros p. by apply list_lookup_middle. }
    split; [apply Hmid|]. intros ->. simpl. split; [apply Hmid|].
    intros Hempty v suppress Hj.
    assert (Hn : is_NOTSET v = false) by (by destruct v).
    erewrite resolve_validated; [|apply Hmid|by right|by rewrite Hn].
    unfold resolved. rewrite Hn. simpl. by rewrite Hempty.
Qed.

(** C7. A [Param] built from a JSON-serializable value, a description and
    keyword arguments, serialized and deserialized at the current version,
    gives a new [Param] with the same value, the same description and the
    same schema; the schema is the keyword [schema] when it was given. *)
Theorem serialize_deserialize_roundtrip (v desc : pyval)
    (kwargs : list (string * pyval)) (st : store) :
  json_dumps_ok v = true ->
  exists self self' st',
    (self <- Param.__init__ v desc kwargs ;;
     data <- Param.serialize self ;;
     self' <- Param.deserialize data Param.__version__ ;;
     ret (self, self')) st = (Return (self, self'), st')
    /\ exists p p',
        heap st' !! self = Some p /\ heap st' !! self' = Some p'
        /\ self <> self'
        /\ value p' = v /\ description p' = desc /\ schema p' = schema p
        /\ (forall sch, kwargs = [("schema", sch)] -> schema p' = sch).
Proof.
  intros Hj.
  set (sch := match dict_get kwargs "schema" with
              | Some s => s
              | None => PDict kwargs
              end).
  set (p := mkParam v desc sch).
  exists (length (heap st)), (S (length (heap st))),
    (mkStore ((heap st ++ [p]) ++ [p]) (validations st)).
  assert (Hmid : (heap st ++ [p]) !! length (heap st) = Some p).
  { by apply list_lookup_middle. }
  split.
  - erewrite bind_Return by (apply init_ok; by right). fold sch. fold p.
    erewrite bind_Return; last first.
    { unfold Param.serialize. erewrite bind_Return by (by apply deref_Some). done. }
    erewrite bind_Return; last first.
    { unfold Param.deserialize. simpl.
      do 3 (erewrite bind_Return by done).
      apply init_ok. by right. }
    unfold ret. simpl. rewrite length_app. simpl. by rewrite Nat.add_1_r.
  - exists p, p. simpl. split.
    { apply lookup_app_l_Some, Hmid. }
    split.
    { apply list_lookup_middle. rewrite length_app. simpl. lia. }
    split; [lia|]. repeat split; try done.
    intros s ->. done.
Qed.

Lemma init_no_TypeError default description kwargs st msg :
  fst (Param.__init__ default description kwargs st) <> Raise (TypeError msg).
Proof.
  destruct (init_cases default) as [[Hn Hj]|Hv].
  - by rewrite init_not_json.
  - by rewrite init_ok.
Qed.

Lemma wrap_items_no_TypeError items acc st msg :
  fst (ParamsDict.wrap_items items acc st) <> Raise (TypeError msg).
Proof.
  revert acc st. induction items as [|[k [v|p]] items IH]; intros acc st; simpl.
  - done.
  - unfold bind at 1.
    destruct (init_cases v) as [[Hn Hj]|Hv].
    + unfold bind. by rewrite init_not_json.
    + unfold bind. rewrite init_ok by done. apply IH.
  - unfold bind at 1. simpl. apply IH.
Qed.

(** C6. [Param.deserialize] and [ParamsDict.deserialize] raise the
    [TypeError] of an unsupported version exactly when the version is
    greater than the version of the class; the version of the class itself
    is accepted. *)
Theorem deserialize_version_gate (data : list (string * pyval))
    (items : list (string * object)) (version : Z) (st : store) :
  ((exists msg, fst (Param.deserialize data version st) = Raise (TypeError msg))
   <-> (version > Param.__version__)%Z)
  /\ ((exists msg,
         fst (ParamsDict.deserialize items version st) = Raise (TypeError msg))
      <-> (version > ParamsDict.__version__)%Z)
  /\ ((version > Param.__version__)%Z ->
      Param.deserialize data version st
      = (Raise (TypeError "serialized version > class version"), st))
  /\ ((version > ParamsDict.__version__)%Z ->
      ParamsDict.deserialize items version st
      = (Raise (TypeError "serialized version > class version"), st)).
Proof.
  unfold Param.deserialize, ParamsDict.deserialize.
  destruct (Z.gtb_spec version Param.__version__) as [Hgt|Hle];
    change ParamsDict.__version__ with Param.__version__.
  - rewrite (proj2 (Z.gtb_gt _ _)) by lia.
    repeat split; try done; intros _; try lia; by eexists.
  - assert ((version >? Param.__version__)%Z = false) as -> by lia.
    repeat split; try lia.
    + intros [msg Hr]. exfalso. revert Hr.
      unfold bind, Param.data_item.
      destruct (dict_get data "value"); simpl; [|done].
      destruct (dict_get data "description"); simpl; [|done].
      destruct (dict_get data "schema"); simpl; [|done].
      apply init_no_TypeError.
    + intros [msg Hr]. exfalso. revert Hr.
      unfold ParamsDict.__init__, bind. simpl.
      destruct (ParamsDict.wrap_items items [] st) as [[d|e] st'] eqn:Hw; simpl.
      * done.
      * intros [= ->]. eapply wrap_items_no_TypeError. by rewrite Hw.
Qed.
End ParamConstruction.

(** ** What resolve writes *)

Section ResolveStore.
Context `{Externals}.

(** [resolve] either leaves the objects as they are, or the validator
    accepted the final value and it is now the stored value. *)
Lemma resolve_heap self p val suppress st :
  heap st !! self = Some p ->
  let final_val := if is_NOTSET val then value p else val in
  let '(r, st') := Param.resolve self val suppress st in
  heap st' = heap st
  \/ (r = Return final_val
      /\ jsonschema_validate final_val (schema p) = Valid
      /\ heap st' = <[self := mkParam final_val (description p) (schema p)]> (heap st)).
Proof.
  intros Hl final_val.
  destruct (is_NOTSET val) eqn:Hn; [|destruct (json_dumps_ok val) eqn:Hj].
  - assert (val = NOTSET) as -> by (by destruct val).
    destruct (is_NOTSET (value p)) eqn:Hv.
    + rewrite (resolve_no_value _ p); [by left|done|by destruct (value p)].
    + rewrite (resolve_validated _ p); [|done|by left|done].
      unfold resolved. simpl. fold final_val.
      destruct (jsonschema_validate _ _) eqn:Hr; simpl; auto.
  - rewrite (resolve_validated _ p); [|done|by right|by rewrite Hn].
    unfold resolved. rewrite Hn. subst final_val. simpl.
    destruct (jsonschema_validate _ _) eqn:Hr; simpl; auto.
  - rewrite resolve_not_json by done. by left.
Qed.

(** The three ways through [resolve], for a live object. *)
Lemma resolve_cases self p val st :
  heap st !! self = Some p ->
  let final_val := if is_NOTSET val then value p else val in
  (is_NOTSET val = false /\ json_dumps_ok val = false
   /\ forall suppress,
       Param.resolve self val suppress st
       = (Raise (ParamValidationError (Param.not_serializable_msg val)), st))
  \/ (final_val = NOTSET
      /\ forall suppress,
          Param.resolve self val suppress st
          = (if suppress then Return PNone
             else Raise (ParamValidationError Param.no_value_msg), st))
  \/ (is_NOTSET final_val = false
      /\ forall suppress,
          Param.resolve self val suppress st = resolved self p final_val suppress st).
Proof.
  intros Hl final_val. subst final_val.
  destruct (is_NOTSET val) eqn:Hn; [|destruct (json_dumps_ok val) eqn:Hj].
  - assert (val = NOTSET) as -> by (by destruct val).
    destruct (is_NOTSET (value p)) eqn:Hv.
    + right; left. split; [by destruct (value p)|].
      intros suppress. apply (resolve_no_value _ p); [done|by destruct (value p)].
    + right; right. split; [done|]. intros suppress.
      by rewrite (resolve_validated _ p); [|done|by left|done].
  - right; right. split; [by destruct val|]. intros suppress.
    rewrite (resolve_validated _ p); [|done|by right|by rewrite Hn].
    by rewrite Hn.
  - left. repeat split; try done. intros suppress. by apply resolve_not_json.
Qed.

(** Reading ([resolve] with no candidate) writes no object. *)
Lemma resolve_read_heap self suppress st :
  heap (snd (Param.resolve self NOTSET suppress st)) = heap st.
Proof.
  destruct (heap st !! self) as [p|] eqn:Hl.
  - pose proof (resolve_heap self p NOTSET suppress st Hl) as Hr. simpl in Hr.
    destruct (Param.resolve self NOTSET suppress st) as [r st']. simpl.
    destruct Hr as [Hr|(_ & _ & Hr)]; [done|].
    rewrite Hr, set_value_same. by apply list_insert_id.
  - rewrite resolve_dangling; [done|done|by left].
Qed.

(** What [resolve] returns depends on the objects only, not on the record
    of the validations made so far. *)
Lemma resolve_fst_heap self val suppress st1 st2 :
  heap st1 = heap st2 ->
  fst (Param.resolve self val suppress st1) = fst (Param.resolve self val suppress st2).
Proof.
  intros Hh.
  destruct (is_NOTSET val) eqn:Hn; [|destruct (json_dumps_ok val) eqn:Hj].
  - assert (val = NOTSET) as -> by (by destruct val).
    destruct (heap st1 !! self) as [p|] eqn:Hl.
    + assert (Hl2 : heap st2 !! self = Some p) by (by rewrite <- Hh).
      destruct (is_NOTSET (value p)) eqn:Hv.
      * rewrite !(resolve_no_value _ p); try done; by destruct (value p).
      * rewrite !(resolve_validated _ p); try done; try (by left).
        unfold resolved. by destruct (jsonschema_validate _ _).
    + rewrite !resolve_dangling; try done; try (by left). by rewrite <- Hh.
  - destruct (heap st1 !! self) as [p|] eqn:Hl.
    + assert (Hl2 : heap st2 !! self = Some p) by (by rewrite <- Hh).
      rewrite !(resolve_validated _ p); try done;
        try (by right); try (by rewrite Hn).
      unfold resolved. by destruct (jsonschema_validate _ _).
    + rewrite !resolve_dangling; try done; try (by right). by rewrite <- Hh.
  - by rewrite !resolve_not_json.
Qed.
End ResolveStore.

(** ** ParamsDict: assignment to a key *)

Lemma dict_set_same {V} (d : list (string * V)) k v :
  dict_get d k = Some v -> dict_set d k v = d.
Proof.
  induction d as [|[k' v'] d IH]; simpl; [done|].
  destruct (String.eqb k k') eqn:E.
  - by intros [= ->].
  - intros Hd. by rewrite IH.
Qed.

Section SetItem.
Context `{Externals}.

Lemma setitem_instance self key p st :
  ParamsDict.__setitem__ self key (Instance p) st
  = (Return (mkParamsDict (dict_set (__dict self) key p) (suppress_exception self)), st).
Proof. done. Qed.

Lemma setitem_existing self key param v st :
  dict_get (__dict self) key = Some param ->
  ParamsDict.__setitem__ self key (Plain v) st
  = match Param.resolve param v (suppress_exception self) st with
    | (Return _, st') => (Return self, st')
    | (Raise (ParamValidationError ve), st') =>
        (Raise (ParamValidationError (ParamsDict.invalid_input_msg key ve)), st')
    | (Raise e, st') => (Raise e, st')
    end.
Proof.
  intros Hd. unfold ParamsDict.__setitem__. rewrite Hd.
  unfold bind, except_ParamValidationError.
  destruct (Param.resolve param v (suppress_exception self) st) as [[r|e] st']; simpl.
  - unfold ret. rewrite dict_set_same by done. by destruct self.
  - by destruct e.
Qed.

Lemma setitem_new self key v st :
  dict_get (__dict self) key = None ->
  ParamsDict.__setitem__ self key (Plain v) st
  = match Param.__init__ v PNone [] st with
    | (Return p, st') =>
        (Return (mkParamsDict (dict_set (__dict self) key p) (suppress_exception self)),
         st')
    | (Raise e, st') => (Raise e, st')
    end.
Proof.
  intros Hd. unfold ParamsDict.__setitem__. rewrite Hd. unfold bind.
  by destruct (Param.__init__ v PNone [] st) as [[p|e] st'].
Qed.

(** C4. When [resolve] succeeds the stored value is the resolved value;
    when it raises, and when the validator rejects the final value (raised
    or suppressed), every object is as before.  In a collection that does
    not suppress exceptions, assigning to an existing key a value that the
    schema of its [Param] rejects raises a validation error whose message
    contains the key, and every object is as before. *)
Theorem resolve_memoizes_failure_keeps (self : loc) (p : ParamObj) (val : pyval)
    (suppress : bool) (st : store) :
  heap st !! self = Some p ->
  let final_val := if is_NOTSET val then value p else val in
  (forall r st',
     Param.resolve self val false st = (Return r, st') ->
     r = final_val
     /\ heap st' !! self = Some (mkParam r (description p) (schema p)))
  /\ (is_NOTSET val = true \/ json_dumps_ok val = true ->
      is_NOTSET final_val = false ->
      jsonschema_validate final_val (schema p) = Valid ->
      exists st',
        Param.resolve self val suppress st = (Return final_val, st')
        /\ heap st' !! self = Some (mkParam final_val (description p) (schema p))
        /\ forall other, other <> self -> heap st' !! other = heap st !! other)
  /\ (forall e st',
        Param.resolve self val suppress st = (Raise e, st') -> heap st' = heap st)
  /\ (forall message,
        jsonschema_validate final_val (schema p) = ValidationError message ->
        heap (snd (Param.resolve self val suppress st)) = heap st)
  /\ (forall pd key message,
        suppress_exception pd = false ->
        dict_get (__dict pd) key = Some self ->
        json_dumps_ok val = true ->
        jsonschema_validate val (schema p) = ValidationError message ->
        exists msg st',
          ParamsDict.__setitem__ pd key (Plain val) st
          = (Raise (ParamValidationError msg), st')
          /\ (exists before after, msg = before +:+ key +:+ after)
          /\ msg = ParamsDict.invalid_input_msg key message
          /\ heap st' = heap st).
Proof.
  intros Hl final_val.
  assert (Hlen : self < length (heap st)) by (by eapply lookup_lt_Some).
  pose proof (resolve_cases self p val st Hl) as Hc. fold final_val in Hc.
  split; [|split; [|split; [|split]]].
  - intros r st'.
    destruct Hc as [(_ & _ & Hc)|[(_ & Hc)|(_ & Hc)]]; rewrite Hc; try done.
    unfold resolved. destruct (jsonschema_validate _ _); try done.
    intros [= <- <-]. simpl. split; [done|]. by apply list_lookup_insert_eq.
  - intros Hok Hf Hvalid.
    destruct Hc as [(Hn & Hj & _)|[(Hf' & _)|(_ & Hc)]].
    + destruct Hok; congruence.
    + by rewrite Hf' in Hf.
    + rewrite Hc. unfold resolved. rewrite Hvalid.
      eexists. split; [done|]. simpl. split.
      * by apply list_lookup_insert_eq.
      * intros other Hne. by apply list_lookup_insert_ne.
  - intros e st'.
    destruct Hc as [(_ & _ & Hc)|[(_ & Hc)|(_ & Hc)]]; rewrite Hc.
    + by intros [= _ <-].
    + by intros [= _ <-].
    + unfold resolved. destruct (jsonschema_validate _ _); try done;
        by intros [= _ <-].
  - intros message Hr.
    destruct Hc as [(_ & _ & Hc)|[(_ & Hc)|(_ & Hc)]]; rewrite Hc; try done.
    unfold resolved. by rewrite Hr.
  - intros pd key message Hs Hd Hj Hr.
    assert (Hn : is_NOTSET val = false) by (by destruct val).
    rewrite (setitem_existing _ _ self) by done. rewrite Hs.
    rewrite (resolve_validated _ p); [|done|by right|by rewrite Hn].
    unfold resolved. rewrite Hn, Hr. simpl.
    eexists _, _. split; [done|]. split; [|done].
    exists "Invalid input for param ", (": " +:+ message). done.
Qed.
End SetItem.

Section SetItemSuppressed.
Context `{Externals}.

(** C10, as the code has it.  In a collection that suppresses exceptions,
    assigning to an existing key a JSON value that the schema of its
    [Param] rejects raises nothing and changes neither the collection nor
    any object: the [Param] of the key holds the value it held, whatever
    that is.  Reading the key afterwards gives what it gave before: the
    previous value when that value is set and passes the schema (it is then
    not the rejected value), and [None] when the [Param] has no value or
    its value does not pass the schema. *)
Theorem setitem_suppressed_keeps_previous (pd : ParamsDictObj) (key : string)
    (self : loc) (p : ParamObj) (val : pyval) (message : string) (st : store) :
  suppress_exception pd = true ->
  dict_get (__dict pd) key = Some self ->
  heap st !! self = Some p ->
  json_dumps_ok val = true ->
  jsonschema_validate val (schema p) = ValidationError message ->
  exists st',
    ParamsDict.__setitem__ pd key (Plain val) st = (Return pd, st')
    /\ heap st' = heap st
    /\ heap st' !! self = Some p
    /\ fst (ParamsDict.__getitem__ pd key st')
       = fst (ParamsDict.__getitem__ pd key st)
    /\ (is_NOTSET (value p) = false ->
        jsonschema_validate (value p) (schema p) = Valid ->
        fst (ParamsDict.__getitem__ pd key st') = Return (value p)
        /\ value p <> val)
    /\ (is_NOTSET (value p) = true
        \/ (exists m, jsonschema_validate (value p) (schema p) = ValidationError m) ->
        fst (ParamsDict.__getitem__ pd key st') = Return PNone).
Proof.
  intros Hs Hd Hl Hj Hr.
  assert (Hn : is_NOTSET val = false) by (by destruct val).
  rewrite (setitem_existing _ _ self) by done. rewrite Hs.
  rewrite (resolve_validated _ p); [|done|by right|by rewrite Hn].
  unfold resolved. rewrite Hn, Hr. simpl.
  eexists. split; [done|]. simpl. split; [done|]. split; [done|].
  unfold ParamsDict.__getitem__. rewrite Hd, Hs. split; [|split].
  - by apply resolve_fst_heap.
  - intros Hv Hvalid.
    rewrite (resolve_validated _ p); [|done|by left|done].
    unfold resolved. simpl. rewrite Hvalid. split; [done|].
    intros Heq. rewrite Heq in Hvalid. congruence.
  - intros Hbad. destruct (is_NOTSET (value p)) eqn:Hv.
    + rewrite (resolve_no_value _ p); [done|done|by destruct (value p)].
    + destruct Hbad as [?|[m Hm]]; [done|].
      rewrite (resolve_validated _ p); [|done|by left|done].
      unfold resolved. simpl. by rewrite Hm.
Qed.
End SetItemSuppressed.

(** ** Stores only grow *)

Section Extends.
Context `{Externals}.

Lemma extends_refl st : extends st st.
Proof.
  split.
  - exists []. by rewrite app_nil_r.
  - intros l p Hl. by exists p.
Qed.

Lemma extends_trans st1 st2 st3 :
  extends st1 st2 -> extends st2 st3 -> extends st1 st3.
Proof.
  intros [[c1 Hc1] Hh1] [[c2 Hc2] Hh2]. split.
  - exists (c1 ++ c2). by rewrite Hc2, Hc1, app_assoc.
  - intros l p Hl.
    destruct (Hh1 l p Hl) as (p1 & Hl1 & Hs1 & Hd1).
    destruct (Hh2 l p1 Hl1) as (p2 & Hl2 & Hs2 & Hd2).
    exists p2. repeat split; congruence.
Qed.

Lemma extends_insert st self p v calls :
  heap st !! self = Some p ->
  extends st (mkStore (<[self := mkParam v (description p) (schema p)]> (heap st))
                      (validations st ++ calls)).
Proof.
  intros Hl. split; [by exists calls|]. simpl. intros l q Hq.
  destruct (decide (self = l)) as [<-|Hne].
  - rewrite list_lookup_insert_eq by (by eapply lookup_lt_Some).
    eexists. split; [done|]. simpl. split; congruence.
  - rewrite list_lookup_insert_ne by done. by exists q.
Qed.

Lemma extends_calls st calls :
  extends st (mkStore (heap st) (validations st ++ calls)).
Proof.
  split; [by exists calls|]. intros l q Hq. by exists q.
Qed.

Lemma extends_alloc st p :
  extends st (mkStore (heap st ++ [p]) (validations st)).
Proof.
  split.
  - exists []. simpl. by rewrite app_nil_r.
  - simpl. intros l q Hq. exists q. split; [|done]. by apply lookup_app_l_Some.
Qed.

Lemma resolve_extends self val suppress st :
  extends st (snd (Param.resolve self val suppress st)).
Proof.
  destruct (heap st !! self) as [p|] eqn:Hl.
  - destruct (resolve_cases self p val st Hl) as [(_ & _ & Hc)|[(_ & Hc)|(_ & Hc)]];
      rewrite Hc; simpl; try apply extends_refl.
    unfold resolved. destruct (jsonschema_validate _ _); simpl.
    + by apply extends_insert.
    + apply extends_calls.
    + apply extends_calls.
  - destruct (is_NOTSET val) eqn:Hn; [|destruct (json_dumps_ok val) eqn:Hj].
    + rewrite resolve_dangling; [apply extends_refl|done|by left].
    + rewrite resolve_dangling; [apply extends_refl|done|by right].
    + rewrite resolve_not_json by done. apply extends_refl.
Qed.

Lemma init_extends default description kwargs st :
  extends st (snd (Param.__init__ default description kwargs st)).
Proof.
  destruct (init_cases default) as [[Hn Hj]|Hv].
  - rewrite init_not_json by done. apply extends_refl.
  - rewrite init_ok by done. apply extends_alloc.
Qed.

Lemma setitem_extends self key val st :
  extends st (snd (ParamsDict.__setitem__ self key val st)).
Proof.
  destruct val as [v|p].
  - destruct (dict_get (__dict self) key) as [param|] eqn:Hd.
    + rewrite (setitem_existing _ _ param) by done.
      pose proof (resolve_extends param v (suppress_exception self) st) as He.
      destruct (Param.resolve param v (suppress_exception self) st) as [[r|e] st'];
        [done|by destruct e].
    + rewrite setitem_new by done.
      pose proof (init_extends v PNone [] st) as He.
      by destruct (Param.__init__ v PNone [] st) as [[r|e] st'].
  - rewrite setitem_instance. apply extends_refl.
Qed.

Lemma update_keys_extends self other keys st :
  extends st (snd (ParamsDict.update_keys self other keys st)).
Proof.
  revert self st. induction keys as [|k keys IH]; intros self st; simpl.
  - apply extends_refl.
  - destruct (dict_get other k) as [val|]; [|apply extends_refl].
    unfold bind.
    pose proof (setitem_extends self k val st) as He.
    destruct (ParamsDict.__setitem__ self k val st) as [[self'|e] st1]; [|done].
    eapply extends_trans; [exact He|apply IH].
Qed.
End Extends.

(** ** Dicts *)

Lemma dict_get_keys {V} (d : list (string * V)) k :
  k ∈ dict_keys d <-> is_Some (dict_get d k).
Proof.
  induction d as [|[k' v'] d IH]; simpl.
  - split; [by intros ?%elem_of_nil|by intros [? ?]].
  - destruct (String.eqb k k') eqn:E.
    + apply String.eqb_eq in E as ->. split; [by eexists|left].
    + rewrite elem_of_cons, IH. split; [|tauto].
      intros [->|?]; [|done]. by rewrite String.eqb_refl in E.
Qed.

Lemma dict_get_None_keys {V} (d : list (string * V)) k :
  dict_get d k = None <-> k ∉ dict_keys d.
Proof. rewrite dict_get_keys, eq_None_not_Some. done. Qed.

Lemma dict_keys_set {V} (d : list (string * V)) k v :
  dict_keys (dict_set d k v)
  = match dict_get d k with
    | Some _ => dict_keys d
    | None => dict_keys d ++ [k]
    end.
Proof.
  induction d as [|[k' v'] d IH]; simpl; [done|].
  destruct (String.eqb k k') eqn:E; simpl; [done|].
  rewrite IH. by destruct (dict_get d k).
Qed.

Lemma dict_set_NoDup {V} (d : list (string * V)) k v :
  NoDup (dict_keys d) -> NoDup (dict_keys (dict_set d k v)).
Proof.
  intros Hnd. rewrite dict_keys_set.
  destruct (dict_get d k) eqn:Hd; [done|].
  apply NoDup_app. split; [done|]. split; [|apply NoDup_singleton].
  intros x Hx ->%list_elem_of_singleton.
  by apply dict_get_None_keys in Hd.
Qed.

Lemma dict_get_dict_of pd k :
  dict_get (ParamsDict.dict_of pd) k = Instance <$> dict_get (__dict pd) k.
Proof.
  unfold ParamsDict.dict_of.
  induction (__dict pd) as [|[k' p] d IH]; simpl; [done|].
  by destruct (String.eqb k k').
Qed.

Lemma dict_keys_dict_of pd :
  dict_keys (ParamsDict.dict_of pd) = dict_keys (__dict pd).
Proof.
  unfold ParamsDict.dict_of, dict_keys.
  induction (__dict pd) as [|[k' p] d IH]; simpl; [done|]. by rewrite IH.
Qed.

(** ** ParamsDict.update *)

Section Update.
Context `{Externals}.

(** Updating from the dict of a [ParamsDict] stores its [Param] objects
    under their names and touches nothing else. *)
Lemma update_keys_adopt self o keys st :
  (forall k, k ∈ keys -> is_Some (dict_get (__dict o) k)) ->
  exists self',
    ParamsDict.update_keys self (ParamsDict.dict_of o) keys st = (Return self', st)
    /\ suppress_exception self' = suppress_exception self
    /\ (forall k, dict_get (__dict self') k
                  = if decide (k ∈ keys) then dict_get (__dict o) k
                    else dict_get (__dict self) k)
    /\ (NoDup (dict_keys (__dict self)) -> NoDup (dict_keys (__dict self'))).
Proof.
  revert self. induction keys as [|k1 keys IH]; intros self Hin; simpl.
  - exists self. repeat split; try done.
  - destruct (Hin k1) as [p1 Hp1]; [left|].
    rewrite dict_get_dict_of, Hp1. simpl.
    erewrite bind_Return by apply setitem_instance.
    destruct (IH (mkParamsDict (dict_set (__dict self) k1 p1) (suppress_exception self)))
      as (self' & Hrun & Hs & Hget & Hnd).
    { intros k Hk. apply Hin. by right. }
    exists self'. split; [done|]. split; [done|]. split.
    + intros k. rewrite Hget. simpl.
      destruct (decide (k ∈ keys)) as [Hk|Hk].
      * rewrite decide_True; [done|by right].
      * destruct (decide (k = k1)) as [->|Hne].
        -- rewrite decide_True by left. by rewrite dict_get_set_eq.
        -- rewrite decide_False.
           ++ by apply dict_get_set_ne.
           ++ intros [?|?]%elem_of_cons; done.
    + intros Hd. apply Hnd. simpl. by apply dict_set_NoDup.
Qed.

Lemma update_adopt self o st :
  exists self',
    ParamsDict.update self (AParamsDict o) st = (Return self', st)
    /\ suppress_exception self' = suppress_exception self
    /\ (forall k, dict_get (__dict self') k
                  = match dict_get (__dict o) k with
                    | Some p => Some p
                    | None => dict_get (__dict self) k
                    end)
    /\ (NoDup (dict_keys (__dict self)) -> NoDup (dict_keys (__dict self'))).
Proof.
  unfold ParamsDict.update, ParamsDict.MutableMapping_update.
  rewrite dict_keys_dict_of.
  destruct (update_keys_adopt self o (dict_keys (__dict o)) st)
    as (self' & Hrun & Hs & Hget & Hnd).
  { intros k. apply dict_get_keys. }
  exists self'. repeat split; try done.
  intros k. rewrite Hget.
  destruct (decide (k ∈ dict_keys (__dict o))) as [Hk|Hk].
  - apply dict_get_keys in Hk as [p Hp]. by rewrite Hp.
  - apply dict_get_None_keys in Hk. by rewrite Hk.
Qed.

(** An assignment keeps the entries of the other names, and the entry of
    its own name when the value is not a [Param]. *)
Lemma setitem_entry self k x st self' st' :
  ParamsDict.__setitem__ self k x st = (Return self', st') ->
  suppress_exception self' = suppress_exception self
  /\ forall key param,
      dict_get (__dict self) key = Some param ->
      (k <> key \/ exists v, x = Plain v) ->
      dict_get (__dict self') key = Some param.
Proof.
  destruct x as [v|p].
  - destruct (dict_get (__dict self) k) as [param0|] eqn:Hd.
    + rewrite (setitem_existing _ _ param0) by done.
      destruct (Param.resolve _ _ _ _) as [[r|e] st1]; [|by destruct e].
      by intros [= <- <-].
    + rewrite setitem_new by done.
      destruct (Param.__init__ _ _ _ _) as [[r|e] st1]; [|done].
      intros [= <- <-]. simpl. split; [done|].
      intros key param Hk _. rewrite dict_get_set_ne; [done|]. congruence.
  - rewrite setitem_instance. intros [= <- <-]. simpl. split; [done|].
    intros key param Hk [Hne|[v Hv]]; [|done]. by rewrite dict_get_set_ne.
Qed.

(** Assigning a JSON value to an existing name calls the validator on the
    value and the schema of the [Param] of that name. *)
Lemma setitem_validates self key v param p st :
  json_dumps_ok v = true ->
  dict_get (__dict self) key = Some param -> heap st !! param = Some p ->
  validations (snd (ParamsDict.__setitem__ self key (Plain v) st))
  = validations st ++ [(v, schema p)]
  /\ (forall self' st',
        ParamsDict.__setitem__ self key (Plain v) st = (Return self', st') ->
        suppress_exception self = false ->
        jsonschema_validate v (schema p) = Valid).
Proof.
  intros Hj Hd Hl.
  assert (Hn : is_NOTSET v = false) by (by destruct v).
  rewrite (setitem_existing _ _ param) by done.
  rewrite (resolve_validated _ p); [|done|by right|by rewrite Hn].
  unfold resolved. rewrite Hn.
  destruct (jsonschema_validate v (schema p)); simpl; try done.
  destruct (suppress_exception self); simpl; try done.
Qed.

Lemma update_keys_entry self d keys key v param st self' st' :
  dict_get d key = Some (Plain v) ->
  dict_get (__dict self) key = Some param ->
  ParamsDict.update_keys self d keys st = (Return self', st') ->
  suppress_exception self' = suppress_exception self
  /\ dict_get (__dict self') key = Some param.
Proof.
  intros Hv. revert self st. induction keys as [|k1 keys IH]; intros self st Hd; simpl.
  - by intros [= <- <-].
  - destruct (dict_get d k1) as [x|] eqn:Hx; [|done].
    unfold bind.
    destruct (ParamsDict.__setitem__ self k1 x st) as [[self1|e] st1] eqn:Hset; [|done].
    apply setitem_entry in Hset as [Hs Hkeep].
    intros Hrun. apply IH in Hrun as [Hs' Hd'].
    + split; congruence.
    + apply Hkeep; [done|].
      destruct (decide (k1 = key)) as [->|Hne]; [|by left].
      right. exists v. congruence.
Qed.

Lemma update_keys_validates self d keys key v param p st self' st' :
  key ∈ keys ->
  dict_get d key = Some (Plain v) -> json_dumps_ok v = true ->
  dict_get (__dict self) key = Some param -> heap st !! param = Some p ->
  ParamsDict.update_keys self d keys st = (Return self', st') ->
  (exists before after,
     validations st' = validations st ++ before ++ (v, schema p) :: after)
  /\ (suppress_exception self = false -> jsonschema_validate v (schema p) = Valid).
Proof.
  intros Hin Hv Hj. revert self st p Hin.
  induction keys as [|k1 keys IH]; intros self st p Hin Hd Hl; simpl.
  - by apply elem_of_nil in Hin.
  - destruct (dict_get d k1) as [x|] eqn:Hx; [|done].
    unfold bind.
    destruct (ParamsDict.__setitem__ self k1 x st) as [[self1|e] st1] eqn:Hset; [|done].
    intros Hrun.
    destruct (decide (k1 = key)) as [->|Hne].
    + assert (x = Plain v) as -> by congruence.
      destruct (setitem_validates self key v param p st Hj Hd Hl) as [Hlog Hstrict].
      rewrite Hset in Hlog. simpl in Hlog. split.
      * pose proof (update_keys_extends self1 d keys st1) as [[calls Hc] _].
        rewrite Hrun in Hc. simpl in Hc.
        exists [], calls. by rewrite Hc, Hlog, <- app_assoc.
      * intros Hs. by eapply Hstrict.
    + apply elem_of_cons in Hin as [Heq|Hin]; [congruence|].
      pose proof (setitem_extends self k1 x st) as [[calls Hc] Hobj].
      rewrite Hset in Hc, Hobj. simpl in Hc, Hobj.
      destruct (Hobj param p Hl) as (p1 & Hl1 & Hs1 & _).
      pose proof Hset as Hset'.
      apply setitem_entry in Hset' as [Hs Hkeep].
      destruct (IH self1 st1 p1 Hin) as [(before & after & Hlog) Hstrict]; try done.
      { apply Hkeep; [done|by left]. }
      rewrite Hs1 in Hlog, Hstrict. split.
      * exists (calls ++ before), after. by rewrite Hlog, Hc, <- !app_assoc.
      * intros Hs0. apply Hstrict. congruence.
Qed.

Lemma update_keys_merge_plain d rest self st :
  (forall k x, (k, x) ∈ rest -> dict_get d k = Some x) ->
  ParamsDict.update_keys self d (dict_keys rest) st
  = ParamsDictSpec.merge_plain self rest st.
Proof.
  revert self st. induction rest as [|[k x] rest IH]; intros self st Hin; simpl; [done|].
  rewrite (Hin k x) by left. unfold bind.
  destruct (ParamsDict.__setitem__ self k x st) as [[self'|e] st1]; [|done].
  apply IH. intros k' x' Hk'. apply Hin. by right.
Qed.

Lemma dict_get_elem_of {V} (d : list (string * V)) k v :
  NoDup (dict_keys d) -> (k, v) ∈ d -> dict_get d k = Some v.
Proof.
  induction d as [|[k0 v0] d IH]; simpl.
  - by intros _ ?%elem_of_nil.
  - intros [Hk0 Hnd]%NoDup_cons [[= <- <-]|Hin]%elem_of_cons.
    + by rewrite String.eqb_refl.
    + destruct (String.eqb_spec k k0) as [->|]; [|by apply IH].
      destruct Hk0. by apply (list_elem_of_fmap_2 fst) in Hin.
Qed.

Lemma merge_plain_instances entries self st :
  ParamsDictSpec.merge_plain self (map (fun '(k, p) => (k, Instance p)) entries) st
  = (Return (mkParamsDict (ParamsDictSpec.adopt (__dict self) entries)
                          (suppress_exception self)), st).
Proof.
  revert self. induction entries as [|[k p] entries IH]; intros self; simpl.
  - by destruct self.
  - erewrite bind_Return by apply setitem_instance. by rewrite IH.
Qed.

(** One assignment of a JSON value to a name the collection has. *)
Lemma setitem_existing_json self key v param p st :
  json_dumps_ok v = true ->
  dict_get (__dict self) key = Some param -> heap st !! param = Some p ->
  ParamsDict.__setitem__ self key (Plain v) st
  = match jsonschema_validate v (schema p) with
    | Valid =>
        (Return self,
         mkStore (<[param := mkParam v (description p) (schema p)]> (heap st))
                 (validations st ++ [(v, schema p)]))
    | ValidationError e =>
        (if suppress_exception self then Return self
         else Raise (ParamValidationError (ParamsDict.invalid_input_msg key e)),
         mkStore (heap st) (validations st ++ [(v, schema p)]))
    | SchemaError e =>
        (Raise (JsonschemaSchemaError e),
         mkStore (heap st) (validations st ++ [(v, schema p)]))
    end.
Proof.
  intros Hj Hd Hl.
  assert (Hn : is_NOTSET v = false) by (by destruct v).
  rewrite (setitem_existing _ _ param) by done.
  rewrite (resolve_validated _ p); [|done|by right|by rewrite Hn].
  unfold resolved. rewrite Hn.
  destruct (jsonschema_validate v (schema p)); simpl; try done.
  by destruct (suppress_exception self).
Qed.

(** C5. Updating from another [ParamsDict] stores the very [Param] objects
    of the other collection under their names, calls the validator not
    once and changes no object: it is the adoption of the specification.
    Updating from a plain dict is one assignment for each entry, in order;
    an assignment of a JSON value to a name the collection has calls the
    validator on the value and the schema of the [Param] of the name, and
    stores the value in that [Param] when it is accepted; for a new name it
    makes a new [Param] without schema, and a [Param] instance is taken as
    it is.  So a JSON value given in a plain dict for a name the
    collection has is validated against the schema of its [Param]. *)
Theorem update_adopts_or_revalidates (self : ParamsDictObj) (st : store) :
  (forall other, exists self',
     ParamsDict.update self (AParamsDict other) st = (Return self', st)
     /\ suppress_exception self' = suppress_exception self
     /\ forall k, dict_get (__dict self') k
                  = match dict_get (__dict other) k with
                    | Some p => Some p
                    | None => dict_get (__dict self) k
                    end)
  /\ (forall other,
        NoDup (dict_keys (__dict other)) ->
        ParamsDict.update self (AParamsDict other) st
        = ParamsDictSpec.merge_collection self other st)
  /\ (forall d,
        NoDup (dict_keys d) ->
        ParamsDict.update self (ADict d) st = ParamsDictSpec.merge_plain self d st)
  /\ (forall key v param p,
        json_dumps_ok v = true ->
        dict_get (__dict self) key = Some param -> heap st !! param = Some p ->
        ParamsDict.__setitem__ self key (Plain v) st
        = match jsonschema_validate v (schema p) with
          | Valid =>
              (Return self,
               mkStore (<[param := mkParam v (description p) (schema p)]> (heap st))
                       (validations st ++ [(v, schema p)]))
          | ValidationError e =>
              (if suppress_exception self then Return self
               else Raise (ParamValidationError (ParamsDict.invalid_input_msg key e)),
               mkStore (heap st) (validations st ++ [(v, schema p)]))
          | SchemaError e =>
              (Raise (JsonschemaSchemaError e),
               mkStore (heap st) (validations st ++ [(v, schema p)]))
          end)
  /\ (forall key v,
        storable v -> dict_get (__dict self) key = None ->
        ParamsDict.__setitem__ self key (Plain v) st
        = (Return (mkParamsDict (__dict self ++ [(key, length (heap st))])
                                (suppress_exception self)),
           mkStore (heap st ++ [plain_param v]) (validations st)))
  /\ (forall key p,
        ParamsDict.__setitem__ self key (Instance p) st
        = (Return (mkParamsDict (dict_set (__dict self) key p)
                                (suppress_exception self)), st))
  /\ (forall d key v param p,
        dict_get d key = Some (Plain v) -> json_dumps_ok v = true ->
        dict_get (__dict self) key = Some param -> heap st !! param = Some p ->
        validations (snd (ParamsDict.__setitem__ self key (Plain v) st))
        = validations st ++ [(v, schema p)]
        /\ forall self' st',
            ParamsDict.update self (ADict d) st = (Return self', st') ->
            (exists before after,
               validations st' = validations st ++ before ++ (v, schema p) :: after)
            /\ dict_get (__dict self') key = Some param
            /\ (suppress_exception self = false ->
                jsonschema_validate v (schema p) = Valid)).
Proof.
  split; [|split; [|split; [|split; [|split; [|split]]]]].
  - intros other. destruct (update_adopt self other st) as (self' & ? & ? & ? & _).
    by exists self'.
  - intros other Hnd. unfold ParamsDict.update, ParamsDict.MutableMapping_update.
    rewrite update_keys_merge_plain.
    + unfold ParamsDict.dict_of. apply merge_plain_instances.
    + intros k x Hin. apply dict_get_elem_of; [|done].
      by rewrite dict_keys_dict_of.
  - intros d Hnd. unfold ParamsDict.update, ParamsDict.MutableMapping_update.
    apply update_keys_merge_plain. intros k x Hin. by apply dict_get_elem_of.
  - intros key v param p Hj Hd Hl. by apply setitem_existing_json.
  - intros key v Hv Hd. rewrite setitem_new by done.
    unfold plain_param. rewrite init_ok by done. simpl.
    assert (Hset : forall (d : list (string * nat)) n,
              dict_get d key = None -> dict_set d key n = d ++ [(key, n)]).
    { induction d as [|[k' v'] d IH]; intros n; simpl; [done|].
      destruct (String.eqb key k'); [done|]. intros Hnone. by rewrite IH. }
    by rewrite Hset.
  - intros key p. apply setitem_instance.
  - intros d key v param p Hv Hj Hd Hl. split.
    + by apply (setitem_validates self key v param p st).
    + intros self' st' Hrun. unfold ParamsDict.update in Hrun.
      unfold ParamsDict.MutableMapping_update in Hrun.
      assert (Hin : key ∈ dict_keys d) by (apply dict_get_keys; by eexists).
      destruct (update_keys_validates _ _ _ _ _ _ _ _ _ _ Hin Hv Hj Hd Hl Hrun)
        as [Hlog Hstrict].
      destruct (update_keys_entry _ _ _ _ _ _ _ _ _ Hv Hd Hrun) as [_ Hkeep].
      done.
Qed.
End Update.

(** ** Assigning plain values, name by name *)

Section Assign.
Context `{Externals}.

Lemma assigned_idem p v : assigned (assigned p v) v = assigned p v.
Proof.
  unfold assigned. destruct (is_NOTSET v) eqn:Hn; [done|].
  destruct (jsonschema_validate v (schema p)) eqn:Hr; simpl; by rewrite ?Hr.
Qed.

Lemma assigned_new v :
  assigned (mkParam v PNone (PDict [])) v = mkParam v PNone (PDict []).
Proof.
  unfold assigned. destruct (is_NOTSET v); [done|]. simpl.
  by destruct (jsonschema_validate v (PDict [])).
Qed.

Lemma view_Some self st k p :
  view self st k = Some p ->
  exists l, dict_get (__dict self) k = Some l /\ heap st !! l = Some p.
Proof.
  unfold view. destruct (dict_get (__dict self) k) as [l|]; [|done]. by exists l.
Qed.

Lemma view_None self st k :
  well_formed self st -> view self st k = None -> dict_get (__dict self) k = None.
Proof.
  intros Hwf. unfold view.
  destruct (dict_get (__dict self) k) as [l|] eqn:Hd; [|done].
  intros Hl. apply lookup_ge_None in Hl.
  pose proof (wf_live _ _ Hwf k l Hd). lia.
Qed.

(** One assignment of a plain value that raises nothing. *)
Lemma setitem_plain_view self k v st self' st' :
  well_formed self st ->
  ParamsDict.__setitem__ self k (Plain v) st = (Return self', st') ->
  well_formed self' st'
  /\ suppress_exception self' = suppress_exception self
  /\ view self' st' k
     = Some (match view self st k with
             | Some p => assigned p v
             | None => mkParam v PNone (PDict [])
             end)
  /\ (forall k0, k0 <> k -> view self' st' k0 = view self st k0)
  /\ (suppress_exception self = false -> is_NOTSET v = false ->
      forall p, view self st k = Some p -> jsonschema_validate v (schema p) = Valid).
Proof.
  intros Hwf.
  destruct (dict_get (__dict self) k) as [l|] eqn:Hd.
  - pose proof (wf_live _ _ Hwf k l Hd) as Hlen.
    destruct (lookup_lt_is_Some_2 (heap st) l Hlen) as [p Hl].
    assert (Hview : view self st k = Some p) by (unfold view; by rewrite Hd).
    rewrite (setitem_existing _ _ l) by done. rewrite Hview.
    destruct (resolve_cases l p v st Hl) as [(_ & _ & Hc)|[(Hf & Hc)|(Hf & Hc)]];
      rewrite Hc.
    + done.
    + assert (Hn : is_NOTSET v = true).
      { destruct (is_NOTSET v) eqn:Hn; [done|]. rewrite Hf in Hn. done. }
      destruct (suppress_exception self) eqn:Hs; [|done].
      intros [= <- <-]. split; [done|]. split; [done|].
      unfold assigned. rewrite Hn. split; [done|]. split; [done|]. done.
    + unfold resolved.
      destruct (jsonschema_validate _ _) eqn:Hr; [| |done].
      * intros [= <- <-]. split; [|split; [done|split; [|split]]].
        -- split; simpl.
           ++ intros k1 l1 Hk1. rewrite length_insert. by eapply wf_live.
           ++ apply (wf_distinct _ _ Hwf).
           ++ apply (wf_keys _ _ Hwf).
        -- unfold view. rewrite Hd. simpl.
           rewrite list_lookup_insert_eq by done. f_equal.
           unfold assigned. destruct (is_NOTSET v); [by destruct p|by rewrite Hr].
        -- intros k0 Hne. unfold view. simpl.
           destruct (dict_get (__dict self) k0) as [l0|] eqn:Hd0; [|done].
           apply list_lookup_insert_ne. intros ->.
           apply Hne. by eapply wf_distinct.
        -- intros _ Hn q [= <-]. by rewrite Hn in Hr.
      * destruct (suppress_exception self) eqn:Hs; [|done].
        intros [= <- <-]. split; [|split; [done|split; [|split]]].
        -- split; simpl;
             [apply (wf_live _ _ Hwf)|apply (wf_distinct _ _ Hwf)|apply (wf_keys _ _ Hwf)].
        -- unfold view. rewrite Hd. cbn [heap]. rewrite Hl. f_equal.
           unfold assigned. destruct (is_NOTSET v); [done|by rewrite Hr].
        -- done.
        -- done.
  - assert (Hview : view self st k = None) by (unfold view; by rewrite Hd).
    rewrite setitem_new by done. rewrite Hview.
    destruct (init_cases v) as [[Hn Hj]|Hv].
    + by rewrite init_not_json.
    + rewrite init_ok by done. simpl.
      intros [= <- <-]. split; [|split; [done|split; [|split]]].
      * split; simpl.
        -- intros k1 l1. rewrite length_app. simpl.
           destruct (decide (k = k1)) as [<-|Hne].
           ++ rewrite dict_get_set_eq. intros [= <-]. lia.
           ++ rewrite dict_get_set_ne by done. intros Hk1.
              pose proof (wf_live _ _ Hwf k1 l1 Hk1). lia.
        -- intros k1 k2 l1.
           destruct (decide (k = k1)) as [<-|Hne1];
             destruct (decide (k = k2)) as [<-|Hne2]; try done.
           ++ rewrite dict_get_set_eq, dict_get_set_ne by done.
              intros [= <-] Hk2. pose proof (wf_live _ _ Hwf k2 _ Hk2). lia.
           ++ rewrite dict_get_set_eq, dict_get_set_ne by done.
              intros Hk1 [= <-]. pose proof (wf_live _ _ Hwf k1 _ Hk1). lia.
           ++ rewrite !dict_get_set_ne by done. apply (wf_distinct _ _ Hwf).
        -- apply dict_set_NoDup, (wf_keys _ _ Hwf).
      * unfold view. simpl. rewrite dict_get_set_eq. by apply list_lookup_middle.
      * intros k0 Hne. unfold view. simpl. rewrite dict_get_set_ne by done.
        destruct (dict_get (__dict self) k0) as [l0|] eqn:Hd0; [|done].
        apply lookup_app_l. by eapply wf_live.
      * done.
Qed.

(** A whole update from a plain dict of plain values that raises nothing:
    every name of the loop holds its [Param] after the assignment. *)
Lemma update_keys_plain_view conf keys self st self' st' :
  (forall k x, dict_get conf k = Some x -> exists v, x = Plain v) ->
  well_formed self st ->
  ParamsDict.update_keys self conf keys st = (Return self', st') ->
  well_formed self' st'
  /\ suppress_exception self' = suppress_exception self
  /\ (forall k, k ∉ keys -> view self' st' k = view self st k)
  /\ (forall k v, k ∈ keys -> dict_get conf k = Some (Plain v) ->
        view self' st' k
        = Some (match view self st k with
                | Some p => assigned p v
                | None => mkParam v PNone (PDict [])
                end)
        /\ (suppress_exception self = false -> is_NOTSET v = false ->
            forall p, view self st k = Some p ->
                      jsonschema_validate v (schema p) = Valid)).
Proof.
  intros Hplain. revert self st.
  induction keys as [|k1 keys IH]; intros self st Hwf; simpl.
  - intros [= <- <-]. split; [done|]. split; [done|]. split; [done|].
    intros k v Hk. by apply elem_of_nil in Hk.
  - destruct (dict_get conf k1) as [x|] eqn:Hx; [|done].
    destruct (Hplain k1 x Hx) as [v1 ->].
    unfold bind.
    destruct (ParamsDict.__setitem__ self k1 (Plain v1) st) as [[self1|e] st1] eqn:Hset;
      [|done].
    destruct (setitem_plain_view _ _ _ _ _ _ Hwf Hset)
      as (Hwf1 & Hs1 & Hview1 & Hframe1 & Hstrict1).
    intros Hrun.
    destruct (IH self1 st1 Hwf1 Hrun) as (Hwf' & Hs' & Hframe' & Hview').
    split; [done|]. split; [congruence|]. split.
    + intros k Hk. apply not_elem_of_cons in Hk as [Hne Hk].
      rewrite Hframe' by done. by apply Hframe1.
    + intros k v Hk Hv.
      destruct (decide (k = k1)) as [->|Hne].
      * assert (v1 = v) as -> by congruence.
        split; [|done].
        destruct (decide (k1 ∈ keys)) as [Hin|Hnin].
        -- destruct (Hview' k1 v Hin Hv) as [-> _]. rewrite Hview1. f_equal.
           destruct (view self st k1); [apply assigned_idem|apply assigned_new].
        -- by rewrite Hframe'.
      * apply elem_of_cons in Hk as [?|Hk]; [done|].
        destruct (Hview' k v Hk Hv) as [-> Hstrict'].
        rewrite (Hframe1 k) in * by done. split; [done|].
        intros Hs. apply Hstrict'. congruence.
Qed.
End Assign.

(** ** ParamsDict.validate *)

Section Validate.
Context `{Externals}.

(** Reading gives the same result for the same object, wherever it lives. *)
Lemma resolve_read_object l1 st1 l2 st2 p suppress :
  heap st1 !! l1 = Some p -> heap st2 !! l2 = Some p ->
  fst (Param.resolve l1 NOTSET suppress st1) = fst (Param.resolve l2 NOTSET suppress st2).
Proof.
  intros Hl1 Hl2.
  destruct (is_NOTSET (value p)) eqn:Hv.
  - rewrite !(resolve_no_value _ p); try done; by destruct (value p).
  - rewrite !(resolve_validated _ p); try done; try (by left).
    unfold resolved. by destruct (jsonschema_validate _ _).
Qed.

Lemma validate_items_spec suppress items acc st res st' :
  NoDup (dict_keys items) ->
  ParamsDict.validate_items suppress items acc st = (Return res, st') ->
  heap st' = heap st
  /\ forall k,
      match dict_get items k with
      | Some l => exists r, dict_get res k = Some r
                            /\ fst (Param.resolve l NOTSET suppress st) = Return r
      | None => dict_get res k = dict_get acc k
      end.
Proof.
  revert acc st. induction items as [|[k1 l1] items IH]; intros acc st Hnd; simpl.
  - by intros [= <- <-].
  - apply NoDup_cons in Hnd as [Hk1 Hnd].
    unfold bind, except_ParamValidationError.
    pose proof (resolve_read_heap l1 suppress st) as Hheap.
    destruct (Param.resolve l1 NOTSET suppress st) as [[x|e] st1] eqn:Hres;
      [|by destruct e].
    simpl in Hheap. intros Hrun.
    destruct (IH _ _ Hnd Hrun) as [Hheap' Hget].
    split; [congruence|]. intros k. specialize (Hget k).
    destruct (String.eqb k k1) eqn:E.
    + apply String.eqb_eq in E as ->.
      assert (Hnone : dict_get items k1 = None).
      { apply dict_get_None_keys. exact Hk1. }
      rewrite Hnone in Hget.
      exists x. by rewrite Hget, dict_get_set_eq, Hres.
    + destruct (dict_get items k) as [l|].
      * destruct Hget as (r & Hr & Hread). exists r. split; [done|].
        rewrite <- Hread. by apply resolve_fst_heap.
      * rewrite Hget. apply dict_get_set_ne. intros ->.
        by rewrite String.eqb_refl in E.
Qed.
End Validate.

(** ** process_params *)

Section Pipeline.
Context `{Externals}.

(** The collection after the two declared sources, both [ParamsDict]. *)
Lemma declared_merge dag_params task_params suppress st :
  exists params,
    (forall A (K : ParamsDictObj -> M A),
       (params <- ParamsDict.__init__ None suppress ;;
        params <- ParamsDict.update params (AParamsDict dag_params) ;;
        params <- (if mapping_bool (AParamsDict task_params)
                   then ParamsDict.update params (AParamsDict task_params)
                   else ret params) ;;
        K params) st = K params st)
    /\ suppress_exception params = suppress
    /\ (forall k, dict_get (__dict params) k = declared_param dag_params task_params k)
    /\ NoDup (dict_keys (__dict params)).
Proof.
  destruct (update_adopt (mkParamsDict [] suppress) dag_params st)
    as (params1 & Hrun1 & Hs1 & Hget1 & Hnd1).
  specialize (Hnd1 (NoDup_nil_2)). simpl in Hs1.
  unfold declared_param.
  destruct (__dict task_params) as [|e d] eqn:Hd.
  - exists params1. split; [|split; [done|split; [|done]]].
    + intros A K. erewrite bind_Return by done.
      erewrite bind_Return by exact Hrun1.
      unfold mapping_bool. rewrite Hd. by erewrite bind_Return.
    + intros k. rewrite Hget1. simpl. by destruct (dict_get (__dict dag_params) k).
  - destruct (update_adopt params1 task_params st)
      as (params2 & Hrun2 & Hs2 & Hget2 & Hnd2).
    exists params2. split; [|split; [congruence|split; [|by apply Hnd2]]].
    + intros A K. erewrite bind_Return by done.
      erewrite bind_Return by exact Hrun1.
      unfold mapping_bool. rewrite Hd. by erewrite bind_Return by exact Hrun2.
    + intros k. rewrite Hget2, Hget1, Hd. simpl.
      destruct (let '(k', v) := e in _); [done|].
      by destruct (dict_get (__dict dag_params) k).
Qed.

(** The pipeline on declared collections, in closed form.  Without a run
    configuration in force (the flag is off, or the configuration is empty
    or absent) the run configuration plays no part.  For a dag and a task
    whose [params] are
    [ParamsDict] collections, with one live [Param] object per name, and a
    run configuration of plain values: when the pipeline returns a dict,
    a name that the run configuration does not override holds what its
    declared [Param] resolves to, the one of the task before the one of
    the dag; a name given a JSON value by the run configuration in force
    holds that value when the validator accepts it against the schema of
    the declared [Param] (the empty schema for a new name); when the
    validator rejects it, exceptions are being suppressed and the name
    holds what the declared [Param] resolves to ([None] for a new name). *)
Theorem process_params_precedence :
  (forall dag task conf suppress st,
     process_params dag task conf false suppress st
     = process_params dag task None false suppress st
     /\ process_params dag task (Some []) true suppress st
        = process_params dag task None true suppress st)
  /\ (forall (dag_params task_params : ParamsDictObj) (conf : list (string * object))
             (overrides suppress : bool) (st : store) res st',
        (forall k l, declared_param dag_params task_params k = Some l ->
                     is_Some (heap st !! l)) ->
        (forall k1 k2 l, declared_param dag_params task_params k1 = Some l ->
                         declared_param dag_params task_params k2 = Some l -> k1 = k2) ->
        (forall k x, dict_get conf k = Some x -> exists v, x = Plain v) ->
        process_params (Some (DAG.mk (AParamsDict dag_params)))
          (Operator.mk (Some (AParamsDict task_params)))
          (Some conf) overrides suppress st = (Return res, st') ->
        forall k,
          (overrides = false \/ dict_get conf k = None ->
           match declared_param dag_params task_params k with
           | Some l => exists r, dict_get res k = Some r
                                 /\ fst (Param.resolve l NOTSET suppress st) = Return r
           | None => dict_get res k = None
           end)
          /\ (forall v,
                overrides = true -> dict_get conf k = Some (Plain v) ->
                json_dumps_ok v = true ->
                match declared_param dag_params task_params k with
                | Some l =>
                    forall p, heap st !! l = Some p ->
                      match jsonschema_validate v (schema p) with
                      | Valid => dict_get res k = Some v
                      | _ => suppress = true
                             /\ exists r, dict_get res k = Some r
                                   /\ fst (Param.resolve l NOTSET true st) = Return r
                      end
                | None =>
                    match jsonschema_validate v (PDict []) with
                    | Valid => dict_get res k = Some v
                    | _ => suppress = true /\ dict_get res k = Some PNone
                    end
                end)).
Proof.
  split; [intros; split; reflexivity|].
  intros dp tp conf overrides suppress st res st' Hlive Hdist Hplain Hrun k.
  destruct (declared_merge dp tp suppress st) as (params & Hmerge & Hs & Hget & Hnd).
  unfold process_params in Hrun. cbn [DAG.params Operator.params default] in Hrun.
  rewrite Hmerge in Hrun.
  assert (Hwf : well_formed params st).
  { split; [|by setoid_rewrite Hget|done].
    intros k0 l Hk0. apply lookup_lt_is_Some, (Hlive k0). by rewrite <- Hget. }
  assert (Hview0 : forall k0, view params st k0
            = match declared_param dp tp k0 with Some l => heap st !! l | None => None end).
  { intros k0. unfold view. by rewrite Hget. }
  change (id conf) with conf in Hrun.
  unfold bind in Hrun at 1.
  destruct ((if overrides && mapping_bool (ADict conf)
             then ParamsDict.update params (ADict conf) else ret params) st)
    as [[params3|e] st3] eqn:Hov; [|done].
  assert (Hafter :
    well_formed params3 st3 /\ suppress_exception params3 = suppress
    /\ (forall k0, overrides = false \/ dict_get conf k0 = None ->
                   view params3 st3 k0 = view params st k0)
    /\ (forall k0 v, overrides = true -> dict_get conf k0 = Some (Plain v) ->
          view params3 st3 k0
          = Some (match view params st k0 with
                  | Some p => assigned p v
                  | None => mkParam v PNone (PDict [])
                  end)
          /\ (suppress = false -> is_NOTSET v = false ->
              forall p, view params st k0 = Some p ->
                        jsonschema_validate v (schema p) = Valid))).
  { destruct (overrides && mapping_bool (ADict conf)) eqn:Hgate.
    - apply andb_prop in Hgate as [-> _].
      unfold ParamsDict.update, ParamsDict.MutableMapping_update in Hov.
      destruct (update_keys_plain_view _ _ _ _ _ _ Hplain Hwf Hov)
        as (Hwf3 & Hs3 & Hframe & Hset).
      split; [done|]. split; [congruence|]. split.
      + intros k0 [?|Hnone]; [done|]. apply Hframe. by apply dict_get_None_keys.
      + intros k0 v _ Hv. rewrite <- Hs. apply Hset; [|done].
        apply dict_get_keys. by eexists.
    - injection Hov as <- <-. split; [done|]. split; [done|]. split; [done|].
      intros k0 v -> Hv. simpl in Hgate. by destruct conf. }
  destruct Hafter as (Hwf3 & Hs3 & Hframe & Hset).
  unfold ParamsDict.validate in Hrun. rewrite Hs3 in Hrun.
  destruct (validate_items_spec _ _ _ _ _ _ (wf_keys _ _ Hwf3) Hrun) as [_ Hres].
  specialize (Hres k). split.
  - intros Hno. specialize (Hframe k Hno). rewrite Hview0 in Hframe.
    destruct (declared_param dp tp k) as [l|] eqn:Hdecl.
    + destruct (Hlive k l Hdecl) as [p Hl]. rewrite Hl in Hframe.
      apply view_Some in Hframe as (l3 & Hd3 & Hl3). rewrite Hd3 in Hres.
      destruct Hres as (r & Hr & Hread). exists r. split; [done|].
      rewrite <- Hread. by apply (resolve_read_object _ _ _ _ p).
    + apply view_None in Hframe; [|done]. by rewrite Hframe in Hres.
  - intros v Hon Hv Hj.
    assert (Hn : is_NOTSET v = false) by (by destruct v).
    destruct (Hset k v Hon Hv) as [Hview3 Hstrict]. rewrite Hview0 in Hview3, Hstrict.
    destruct (declared_param dp tp k) as [l|] eqn:Hdecl.
    + intros p Hl. rewrite Hl in Hview3, Hstrict.
      apply view_Some in Hview3 as (l3 & Hd3 & Hl3). rewrite Hd3 in Hres.
      destruct Hres as (r & Hr & Hread).
      unfold assigned in Hl3. rewrite Hn in Hl3.
      assert (Hlenient : jsonschema_validate v (schema p) <> Valid ->
                suppress = true
                /\ exists r, dict_get res k = Some r
                      /\ fst (Param.resolve l NOTSET true st) = Return r).
      { intros Hbad. destruct suppress.
        - split; [done|]. exists r. split; [done|]. rewrite <- Hread.
          apply (resolve_read_object _ _ _ _ p); [done|].
          by destruct (jsonschema_validate v (schema p)).
        - exfalso. apply Hbad. by apply Hstrict. }
      destruct (jsonschema_validate v (schema p)) eqn:Hvalid;
        [|by apply Hlenient..].
      rewrite (resolve_validated _ _ _ _ _ Hl3) in Hread; [|by left|done].
      unfold resolved in Hread. simpl in Hread. rewrite Hvalid in Hread.
      simpl in Hread. congruence.
    + apply view_Some in Hview3 as (l3 & Hd3 & Hl3). rewrite Hd3 in Hres.
      destruct Hres as (r & Hr & Hread).
      rewrite (resolve_validated _ _ _ _ _ Hl3) in Hread; [|by left|done].
      unfold resolved in Hread. simpl in Hread.
      destruct (jsonschema_validate v (PDict [])) eqn:Hvalid; simpl in Hread.
      * congruence.
      * destruct suppress; [|done]. split; [done|]. congruence.
      * done.
Qed.
End Pipeline.

(** * The rest of the module *)

(** ** Param: reading, dumping, copying *)

Section ParamMore.
Context `{Externals}.

Lemma resolve_strict_Return self val st r st' :
  Param.resolve self val false st = (Return r, st') ->
  exists p,
    heap st !! self = Some p
    /\ r = (if is_NOTSET val then value p else val)
    /\ is_NOTSET r = false
    /\ jsonschema_validate r (schema p) = Valid
    /\ st' = mkStore (<[self := mkParam r (description p) (schema p)]> (heap st))
                     (validations st ++ [(r, schema p)]).
Proof.
  destruct (heap st !! self) as [p|] eqn:Hl.
  - destruct (resolve_cases self p val st Hl) as [(_ & _ & Hc)|[(_ & Hc)|(Hf & Hc)]];
      rewrite Hc; try done.
    unfold resolved. destruct (jsonschema_validate _ _) eqn:Hr; try done.
    intros [= <- <-]. by exists p.
  - destruct (is_NOTSET val) eqn:Hn; [|destruct (json_dumps_ok val) eqn:Hj].
    + rewrite resolve_dangling; [done|done|by left].
    + rewrite resolve_dangling; [done|done|by right].
    + by rewrite resolve_not_json.
Qed.

(** After [resolve] returned a value without suppressing exceptions, the
    value is settled: resolving again with no candidate returns it and
    writes no object, [dump] shows it under [value], and [has_value] tells
    whether it is [None]. *)
Theorem resolve_then_read (self : loc) (val r : pyval) (st st' : store) :
  Param.resolve self val false st = (Return r, st') ->
  (exists st'',
     Param.resolve self NOTSET false st' = (Return r, st'')
     /\ heap st'' = heap st')
  /\ (exists d,
        Param.dump self st' = (Return d, st')
        /\ dict_get d "value" = Some r
        /\ dict_get d Param.CLASS_IDENTIFIER = Some (PStr Param.class_name))
  /\ Param.has_value self st'
     = (Return (negb (match r with PNone => true | _ => false end)), st').
Proof.
  intros Hres.
  destruct (resolve_strict_Return _ _ _ _ _ Hres) as (p & Hl & Hr & Hn & Hvalid & ->).
  assert (Hlen : self < length (heap st)) by (by eapply lookup_lt_Some).
  set (q := mkParam r (description p) (schema p)).
  assert (Hq : <[self := q]> (heap st) !! self = Some q).
  { by apply list_lookup_insert_eq. }
  split; [|split].
  - rewrite (resolve_validated _ q); [|done|by left|done].
    unfold resolved. simpl. rewrite Hvalid. eexists. split; [done|]. simpl.
    apply list_insert_id. exact Hq.
  - unfold Param.dump. erewrite bind_Return by (by apply deref_Some).
    simpl. rewrite Hn. eexists. split; [done|]. by split.
  - unfold Param.has_value. erewrite bind_Return by (by apply deref_Some).
    simpl. by rewrite Hn.
Qed.

(** [dump] changes nothing and shows the three attributes after the class
    tag, with [None] in place of [NOTSET]; [has_value] is true exactly when
    the dumped value is not [None]. *)
Theorem dump_has_value (self : loc) (p : ParamObj) (st : store) :
  heap st !! self = Some p ->
  exists d b,
    Param.dump self st = (Return d, st)
    /\ Param.has_value self st = (Return b, st)
    /\ dict_keys d = ["__class"; "value"; "description"; "schema"]
    /\ dict_get d "value" = Some (if is_NOTSET (value p) then PNone else value p)
    /\ dict_get d "description" = Some (description p)
    /\ dict_get d "schema" = Some (schema p)
    /\ (b = true <-> dict_get d "value" <> Some PNone).
Proof.
  intros Hl. unfold Param.dump, Param.has_value.
  erewrite !bind_Return by (by apply deref_Some).
  eexists _, _. split; [done|]. split; [done|].
  destruct (value p) eqn:Hv; simpl; repeat split; try done;
    try (by intros _); try (by intros []).
Qed.

(** [copy.copy] of a [Param] whose value is [NOTSET] or JSON data makes a
    new object with the same three attributes, calls no validator, and the
    two are independent: whatever is then resolved on the copy, the
    original is as it was. *)
Theorem param_copy_independent (self : loc) (p : ParamObj) (st : store) :
  heap st !! self = Some p ->
  is_NOTSET (value p) = true \/ json_dumps_ok (value p) = true ->
  exists c st',
    Param.__copy__ self st = (Return c, st')
    /\ c <> self
    /\ heap st' !! c = Some p
    /\ heap st' !! self = Some p
    /\ validations st' = validations st
    /\ forall val suppress,
        heap (snd (Param.resolve c val suppress st')) !! self = Some p.
Proof.
  intros Hl Hv.
  assert (Hlen : self < length (heap st)) by (by eapply lookup_lt_Some).
  unfold Param.__copy__. erewrite bind_Return by (by apply deref_Some).
  rewrite init_ok by done. simpl. rewrite set_value_same.
  assert (Hc : (heap st ++ [p]) !! length (heap st) = Some p).
  { by apply list_lookup_middle. }
  assert (Hs : (heap st ++ [p]) !! self = Some p).
  { by apply lookup_app_l_Some. }
  eexists _, _. split; [done|]. simpl.
  split; [lia|]. split; [done|]. split; [done|]. split; [done|].
  intros val suppress.
  set (st' := mkStore (heap st ++ [p]) (validations st)).
  pose proof (resolve_heap (length (heap st)) p val suppress st' Hc) as Hr.
  simpl in Hr.
  destruct (Param.resolve (length (heap st)) val suppress st') as [r st''].
  simpl. destruct Hr as [->|(_ & _ & ->)]; [done|].
  simpl. rewrite list_lookup_insert_ne by lia. done.
Qed.

(** A value that is neither [NOTSET] nor JSON data makes the copy raise,
    and nothing is written. *)
Lemma param_copy_not_json self p st :
  heap st !! self = Some p ->
  is_NOTSET (value p) = false -> json_dumps_ok (value p) = false ->
  Param.__copy__ self st
  = (Raise (ParamValidationError (Param.not_serializable_msg (value p))), st).
Proof.
  intros Hl Hn Hj. unfold Param.__copy__.
  erewrite bind_Return by (by apply deref_Some). by apply init_not_json.
Qed.
End ParamMore.

(** ** ParamsDict as a container *)

Lemma dict_set_new {V} (d : list (string * V)) k v :
  dict_get d k = None -> dict_set d k v = d ++ [(k, v)].
Proof.
  induction d as [|[k' v'] d IH]; simpl; [done|].
  destruct (String.eqb k k'); [done|]. intros Hd. by rewrite IH.
Qed.

Lemma dict_get_app {V} (d1 d2 : list (string * V)) k :
  dict_get (d1 ++ d2) k
  = match dict_get d1 k with Some v => Some v | None => dict_get d2 k end.
Proof.
  induction d1 as [|[k' v'] d1 IH]; simpl; [done|].
  by destruct (String.eqb k k').
Qed.

Lemma dict_get_del_ne {V} (d : list (string * V)) k k' :
  k' <> k -> dict_get (dict_del d k) k' = dict_get d k'.
Proof.
  intros Hne. induction d as [|[k0 v0] d IH]; simpl; [done|].
  destruct (String.eqb k k0) eqn:E; simpl.
  - apply String.eqb_eq in E as <-.
    destruct (String.eqb k' k) eqn:E'; [|done].
    apply String.eqb_eq in E'. congruence.
  - by rewrite IH.
Qed.

Lemma dict_get_del_eq {V} (d : list (string * V)) k :
  NoDup (dict_keys d) -> dict_get (dict_del d k) k = None.
Proof.
  induction d as [|[k0 v0] d IH]; simpl; [done|].
  intros [Hk0 Hnd]%NoDup_cons.
  destruct (String.eqb k k0) eqn:E; simpl.
  - apply String.eqb_eq in E as ->. by apply dict_get_None_keys.
  - rewrite E. by apply IH.
Qed.

Lemma dict_del_length {V} (d : list (string * V)) k :
  is_Some (dict_get d k) -> S (length (dict_del d k)) = length d.
Proof.
  induction d as [|[k0 v0] d IH]; simpl; [by intros [? ?]|].
  destruct (String.eqb k k0); simpl; [done|]. intros Hd. by rewrite IH.
Qed.

Lemma dict_del_keys_subset {V} (d : list (string * V)) k x :
  x ∈ dict_keys (dict_del d k) -> x ∈ dict_keys d.
Proof.
  induction d as [|[k0 v0] d IH]; simpl; [done|].
  destruct (String.eqb k k0); simpl.
  - by right.
  - intros [->|Hx]%elem_of_cons; [left|right; by apply IH].
Qed.

Lemma dict_del_NoDup {V} (d : list (string * V)) k :
  NoDup (dict_keys d) -> NoDup (dict_keys (dict_del d k)).
Proof.
  induction d as [|[k0 v0] d IH]; simpl; [done|].
  intros [Hk0 Hnd]%NoDup_cons.
  destruct (String.eqb k k0); simpl; [done|].
  apply NoDup_cons. split; [|by apply IH].
  intros Hin. apply Hk0. by eapply dict_del_keys_subset.
Qed.

Section Container.
Context `{Externals}.

(** An assignment of a value to a name the collection has, made without
    suppressing exceptions and returning: the value passed the schema of
    the [Param] of the name, is stored there, and reading the name through
    any collection that holds this [Param] returns it. *)
Lemma setitem_existing_strict pd k l v st pd' st' :
  dict_get (__dict pd) k = Some l ->
  is_NOTSET v = false -> suppress_exception pd = false ->
  ParamsDict.__setitem__ pd k (Plain v) st = (Return pd', st') ->
  pd' = pd
  /\ (exists p, heap st !! l = Some p
                /\ jsonschema_validate v (schema p) = Valid
                /\ heap st' !! l = Some (mkParam v (description p) (schema p)))
  /\ forall pd2 k2,
      dict_get (__dict pd2) k2 = Some l ->
      fst (ParamsDict.__getitem__ pd2 k2 st') = Return v.
Proof.
  intros Hd Hn Hs. rewrite (setitem_existing _ _ l) by done. rewrite Hs.
  destruct (Param.resolve l v false st) as [[r|e] st1] eqn:Hres; [|by destruct e].
  intros [= <- <-].
  destruct (resolve_strict_Return _ _ _ _ _ Hres) as (p & Hl & Hr & _ & Hvalid & ->).
  rewrite Hn in Hr. subst r.
  assert (Hlen : l < length (heap st)) by (by eapply lookup_lt_Some).
  assert (Hq : <[l := mkParam v (description p) (schema p)]> (heap st) !! l
               = Some (mkParam v (description p) (schema p))).
  { by apply list_lookup_insert_eq. }
  split; [done|]. split; [by exists p|].
  intros pd2 k2 Hd2. unfold ParamsDict.__getitem__. rewrite Hd2.
  destruct (suppress_exception pd2).
  all: erewrite resolve_validated; [|exact Hq|by left|done].
  all: unfold resolved; simpl; by rewrite Hvalid.
Qed.

(** Assign, then read.  In a collection that does not suppress exceptions,
    after [self[k] = v] returned for a value [v] other than [NOTSET], the
    collection has [k], and [self[k]] returns [v]: always for a name the
    collection had, and for a new name when the validator accepts [v]
    against the empty schema. *)
Theorem setitem_then_getitem (pd pd' : ParamsDictObj) (k : string) (v : pyval)
    (st st' : store) :
  is_NOTSET v = false -> suppress_exception pd = false ->
  ParamsDict.__setitem__ pd k (Plain v) st = (Return pd', st') ->
  ParamsDict.__contains__ pd' k = true
  /\ suppress_exception pd' = false
  /\ (ParamsDict.__contains__ pd k = true \/ jsonschema_validate v (PDict []) = Valid ->
      fst (ParamsDict.__getitem__ pd' k st') = Return v)
  /\ (ParamsDict.__contains__ pd k = true -> pd' = pd)
  /\ (ParamsDict.__contains__ pd k = false ->
      ParamsDict.__len__ pd' = S (ParamsDict.__len__ pd)).
Proof.
  intros Hn Hs Hset. unfold ParamsDict.__contains__, ParamsDict.__len__.
  destruct (dict_get (__dict pd) k) as [l|] eqn:Hd.
  - destruct (setitem_existing_strict _ _ _ _ _ _ _ Hd Hn Hs Hset) as (-> & _ & Hread).
    rewrite Hd. repeat split; try done. intros _. by apply (Hread pd k).
  - revert Hset. rewrite setitem_new by done.
    destruct (init_cases v) as [[_ Hj]|Hv]; [by rewrite init_not_json|].
    rewrite init_ok by done. simpl. intros [= <- <-]. simpl.
    rewrite dict_get_set_eq. repeat split; try done.
    + intros [?|Hvalid]; [done|].
      unfold ParamsDict.__getitem__. simpl. rewrite dict_get_set_eq, Hs.
      erewrite resolve_validated;
        [|by apply list_lookup_middle|by left|done].
      unfold resolved. simpl. by rewrite Hvalid.
    + intros _. rewrite dict_set_new by done. rewrite length_app. simpl. lia.
Qed.

(** [del self[k]]: a [KeyError] and no change when the name is missing;
    otherwise exactly this name goes, the other names keep their [Param],
    the length drops by one, and reading the name raises [KeyError]. *)
Theorem delitem_removes_key (pd : ParamsDictObj) (k : string) (st : store) :
  NoDup (dict_keys (__dict pd)) ->
  (ParamsDict.__contains__ pd k = false ->
   ParamsDict.__delitem__ pd k st = (Raise (KeyError k), st))
  /\ (ParamsDict.__contains__ pd k = true ->
      exists pd',
        ParamsDict.__delitem__ pd k st = (Return pd', st)
        /\ ParamsDict.__contains__ pd' k = false
        /\ (forall k', k' <> k -> dict_get (__dict pd') k' = dict_get (__dict pd) k')
        /\ S (ParamsDict.__len__ pd') = ParamsDict.__len__ pd
        /\ NoDup (dict_keys (__dict pd'))
        /\ suppress_exception pd' = suppress_exception pd
        /\ fst (ParamsDict.__getitem__ pd' k st) = Raise (KeyError k)).
Proof.
  intros Hnd.
  unfold ParamsDict.__contains__, ParamsDict.__delitem__, ParamsDict.__len__,
    ParamsDict.__getitem__.
  destruct (dict_get (__dict pd) k) as [l|] eqn:Hd; split; try done.
  intros _. eexists. split; [done|]. simpl.
  rewrite dict_get_del_eq by done. repeat split; try done.
  - intros k' Hne. by apply dict_get_del_ne.
  - apply dict_del_length. by rewrite Hd.
  - by apply dict_del_NoDup.
Qed.

(** Deleting a name and assigning it again forgets the schema: whatever the
    [Param] of the name required, any JSON value is then taken without a
    call to the validator, in a new [Param] without schema or description. *)
Theorem delitem_setitem_drops_schema (pd pd1 : ParamsDictObj) (k : string)
    (v : pyval) (st : store) :
  NoDup (dict_keys (__dict pd)) ->
  ParamsDict.__delitem__ pd k st = (Return pd1, st) ->
  json_dumps_ok v = true ->
  exists pd2 st2,
    ParamsDict.__setitem__ pd1 k (Plain v) st = (Return pd2, st2)
    /\ validations st2 = validations st
    /\ heap st2 = heap st ++ [plain_param v]
    /\ view pd2 st2 k = Some (plain_param v)
    /\ forall k', k' <> k -> dict_get (__dict pd2) k' = dict_get (__dict pd) k'.
Proof.
  intros Hnd. unfold ParamsDict.__delitem__.
  destruct (dict_get (__dict pd) k) as [l|] eqn:Hd; [|done].
  intros [= <-] Hj.
  rewrite setitem_new by (simpl; by apply dict_get_del_eq).
  rewrite init_ok by (by right). simpl.
  eexists _, _. split; [done|]. simpl. repeat split; try done.
  - unfold view. simpl. rewrite dict_get_set_eq. by apply list_lookup_middle.
  - intros k' Hne. rewrite dict_get_set_ne by done. by apply dict_get_del_ne.
Qed.
End Container.

(** ** ParamsDict: construction and copy *)

Lemma dict_get_plain_dict d k :
  dict_get (plain_dict d) k = Plain <$> dict_get d k.
Proof.
  unfold plain_dict. induction d as [|[k' v] d IH]; simpl; [done|].
  by destruct (String.eqb k k').
Qed.

Lemma dict_keys_app {V} (d1 d2 : list (string * V)) :
  dict_keys (d1 ++ d2) = dict_keys d1 ++ dict_keys d2.
Proof. unfold dict_keys. apply map_app. Qed.

Section Construction.
Context `{Externals}.

(** The comprehension of [__init__] on [Param] instances keeps them. *)
Lemma wrap_items_instances entries acc st :
  NoDup (dict_keys entries) ->
  (forall k, k ∈ dict_keys entries -> dict_get acc k = None) ->
  ParamsDict.wrap_items (map (fun '(k, p) => (k, Instance p)) entries) acc st
  = (Return (acc ++ entries), st).
Proof.
  revert acc. induction entries as [|[k1 p1] entries IH]; intros acc Hnd Hacc; simpl.
  - by rewrite app_nil_r.
  - apply NoDup_cons in Hnd as [Hk1 Hnd].
    erewrite bind_Return by done.
    rewrite dict_set_new by (apply Hacc; left).
    rewrite IH; [by rewrite <- app_assoc|done|].
    intros k Hk. rewrite dict_get_app, Hacc by (by right). simpl.
    destruct (String.eqb_spec k k1) as [->|]; [|done]. done.
Qed.

(** [copy.copy] of a collection is a collection of the same [Param]
    objects: nothing is allocated or validated, and a value assigned to a
    name through the copy is what the original then reads. *)
Theorem paramsdict_copy_shares (pd : ParamsDictObj) (st : store) :
  NoDup (dict_keys (__dict pd)) ->
  exists copy,
    ParamsDict.__copy__ pd st = (Return copy, st)
    /\ __dict copy = __dict pd
    /\ suppress_exception copy = suppress_exception pd
    /\ forall k v copy' st',
        ParamsDict.__contains__ pd k = true ->
        is_NOTSET v = false -> suppress_exception pd = false ->
        ParamsDict.__setitem__ copy k (Plain v) st = (Return copy', st') ->
        fst (ParamsDict.__getitem__ pd k st') = Return v.
Proof.
  intros Hnd. unfold ParamsDict.__copy__, ParamsDict.__init__.
  change (default [] (Some (ParamsDict.dict_of pd))) with (ParamsDict.dict_of pd).
  unfold ParamsDict.dict_of.
  erewrite bind_Return by (by apply wrap_items_instances).
  eexists. split; [done|]. simpl. split; [done|]. split; [done|].
  intros k v copy' st'. unfold ParamsDict.__contains__.
  destruct (dict_get (__dict pd) k) as [l|] eqn:Hd; [|done].
  intros _ Hn Hs Hset.
  eapply setitem_existing_strict in Hset as (_ & _ & Hread); try done.
  by apply Hread.
Qed.

Lemma init_plain v st :
  storable v ->
  Param.__init__ v PNone [] st
  = (Return (length (heap st)),
     mkStore (heap st ++ [plain_param v]) (validations st)).
Proof. intros Hv. by rewrite init_ok. Qed.

(** The comprehension of [__init__] on plain values. *)
Lemma wrap_items_plain kvs acc st :
  Forall (fun kv => storable kv.2) kvs ->
  NoDup (dict_keys kvs) ->
  (forall k, k ∈ dict_keys kvs -> dict_get acc k = None) ->
  exists d news,
    ParamsDict.wrap_items (plain_dict kvs) acc st
    = (Return d, mkStore (heap st ++ news) (validations st))
    /\ dict_keys d = dict_keys acc ++ dict_keys kvs
    /\ (forall k, dict_get kvs k = None -> dict_get d k = dict_get acc k)
    /\ (forall k v, dict_get kvs k = Some v ->
          exists l, dict_get d k = Some l /\ length (heap st) <= l
                    /\ (heap st ++ news) !! l = Some (plain_param v))
    /\ (forall k1 k2 l,
          is_Some (dict_get kvs k1) -> is_Some (dict_get kvs k2) ->
          dict_get d k1 = Some l -> dict_get d k2 = Some l -> k1 = k2).
Proof.
  revert acc st. induction kvs as [|[k1 v1] kvs IH]; intros acc st Hok Hnd Hacc; simpl.
  - exists acc, []. rewrite !app_nil_r. destruct st. repeat split; try done.
  - apply Forall_cons in Hok as [Hok1 Hok]. apply NoDup_cons in Hnd as [Hk1 Hnd].
    simpl in Hok1. erewrite bind_Return by (by apply init_plain).
    rewrite dict_set_new by (apply Hacc; left).
    set (st1 := mkStore (heap st ++ [plain_param v1]) (validations st)).
    destruct (IH (acc ++ [(k1, length (heap st))]) st1 Hok Hnd)
      as (d & news & Hrun & Hkeys & Hold & Hnew & Hdist).
    { intros k Hk. rewrite dict_get_app, Hacc by (by right). simpl.
      destruct (String.eqb_spec k k1) as [->|]; done. }
    assert (Hnone : dict_get kvs k1 = None) by (by apply dict_get_None_keys).
    assert (Hhead : dict_get d k1 = Some (length (heap st))).
    { rewrite (Hold k1 Hnone), dict_get_app, Hacc by left. simpl.
      by rewrite String.eqb_refl. }
    assert (Hrest : forall k l, is_Some (dict_get kvs k) -> dict_get d k = Some l ->
                                S (length (heap st)) <= l).
    { intros k l [v Hk] Hl. destruct (Hnew k v Hk) as (l' & Hl' & Hge & _).
      simpl in Hge. rewrite length_app in Hge. simpl in Hge.
      assert (l' = l) by congruence. lia. }
    exists d, (plain_param v1 :: news).
    split; [|split; [|split; [|split]]].
    + rewrite Hrun. simpl. by rewrite <- app_assoc.
    + rewrite Hkeys, dict_keys_app. simpl. by rewrite <- app_assoc.
    + intros k. destruct (String.eqb_spec k k1) as [->|Hne]; [done|].
      intros Hk. rewrite (Hold k Hk), dict_get_app.
      destruct (dict_get acc k); [done|]. simpl.
      by destruct (String.eqb_spec k k1).
    + intros k v. destruct (String.eqb_spec k k1) as [->|Hne].
      * intros [= <-]. exists (length (heap st)).
        split; [done|]. split; [done|]. by apply list_lookup_middle.
      * intros Hk. destruct (Hnew k v Hk) as (l & Hl & Hge & Hobj).
        exists l. split; [done|]. simpl in Hge. rewrite length_app in Hge.
        simpl in Hge. split; [lia|].
        simpl in Hobj. by rewrite <- app_assoc in Hobj.
    + intros ka kb l.
      destruct (String.eqb_spec ka k1) as [->|Hna];
        destruct (String.eqb_spec kb k1) as [->|Hnb]; try done.
      * intros _ Hb Ha Hlb. rewrite Hhead in Ha. injection Ha as <-.
        pose proof (Hrest kb _ Hb Hlb). lia.
      * intros Ha _ Hla Hb. rewrite Hhead in Hb. injection Hb as <-.
        pose proof (Hrest ka _ Ha Hla). lia.
      * apply Hdist.
Qed.

(** [ParamsDict(d)] for a dict [d] of values that are JSON data (or
    [NOTSET]): it returns, calls no validator and keeps the objects there
    are; the collection has the names of [d] in their order, each with a
    new [Param] of its own that holds the value and has neither schema nor
    description. *)
Theorem paramsdict_init_wraps (d : list (string * pyval)) (suppress : bool)
    (st : store) :
  NoDup (dict_keys d) ->
  Forall (fun kv => storable kv.2) d ->
  exists pd news,
    ParamsDict.__init__ (Some (plain_dict d)) suppress st
    = (Return pd, mkStore (heap st ++ news) (validations st))
    /\ suppress_exception pd = suppress
    /\ ParamsDict.__iter__ pd = dict_keys d
    /\ (forall k, view pd (mkStore (heap st ++ news) (validations st)) k
                  = plain_param <$> dict_get d k)
    /\ well_formed pd (mkStore (heap st ++ news) (validations st)).
Proof.
  intros Hnd Hok.
  destruct (wrap_items_plain d [] st Hok Hnd)
    as (dd & news & Hrun & Hkeys & Hold & Hnew & Hdist); [done|].
  unfold ParamsDict.__init__.
  change (default [] (Some (plain_dict d))) with (plain_dict d).
  erewrite bind_Return by exact Hrun.
  exists (mkParamsDict dd suppress), news. split; [done|]. split; [done|].
  split; [done|].
  assert (Hin : forall k l, dict_get dd k = Some l -> is_Some (dict_get d k)).
  { intros k l Hl. destruct (dict_get d k) eqn:Hk; [done|].
    by rewrite (Hold k Hk) in Hl. }
  split; [|split; simpl].
  - intros k. unfold view. simpl.
    destruct (dict_get d k) as [v|] eqn:Hk.
    + destruct (Hnew k v Hk) as (l & -> & _ & Hobj). done.
    + by rewrite (Hold k Hk).
  - intros k l Hl. destruct (Hin k l Hl) as [v Hk].
    destruct (Hnew k v Hk) as (l' & Hl' & _ & Hobj).
    assert (l' = l) as -> by congruence. by eapply lookup_lt_Some.
  - intros k1 k2 l Hl1 Hl2. eapply Hdist; eauto.
  - by rewrite Hkeys.
Qed.

(** A value that is not JSON data stops the construction with the
    serialization error, before any validator call. *)
Lemma wrap_items_plain_fail kvs acc st :
  Exists (fun kv => ~ storable kv.2) kvs ->
  exists v st',
    Exists (fun kv => kv.2 = v) kvs /\ ~ storable v
    /\ ParamsDict.wrap_items (plain_dict kvs) acc st
       = (Raise (ParamValidationError (Param.not_serializable_msg v)), st')
    /\ validations st' = validations st.
Proof.
  revert acc st. induction kvs as [|[k1 v1] kvs IH]; intros acc st Hbad.
  - by apply Exists_nil in Hbad.
  - simpl. destruct (init_cases v1) as [[Hn Hj]|Hv].
    + exists v1, st. split; [by left|]. split.
      { intros [?|?]; congruence. }
      split; [|done]. erewrite bind_Raise; [done|]. by apply init_not_json.
    + apply Exists_cons in Hbad as [Hbad|Hbad]; [done|].
      erewrite bind_Return by (by apply init_plain).
      destruct (IH (dict_set acc k1 (length (heap st)))
                  (mkStore (heap st ++ [plain_param v1]) (validations st)) Hbad)
        as (v & st' & Hin & Hv' & Hrun & Hval).
      exists v, st'. split; [by right|]. done.
Qed.
End Construction.

(** ** ParamsDict: dump and validate *)

Section DumpValidate.
Context `{Externals}.

Lemma resolve_read_suppressed_no_PVE l st msg :
  fst (Param.resolve l NOTSET true st) <> Raise (ParamValidationError msg).
Proof.
  destruct (heap st !! l) as [p|] eqn:Hl.
  - destruct (resolve_cases l p NOTSET st Hl) as [(? & _)|[(_ & Hc)|(_ & Hc)]];
      [done| |]; rewrite Hc; [done|].
    unfold resolved. by destruct (jsonschema_validate _ _).
  - rewrite resolve_dangling; [done|done|by left].
Qed.

Lemma resolve_read_suppressed l p st :
  heap st !! l = Some p ->
  (forall m, jsonschema_validate (value p) (schema p) <> SchemaError m) ->
  fst (Param.resolve l NOTSET true st) = Return (lenient_value p).
Proof.
  intros Hl Hschema. unfold lenient_value.
  destruct (is_NOTSET (value p)) eqn:Hv.
  - rewrite (resolve_no_value _ p); [done|done|by destruct (value p)].
  - rewrite (resolve_validated _ p); [|done|by left|done].
    unfold resolved. simpl.
    destruct (jsonschema_validate _ _) eqn:Hr; try done. by destruct (Hschema message).
Qed.

Lemma resolve_read_strict l p st r :
  heap st !! l = Some p ->
  fst (Param.resolve l NOTSET false st) = Return r ->
  r = value p /\ is_NOTSET (value p) = false
  /\ jsonschema_validate (value p) (schema p) = Valid.
Proof.
  intros Hl.
  destruct (resolve_cases l p NOTSET st Hl) as [(? & _)|[(_ & Hc)|(Hf & Hc)]];
    [done| |]; rewrite Hc; [done|].
  unfold resolved. simpl in *.
  destruct (jsonschema_validate _ _) eqn:Hr; try done. by intros [= <-].
Qed.

Lemma validate_suppressed_dump items acc st :
  ParamsDict.validate_items true items acc st = ParamsDict.dump_items items acc st.
Proof.
  revert acc st. induction items as [|[k l] items IH]; intros acc st; simpl; [done|].
  unfold bind, except_ParamValidationError.
  pose proof (resolve_read_suppressed_no_PVE l st) as Hno.
  destruct (Param.resolve l NOTSET true st) as [[x|e] st1]; [apply IH|].
  destruct e; try done. by destruct (Hno msg).
Qed.

Lemma validate_items_heap suppress items acc st :
  heap (snd (ParamsDict.validate_items suppress items acc st)) = heap st.
Proof.
  revert acc st. induction items as [|[k l] items IH]; intros acc st; simpl; [done|].
  unfold bind, except_ParamValidationError.
  pose proof (resolve_read_heap l suppress st) as Hh.
  destruct (Param.resolve l NOTSET suppress st) as [[x|e] st1]; simpl in Hh.
  - by rewrite IH.
  - by destruct e.
Qed.

Lemma validate_items_keys suppress items acc st res st' :
  NoDup (dict_keys items) ->
  (forall k, k ∈ dict_keys items -> dict_get acc k = None) ->
  ParamsDict.validate_items suppress items acc st = (Return res, st') ->
  dict_keys res = dict_keys acc ++ dict_keys items.
Proof.
  revert acc st. induction items as [|[k l] items IH]; intros acc st Hnd Hacc; simpl.
  - intros [= <- <-]. by rewrite app_nil_r.
  - apply NoDup_cons in Hnd as [Hk Hnd].
    unfold bind, except_ParamValidationError.
    destruct (Param.resolve l NOTSET suppress st) as [[x|e] st1]; [|by destruct e].
    rewrite dict_set_new by (apply Hacc; left).
    intros Hrun. apply IH in Hrun; [|done|].
    + rewrite Hrun, dict_keys_app. simpl. by rewrite <- app_assoc.
    + intros k' Hk'. rewrite dict_get_app, Hacc by (by right). simpl.
      destruct (String.eqb_spec k' k) as [->|]; done.
Qed.

Lemma validate_items_returns suppress items acc st :
  Forall (fun kl => exists r, fst (Param.resolve kl.2 NOTSET suppress st) = Return r)
         items ->
  exists res st', ParamsDict.validate_items suppress items acc st = (Return res, st').
Proof.
  revert acc st. induction items as [|[k l] items IH]; intros acc st Hall; simpl.
  - by eexists _, _.
  - apply Forall_cons in Hall as [[r Hr] Hall]. simpl in Hr.
    unfold bind, except_ParamValidationError.
    pose proof (resolve_read_heap l suppress st) as Hh.
    destruct (Param.resolve l NOTSET suppress st) as [[x|e] st1] eqn:Hres;
      simpl in Hr, Hh; [|done].
    apply IH. eapply Forall_impl; [exact Hall|].
    intros [k' l'] [r' Hr']. exists r'. rewrite <- Hr'. by apply resolve_fst_heap.
Qed.

Lemma dump_no_PVE items acc st msg :
  fst (ParamsDict.dump_items items acc st) <> Raise (ParamValidationError msg).
Proof.
  revert acc st. induction items as [|[k l] items IH]; intros acc st; simpl; [done|].
  unfold bind.
  pose proof (resolve_read_suppressed_no_PVE l st) as Hno.
  destruct (Param.resolve l NOTSET true st) as [[x|e] st1]; [apply IH|].
  simpl. intros [= ->]. by destruct (Hno msg).
Qed.

Lemma dict_get_elem {V} (d : list (string * V)) k v :
  NoDup (dict_keys d) -> (k, v) ∈ d -> dict_get d k = Some v.
Proof.
  induction d as [|[k0 v0] d IH]; simpl.
  - by intros _ ?%elem_of_nil.
  - intros [Hk0 Hnd]%NoDup_cons [[= <- <-]|Hin]%elem_of_cons.
    + by rewrite String.eqb_refl.
    + destruct (String.eqb_spec k k0) as [->|]; [|by apply IH].
      destruct Hk0. by apply (list_elem_of_fmap_2 fst) in Hin.
Qed.

Lemma dump_returns (pd : ParamsDictObj) (st : store) :
  NoDup (dict_keys (__dict pd)) ->
  (forall k l, dict_get (__dict pd) k = Some l ->
     exists p, heap st !! l = Some p
               /\ forall m, jsonschema_validate (value p) (schema p) <> SchemaError m) ->
  exists res st',
    ParamsDict.dump pd st = (Return res, st')
    /\ heap st' = heap st
    /\ dict_keys res = dict_keys (__dict pd)
    /\ forall k, dict_get res k = lenient_value <$> view pd st k.
Proof.
  intros Hnd Hlive. unfold ParamsDict.dump. rewrite <- validate_suppressed_dump.
  destruct (validate_items_returns true (__dict pd) [] st) as (res & st' & Hrun).
  { apply Forall_forall. intros [k l] Hin. simpl.
    assert (Hd : dict_get (__dict pd) k = Some l) by (by apply dict_get_elem).
    destruct (Hlive k l Hd) as (p & Hl & Hschema).
    exists (lenient_value p). by apply resolve_read_suppressed. }
  exists res, st'. split; [done|]. split; [|split].
  - pose proof (validate_items_heap true (__dict pd) [] st) as Hh.
    by rewrite Hrun in Hh.
  - by apply validate_items_keys in Hrun.
  - intros k. destruct (validate_items_spec _ _ _ _ _ _ Hnd Hrun) as [_ Hget].
    specialize (Hget k). unfold view.
    destruct (dict_get (__dict pd) k) as [l|] eqn:Hd; [|done].
    destruct (Hlive k l Hd) as (p & Hl & Hschema).
    destruct Hget as (r & -> & Hr). rewrite Hl. simpl.
    rewrite (resolve_read_suppressed _ p) in Hr by done. congruence.
Qed.

(** [dump] is a best-effort view: it writes no object and never raises a
    validation error; when every entry is a live [Param] on which the
    validator itself does not fail, it returns a dict with the names of the
    collection in their order, each with the stored value when that passes
    the schema and [None] otherwise. *)
Theorem dump_best_effort (pd : ParamsDictObj) (st : store) :
  heap (snd (ParamsDict.dump pd st)) = heap st
  /\ (forall msg, fst (ParamsDict.dump pd st) <> Raise (ParamValidationError msg))
  /\ (NoDup (dict_keys (__dict pd)) ->
      (forall k l, dict_get (__dict pd) k = Some l ->
         exists p, heap st !! l = Some p
                   /\ forall m, jsonschema_validate (value p) (schema p) <> SchemaError m) ->
      exists res st',
        ParamsDict.dump pd st = (Return res, st')
        /\ dict_keys res = ParamsDict.__iter__ pd
        /\ forall k, dict_get res k = lenient_value <$> view pd st k).
Proof.
  split; [|split].
  - unfold ParamsDict.dump. rewrite <- validate_suppressed_dump.
    apply validate_items_heap.
  - intros msg. apply dump_no_PVE.
  - intros Hnd Hlive.
    destruct (dump_returns pd st Hnd Hlive) as (res & st' & Hrun & _ & Hkeys & Hget).
    by exists res, st'.
Qed.

(** [validate] writes no object; on a collection that suppresses
    exceptions it is [dump]; on one that does not, a dict it returns has
    the names of the collection in their order, each with the stored value
    of its [Param], and every one of these values passes its schema. *)
Theorem validate_returns_stored (pd : ParamsDictObj) (st : store) :
  heap (snd (ParamsDict.validate pd st)) = heap st
  /\ (suppress_exception pd = true -> ParamsDict.validate pd st = ParamsDict.dump pd st)
  /\ (forall res st',
        suppress_exception pd = false -> NoDup (dict_keys (__dict pd)) ->
        ParamsDict.validate pd st = (Return res, st') ->
        dict_keys res = ParamsDict.__iter__ pd
        /\ (forall k, dict_get res k = value <$> view pd st k)
        /\ (forall k p, view pd st k = Some p ->
              is_NOTSET (value p) = false
              /\ jsonschema_validate (value p) (schema p) = Valid)).
Proof.
  unfold ParamsDict.validate. split; [apply validate_items_heap|]. split.
  - intros ->. apply validate_suppressed_dump.
  - intros res st' -> Hnd Hrun.
    destruct (validate_items_spec _ _ _ _ _ _ Hnd Hrun) as [_ Hget].
    assert (Hlive : forall k l, dict_get (__dict pd) k = Some l ->
              exists p r, heap st !! l = Some p /\ dict_get res k = Some r
                          /\ fst (Param.resolve l NOTSET false st) = Return r).
    { intros k l Hd. specialize (Hget k). rewrite Hd in Hget.
      destruct Hget as (r & Hr & Hread).
      destruct (heap st !! l) as [p|] eqn:Hl; [by exists p, r|].
      rewrite resolve_dangling in Hread; [done|done|by left]. }
    split; [|split].
    + by apply validate_items_keys in Hrun.
    + intros k. unfold view. destruct (dict_get (__dict pd) k) as [l|] eqn:Hd.
      * destruct (Hlive k l Hd) as (p & r & Hl & -> & Hread). rewrite Hl. simpl.
        by destruct (resolve_read_strict _ _ _ _ Hl Hread) as (-> & _).
      * specialize (Hget k). by rewrite Hd in Hget.
    + intros k p Hview. apply view_Some in Hview as (l & Hd & Hl).
      destruct (Hlive k l Hd) as (p' & r & Hl' & _ & Hread).
      assert (p' = p) as -> by congruence.
      by destruct (resolve_read_strict _ _ _ _ Hl Hread) as (_ & ? & ?).
Qed.

Lemma validate_items_first_failure items acc st msg st' :
  ParamsDict.validate_items false items acc st = (Raise (ParamValidationError msg), st') ->
  exists before k l after ve,
    items = before ++ (k, l) :: after
    /\ msg = ParamsDict.invalid_input_msg k ve
    /\ fst (Param.resolve l NOTSET false st) = Raise (ParamValidationError ve)
    /\ Forall (fun kl => exists r, fst (Param.resolve kl.2 NOTSET false st) = Return r)
              before.
Proof.
  revert acc st. induction items as [|[k l] items IH]; intros acc st; simpl; [done|].
  unfold bind, except_ParamValidationError.
  pose proof (resolve_read_heap l false st) as Hh.
  destruct (Param.resolve l NOTSET false st) as [[x|e] st1] eqn:Hres; simpl in Hh.
  - intros Hrun. destruct (IH _ _ Hrun) as (before & k' & l' & after & ve & -> & -> & Hfail & Hok).
    exists ((k, l) :: before), k', l', after, ve. split; [done|]. split; [done|].
    split.
    + rewrite <- Hfail. by apply resolve_fst_heap.
    + apply Forall_cons. split.
      * exists x. simpl. by rewrite Hres.
      * eapply Forall_impl; [exact Hok|]. intros [k0 l0] [r Hr]. exists r.
        rewrite <- Hr. by apply resolve_fst_heap.
  - destruct e; try done. intros [= <- <-].
    exists [], k, l, items, msg0. split; [done|]. split; [done|].
    split; [by rewrite Hres|done].
Qed.

(** When [validate] raises a validation error, exceptions are not being
    suppressed, and the message names the first entry, in the order of the
    collection, whose [Param] does not resolve: every entry before it
    resolves, and the message ends with the error of that [Param]. *)
Theorem validate_names_first_failure (pd : ParamsDictObj) (st st' : store)
    (msg : string) :
  ParamsDict.validate pd st = (Raise (ParamValidationError msg), st') ->
  suppress_exception pd = false
  /\ exists before k l after ve,
      __dict pd = before ++ (k, l) :: after
      /\ msg = ParamsDict.invalid_input_msg k ve
      /\ fst (Param.resolve l NOTSET false st) = Raise (ParamValidationError ve)
      /\ Forall (fun kl => exists r, fst (Param.resolve kl.2 NOTSET false st) = Return r)
                before.
Proof.
  unfold ParamsDict.validate. destruct (suppress_exception pd) eqn:Hs.
  - rewrite validate_suppressed_dump. intros Hrun.
    destruct (dump_no_PVE (__dict pd) [] st msg). by rewrite Hrun.
  - intros Hrun. split; [done|]. by eapply validate_items_first_failure.
Qed.
End DumpValidate.

(** ** ParamsDict: serialize, then deserialize *)

Section RoundTrip.
Context `{Externals}.

(** Only the values survive [ParamsDict.deserialize] of
    [ParamsDict.serialize]: for a collection of live [Param] objects that
    hold JSON data (or nothing) and on whose stored values the validator
    raises nothing but validation errors (no schema error), the result has
    the same names in the same order, each with a new [Param] that holds what [dump] shows for the
    name and has neither schema nor description, and the result does not
    suppress exceptions, whatever the original did. *)
Theorem paramsdict_roundtrip_values (pd : ParamsDictObj) (st : store) :
  NoDup (dict_keys (__dict pd)) ->
  (forall k l, dict_get (__dict pd) k = Some l ->
     exists p, heap st !! l = Some p /\ storable (value p)
               /\ forall m, jsonschema_validate (value p) (schema p) <> SchemaError m) ->
  exists data st1 pd' st2,
    ParamsDict.serialize pd st = (Return data, st1)
    /\ ParamsDict.deserialize (plain_dict data) ParamsDict.__version__ st1
       = (Return pd', st2)
    /\ ParamsDict.__iter__ pd' = ParamsDict.__iter__ pd
    /\ suppress_exception pd' = false
    /\ (forall k, view pd' st2 k
                  = (fun p => plain_param (lenient_value p)) <$> view pd st k)
    /\ (forall l p, heap st !! l = Some p -> heap st2 !! l = Some p).
Proof.
  intros Hnd Hlive.
  destruct (dump_returns pd st Hnd) as (data & st1 & Hdump & Hheap & Hkeys & Hget).
  { intros k l Hd. destruct (Hlive k l Hd) as (p & ? & _ & ?). by exists p. }
  assert (Hnd' : NoDup (dict_keys data)) by (by rewrite Hkeys).
  assert (Hok : Forall (fun kv => storable kv.2) data).
  { apply Forall_forall. intros [k v] Hin. simpl.
    apply dict_get_elem in Hin; [|done]. rewrite Hget in Hin.
    unfold view in Hin. destruct (dict_get (__dict pd) k) as [l|] eqn:Hd; [|done].
    destruct (Hlive k l Hd) as (p & Hl & Hv & _). rewrite Hl in Hin.
    injection Hin as <-. unfold lenient_value.
    destruct (is_NOTSET (value p)) eqn:Hn; [by right|].
    destruct (jsonschema_validate _ _); [|by right..].
    destruct Hv as [Hv|Hv]; [congruence|by right]. }
  destruct (wrap_items_plain data [] st1 Hok Hnd')
    as (dd & news & Hrun & Hkeys' & Hold & Hnew & _); [done|].
  exists data, st1, (mkParamsDict dd false),
    (mkStore (heap st1 ++ news) (validations st1)).
  split; [done|]. split.
  { unfold ParamsDict.deserialize, ParamsDict.__init__. simpl.
    change (default [] (Some (plain_dict data))) with (plain_dict data).
    by erewrite bind_Return by exact Hrun. }
  split; [unfold ParamsDict.__iter__; simpl; by rewrite Hkeys', Hkeys|].
  split; [done|]. split.
  - intros k. unfold view at 1. simpl. specialize (Hget k).
    destruct (dict_get data k) as [v|] eqn:Hk.
    + destruct (Hnew k v Hk) as (l & -> & _ & ->).
      destruct (view pd st k); simpl in *; congruence.
    + rewrite (Hold k Hk). simpl.
      destruct (view pd st k); simpl in *; congruence.
  - intros l p Hl. simpl. rewrite Hheap. by apply lookup_app_l_Some.
Qed.
End RoundTrip.

(** ** process_params: what a run leaves behind *)

Section Persistence.
Context `{Externals}.

Lemma update_keys_adopt_eq self o keys st :
  (forall k, k ∈ keys -> is_Some (dict_get (__dict o) k)) ->
  ParamsDict.update_keys self (ParamsDict.dict_of o) keys st
  = (Return (mkParamsDict (adopt_keys (__dict self) (__dict o) keys)
                          (suppress_exception self)), st).
Proof.
  revert self. induction keys as [|k1 keys IH]; intros self Hin; simpl.
  - by destruct self.
  - destruct (Hin k1) as [p1 Hp1]; [left|].
    rewrite dict_get_dict_of, Hp1. simpl.
    erewrite bind_Return by apply setitem_instance.
    rewrite IH; [done|]. intros k Hk. apply Hin. by right.
Qed.

Lemma declared_merge_eq dag_params task_params suppress st A (K : ParamsDictObj -> M A) :
  (params <- ParamsDict.__init__ None suppress ;;
   params <- ParamsDict.update params (AParamsDict dag_params) ;;
   params <- (if mapping_bool (AParamsDict task_params)
              then ParamsDict.update params (AParamsDict task_params)
              else ret params) ;;
   K params) st
  = K (mkParamsDict (declared_dict dag_params task_params) suppress) st.
Proof.
  erewrite bind_Return by done.
  unfold ParamsDict.update, ParamsDict.MutableMapping_update.
  rewrite !dict_keys_dict_of.
  erewrite bind_Return; last first.
  { apply update_keys_adopt_eq. intros k. apply dict_get_keys. }
  unfold mapping_bool, declared_dict. simpl.
  destruct (__dict task_params) as [|e d] eqn:Hd.
  - by erewrite bind_Return.
  - erewrite bind_Return; last first.
    { apply update_keys_adopt_eq. intros k. rewrite Hd. apply dict_get_keys. }
    by rewrite Hd.
Qed.

Lemma declared_dict_spec dag_params task_params :
  (forall k, dict_get (declared_dict dag_params task_params) k
             = declared_param dag_params task_params k)
  /\ NoDup (dict_keys (declared_dict dag_params task_params)).
Proof.
  destruct (declared_merge dag_params task_params false (mkStore [] []))
    as (params & Hmerge & _ & Hget & Hnd).
  specialize (Hmerge _ ret). rewrite declared_merge_eq in Hmerge.
  injection Hmerge as <-. done.
Qed.

Lemma setitem_NoDup self k x st self' st' :
  ParamsDict.__setitem__ self k x st = (Return self', st') ->
  NoDup (dict_keys (__dict self)) -> NoDup (dict_keys (__dict self')).
Proof.
  destruct x as [v|p].
  - destruct (dict_get (__dict self) k) as [l|] eqn:Hd.
    + rewrite (setitem_existing _ _ l) by done.
      destruct (Param.resolve _ _ _ _) as [[r|e] st1]; [|by destruct e].
      by intros [= <- <-].
    + rewrite setitem_new by done.
      destruct (Param.__init__ _ _ _ _) as [[r|e] st1]; [|done].
      intros [= <- <-] Hnd. simpl. by apply dict_set_NoDup.
  - rewrite setitem_instance. intros [= <- <-] Hnd. simpl. by apply dict_set_NoDup.
Qed.

(** An update from a plain dict of plain values keeps the [Param] of every
    name the collection has. *)
Lemma update_keys_plain_entries conf keys self st self' st' :
  (forall k x, dict_get conf k = Some x -> exists v, x = Plain v) ->
  ParamsDict.update_keys self conf keys st = (Return self', st') ->
  suppress_exception self' = suppress_exception self
  /\ (forall k l, dict_get (__dict self) k = Some l -> dict_get (__dict self') k = Some l)
  /\ (NoDup (dict_keys (__dict self)) -> NoDup (dict_keys (__dict self'))).
Proof.
  intros Hplain. revert self st. induction keys as [|k1 keys IH]; intros self st; simpl.
  - by intros [= <- <-].
  - destruct (dict_get conf k1) as [x|] eqn:Hx; [|done].
    destruct (Hplain k1 x Hx) as [v1 ->]. unfold bind.
    destruct (ParamsDict.__setitem__ self k1 (Plain v1) st) as [[self1|e] st1] eqn:Hset;
      [|done].
    intros Hrun. destruct (IH _ _ Hrun) as (Hs & Hkeep & Hnd).
    pose proof (setitem_NoDup _ _ _ _ _ _ Hset) as Hnd1.
    apply setitem_entry in Hset as [Hs1 Hkeep1].
    split; [congruence|]. split; [|by auto].
    intros k l Hd. apply Hkeep, Hkeep1; [done|]. right. by exists v1.
Qed.

(** The run configuration is written into the [Param] objects of the dag
    and of the task themselves.  After a run of the pipeline that
    returned, a second run on the same dag and task, this time without run
    configuration, returns; for every declared name it gives the value
    that the first run gave, run configuration included, and it gives
    nothing for the other names. *)
Theorem process_params_override_persists (dag_params task_params : ParamsDictObj)
    (conf : list (string * object)) (overrides suppress : bool)
    (st st' : store) (res : list (string * pyval)) :
  (forall k x, dict_get conf k = Some x -> exists v, x = Plain v) ->
  process_params (Some (DAG.mk (AParamsDict dag_params)))
    (Operator.mk (Some (AParamsDict task_params)))
    (Some conf) overrides suppress st = (Return res, st') ->
  exists res2 st2,
    process_params (Some (DAG.mk (AParamsDict dag_params)))
      (Operator.mk (Some (AParamsDict task_params)))
      None false suppress st' = (Return res2, st2)
    /\ heap st2 = heap st'
    /\ forall k,
        match declared_param dag_params task_params k with
        | Some _ => is_Some (dict_get res k) /\ dict_get res2 k = dict_get res k
        | None => dict_get res2 k = None
        end.
Proof.
  intros Hplain Hrun.
  destruct (declared_dict_spec dag_params task_params) as [Hget Hnd].
  set (params := mkParamsDict (declared_dict dag_params task_params) suppress).
  unfold process_params in *. cbn [DAG.params Operator.params default] in *.
  rewrite declared_merge_eq in Hrun. rewrite declared_merge_eq. fold params in Hrun |- *.
  change (id conf) with conf in Hrun.
  unfold bind in Hrun at 1.
  destruct ((if overrides && mapping_bool (ADict conf)
             then ParamsDict.update params (ADict conf) else ret params) st)
    as [[params3|e] st3] eqn:Hov; [|done].
  assert (Hkeep : suppress_exception params3 = suppress
            /\ (forall k l, dict_get (__dict params) k = Some l ->
                            dict_get (__dict params3) k = Some l)
            /\ NoDup (dict_keys (__dict params3))).
  { destruct (overrides && mapping_bool (ADict conf)).
    - unfold ParamsDict.update, ParamsDict.MutableMapping_update in Hov.
      destruct (update_keys_plain_entries _ _ _ _ _ _ Hplain Hov) as (? & ? & Hnd3).
      split; [done|]. split; [done|]. by apply Hnd3.
    - by injection Hov as <- <-. }
  destruct Hkeep as (Hs3 & Hkeep & Hnd3).
  unfold ParamsDict.validate in Hrun. rewrite Hs3 in Hrun.
  pose proof (validate_items_heap suppress (__dict params3) [] st3) as Hheap.
  rewrite Hrun in Hheap. simpl in Hheap.
  destruct (validate_items_spec _ _ _ _ _ _ Hnd3 Hrun) as [_ Hres].
  assert (Hfirst : forall k l, dict_get (__dict params) k = Some l ->
            exists r, dict_get res k = Some r
                      /\ fst (Param.resolve l NOTSET suppress st') = Return r).
  { intros k l Hd. specialize (Hres k). rewrite (Hkeep k l Hd) in Hres.
    destruct Hres as (r & Hr & Hread). exists r. split; [done|].
    rewrite <- Hread. by apply resolve_fst_heap. }
  erewrite bind_Return by done.
  destruct (validate_items_returns suppress (__dict params) [] st')
    as (res2 & st2 & Hrun2).
  { apply Forall_forall. intros [k l] Hin. simpl.
    apply dict_get_elem in Hin; [|done].
    destruct (Hfirst k l Hin) as (r & _ & Hread). by exists r. }
  exists res2, st2. unfold ParamsDict.validate. simpl. split; [done|]. split.
  - pose proof (validate_items_heap suppress (__dict params) [] st') as Hh.
    by rewrite Hrun2 in Hh.
  - intros k. rewrite <- Hget.
    destruct (validate_items_spec _ _ _ _ _ _ Hnd Hrun2) as [_ Hres2].
    specialize (Hres2 k). simpl in Hres2.
    destruct (dict_get (declared_dict dag_params task_params) k) as [l|] eqn:Hd;
      [|done].
    destruct Hres2 as (r2 & Hr2 & Hread2).
    destruct (Hfirst k l Hd) as (r & Hr & Hread).
    rewrite Hr, Hr2. split; [done|]. congruence.
Qed.
End Persistence.


Section ConstructionFailure.
Context `{Externals}.

(** [ParamsDict(d)] for a dict [d] with a value that is neither JSON data
    nor [NOTSET] raises the serialization error of such a value, whether or
    not exceptions are to be suppressed; the message does not name the key,
    and the validator has not been called. *)
Theorem paramsdict_init_rejects (d : list (string * pyval)) (suppress : bool)
    (st : store) :
  Exists (fun kv => ~ storable kv.2) d ->
  exists v st',
    Exists (fun kv => kv.2 = v) d
    /\ is_NOTSET v = false /\ json_dumps_ok v = false
    /\ ParamsDict.__init__ (Some (plain_dict d)) suppress st
       = (Raise (ParamValidationError (Param.not_serializable_msg v)), st')
    /\ validations st' = validations st.
Proof.
  intros Hbad.
  destruct (wrap_items_plain_fail d [] st Hbad) as (v & st' & Hin & Hv & Hrun & Hval).
  exists v, st'. split; [done|].
  assert (Hn : is_NOTSET v = false /\ json_dumps_ok v = false).
  { unfold storable in Hv. destruct (is_NOTSET v), (json_dumps_ok v); tauto. }
  destruct Hn as [Hn Hj]. split; [done|]. split; [done|]. split; [|done].
  unfold ParamsDict.__init__.
  change (default [] (Some (plain_dict d))) with (plain_dict d).
  by erewrite bind_Raise by exact Hrun.
Qed.
End ConstructionFailure.

(** ** process_params: the sources, one after the other *)

Section Layers.
Context `{Externals}.

Lemma setitem_existing_Return pd k1 l1 p v st pd' st' :
  dict_get (__dict pd) k1 = Some l1 -> heap st !! l1 = Some p ->
  ParamsDict.__setitem__ pd k1 (Plain v) st = (Return pd', st') ->
  pd' = pd
  /\ heap st' = <[l1 := assigned p v]> (heap st)
  /\ (is_NOTSET v = false -> let_through (suppress_exception pd) p v).
Proof.
  intros Hd Hl. rewrite (setitem_existing _ _ l1) by done.
  assert (Hid : <[l1 := p]> (heap st) = heap st) by (by apply list_insert_id).
  unfold assigned, let_through.
  destruct (resolve_cases l1 p v st Hl) as [(_ & _ & Hc)|[(Hf & Hc)|(Hf & Hc)]];
    rewrite Hc.
  - done.
  - assert (Hn : is_NOTSET v = true).
    { destruct (is_NOTSET v) eqn:Hn; [done|]. rewrite Hf in Hn. done. }
    destruct (suppress_exception pd); [|done].
    intros [= <- <-]. rewrite Hn. rewrite Hid. done.
  - unfold resolved. destruct (jsonschema_validate _ _) eqn:Hr; [| |done].
    + intros [= <- <-]. simpl. split; [done|]. split.
      * destruct (is_NOTSET v); [by rewrite set_value_same|by rewrite Hr].
      * intros Hn. rewrite Hn in Hr. by rewrite Hr.
    + destruct (suppress_exception pd); [|done].
      intros [= <- <-]. simpl. split; [done|]. split.
      * destruct (is_NOTSET v); [done|by rewrite Hr].
      * intros Hn. rewrite Hn in Hr. by rewrite Hr.
Qed.

Section Name.
Variable Hd : string -> nat -> Prop.
Variable n0 : nat.
Variable k : string.
Hypothesis Hd_live : forall k' l, Hd k' l -> l < n0.
Hypothesis Hd_own : forall k' l, Hd k l -> Hd k' l -> k' = k.

(** One assignment, to the name [k] or to another. *)
Lemma setitem_owned pd k1 x st pd' st' :
  owned Hd n0 k pd st ->
  (forall l, x = Instance l -> Hd k1 l) ->
  ParamsDict.__setitem__ pd k1 x st = (Return pd', st') ->
  owned Hd n0 k pd' st'
  /\ suppress_exception pd' = suppress_exception pd
  /\ (k1 <> k ->
      view pd' st' k = view pd st k
      /\ forall l, Hd k l -> heap st' !! l = heap st !! l)
  /\ (k1 = k -> assigns x k pd st pd' st').
Proof.
  intros Hown Hx. destruct x as [v|l1].
  - destruct (dict_get (__dict pd) k1) as [l1|] eqn:Hd1.
    + pose proof (own_live _ _ _ _ _ Hown k1 l1 Hd1) as Hlen.
      destruct (lookup_lt_is_Some_2 (heap st) l1 Hlen) as [p Hl].
      intros Hset.
      destruct (setitem_existing_Return _ _ _ _ _ _ _ _ Hd1 Hl Hset)
        as (-> & Hheap & Hstrict).
      split; [|split; [done|split]].
      * split.
        -- intros k' l Hk'. rewrite Hheap, length_insert. by eapply own_live.
        -- apply (own_handed _ _ _ _ _ Hown).
        -- apply (own_alone _ _ _ _ _ Hown).
        -- rewrite Hheap, length_insert. by eapply own_grown.
        -- apply (own_keys _ _ _ _ _ Hown).
      * intros Hne. split.
        -- unfold view. destruct (dict_get (__dict pd) k) as [lk|] eqn:Hk; [|done].
           rewrite Hheap. apply list_lookup_insert_ne. intros ->.
           by apply (own_alone _ _ _ _ _ Hown k1 lk).
        -- intros l Hl'. rewrite Hheap. apply list_lookup_insert_ne. intros ->.
           apply Hne. apply (Hd_own k1 l Hl').
           apply (own_handed _ _ _ _ _ Hown k1 l Hd1). by apply (Hd_live k).
      * intros ->. simpl. unfold view. rewrite Hd1, Hl, Hheap.
        rewrite list_lookup_insert_eq by done. split; [done|].
        intros Hn q [= <-]. by apply Hstrict.
    + rewrite setitem_new by done.
      destruct (init_cases v) as [[Hn Hj]|Hv]; [by rewrite init_not_json|].
      rewrite init_plain by done. intros [= <- <-].
      split; [|split; [done|split]].
      * split; simpl.
        -- intros k' l. rewrite length_app. simpl.
           destruct (decide (k1 = k')) as [<-|Hne].
           ++ rewrite dict_get_set_eq. intros [= <-]. lia.
           ++ rewrite dict_get_set_ne by done. intros Hk'.
              pose proof (own_live _ _ _ _ _ Hown k' l Hk'). lia.
        -- intros k' l.
           destruct (decide (k1 = k')) as [<-|Hne].
           ++ rewrite dict_get_set_eq. intros [= <-] Hlt.
              pose proof (own_grown _ _ _ _ _ Hown). lia.
           ++ rewrite dict_get_set_ne by done. apply (own_handed _ _ _ _ _ Hown).
        -- intros k' l Hne'.
           destruct (decide (k1 = k')) as [<-|Hne1];
             destruct (decide (k1 = k)) as [<-|Hne2]; try done.
           ++ rewrite dict_get_set_eq, dict_get_set_ne by done.
              intros [= <-] Hk. pose proof (own_live _ _ _ _ _ Hown k _ Hk). lia.
           ++ rewrite dict_get_set_eq, dict_get_set_ne by done.
              intros Hk' [= <-]. pose proof (own_live _ _ _ _ _ Hown k' _ Hk'). lia.
           ++ rewrite !dict_get_set_ne by done. by apply (own_alone _ _ _ _ _ Hown).
        -- rewrite length_app. pose proof (own_grown _ _ _ _ _ Hown). lia.
        -- apply dict_set_NoDup, (own_keys _ _ _ _ _ Hown).
      * intros Hne. split.
        -- unfold view. simpl. rewrite dict_get_set_ne by done.
           destruct (dict_get (__dict pd) k) as [lk|] eqn:Hk; [|done].
           apply lookup_app_l. by eapply own_live.
        -- intros l Hl'. simpl. apply lookup_app_l.
           pose proof (own_grown _ _ _ _ _ Hown). pose proof (Hd_live k l Hl'). lia.
      * intros ->. simpl.
        assert (Hview : view pd st k = None) by (unfold view; by rewrite Hd1).
        rewrite Hview. split; [|done].
        unfold view. simpl. rewrite dict_get_set_eq. by apply list_lookup_middle.
  - rewrite setitem_instance. intros [= <- <-].
    pose proof (Hx l1 eq_refl) as Hh1.
    split; [|split; [done|split]].
    + split; simpl.
      * intros k' l.
        destruct (decide (k1 = k')) as [<-|Hne].
        -- rewrite dict_get_set_eq. intros [= <-].
           pose proof (own_grown _ _ _ _ _ Hown). pose proof (Hd_live k1 l1 Hh1). lia.
        -- rewrite dict_get_set_ne by done. apply (own_live _ _ _ _ _ Hown).
      * intros k' l.
        destruct (decide (k1 = k')) as [<-|Hne].
        -- rewrite dict_get_set_eq. by intros [= <-].
        -- rewrite dict_get_set_ne by done. apply (own_handed _ _ _ _ _ Hown).
      * intros k' l Hne'.
        destruct (decide (k1 = k')) as [<-|Hne1];
          destruct (decide (k1 = k)) as [<-|Hne2]; try done.
        -- rewrite dict_get_set_eq, dict_get_set_ne by done.
           intros [= <-] Hk. apply Hne2. apply (Hd_own k1 l1); [|done].
           apply (own_handed _ _ _ _ _ Hown k l1 Hk). by apply (Hd_live k1).
        -- rewrite dict_get_set_eq, dict_get_set_ne by done.
           intros Hk' [= <-]. apply Hne'. apply (Hd_own k' l1 Hh1).
           apply (own_handed _ _ _ _ _ Hown k' l1 Hk'). by apply (Hd_live k1).
        -- rewrite !dict_get_set_ne by done. by apply (own_alone _ _ _ _ _ Hown).
      * apply (own_grown _ _ _ _ _ Hown).
      * apply dict_set_NoDup, (own_keys _ _ _ _ _ Hown).
    + intros Hne. split; [|done]. unfold view. simpl. by rewrite dict_get_set_ne.
    + intros ->. simpl. unfold view. simpl. by rewrite dict_get_set_eq.
Qed.

(** A whole update, from the dict [other] seen key by key. *)
Lemma update_keys_owned other keys pd st pd' st' :
  (forall k' l, dict_get other k' = Some (Instance l) -> Hd k' l) ->
  owned Hd n0 k pd st ->
  ParamsDict.update_keys pd other keys st = (Return pd', st') ->
  owned Hd n0 k pd' st'
  /\ suppress_exception pd' = suppress_exception pd
  /\ (k ∉ keys ->
      view pd' st' k = view pd st k
      /\ forall l, Hd k l -> heap st' !! l = heap st !! l)
  /\ (k ∈ keys ->
      exists x, dict_get other k = Some x /\ assigns x k pd st pd' st').
Proof.
  intros Hother. revert pd st.
  induction keys as [|k1 keys IH]; intros pd st Hown; simpl.
  - intros [= <- <-]. split; [done|]. split; [done|]. split; [done|].
    by intros ?%elem_of_nil.
  - destruct (dict_get other k1) as [x|] eqn:Hx; [|done].
    unfold bind.
    destruct (ParamsDict.__setitem__ pd k1 x st) as [[pd1|e] st1] eqn:Hset; [|done].
    destruct (setitem_owned pd k1 x st pd1 st1 Hown)
      as (Hown1 & Hs1 & Hframe1 & Hat1);
      [intros l ->; by apply Hother|exact Hset|].
    intros Hrun.
    destruct (IH pd1 st1 Hown1 Hrun) as (Hown' & Hs' & Hframe' & Hat').
    split; [done|]. split; [congruence|]. split.
    + intros [Hne Hk]%not_elem_of_cons.
      destruct (Hframe' Hk) as [Hv' Ho']. destruct (Hframe1 (not_eq_sym Hne)) as [Hv1 Ho1].
      split; [congruence|]. intros l Hl. rewrite Ho' by done. by apply Ho1.
    + intros Hin. destruct (decide (k1 = k)) as [->|Hne].
      * exists x. split; [done|]. specialize (Hat1 eq_refl).
        destruct (decide (k ∈ keys)) as [Hk|Hk].
        -- destruct (Hat' Hk) as (x' & Hx' & Hlaw).
           assert (x' = x) as -> by congruence.
           destruct x as [v|l]; simpl in *.
           ++ destruct Hat1 as [Hv1 Hstrict1]. destruct Hlaw as [Hv' _].
              split; [|done]. rewrite Hv', Hv1. f_equal.
              destruct (view pd st k); [apply assigned_idem|apply assigned_new].
           ++ rewrite Hlaw. rewrite setitem_instance in Hset.
              by injection Hset as <- <-.
        -- destruct (Hframe' Hk) as [Hv' _].
           destruct x as [v|l]; simpl in *.
           ++ destruct Hat1 as [Hv1 Hstrict1]. split; [congruence|done].
           ++ congruence.
      * apply elem_of_cons in Hin as [?|Hk]; [congruence|].
        destruct (Hat' Hk) as (x' & Hx' & Hlaw). exists x'. split; [done|].
        destruct (Hframe1 Hne) as [Hv1 Ho1].
        destruct x' as [v|l]; simpl in *.
        -- destruct Hlaw as [Hv' Hstrict']. rewrite Hv1 in Hv', Hstrict'.
           rewrite Hs1 in Hstrict'. done.
        -- rewrite Hlaw. apply Ho1. by apply Hother.
Qed.

Lemma update_owned m pd st pd' st' :
  (forall k' l, mapping_get m k' = Some (Instance l) -> Hd k' l) ->
  owned Hd n0 k pd st ->
  ParamsDict.update pd m st = (Return pd', st') ->
  owned Hd n0 k pd' st'
  /\ suppress_exception pd' = suppress_exception pd
  /\ layer_law (Some m) k pd st pd' st'.
Proof.
  intros Hm Hown Hrun. unfold layer_law.
  assert (Hlaw : forall other,
            (forall k', dict_get other k' = mapping_get m k') ->
            ParamsDict.update_keys pd other (dict_keys other) st = (Return pd', st') ->
            owned Hd n0 k pd' st'
            /\ suppress_exception pd' = suppress_exception pd
            /\ match mapping_get m k with
               | Some x => assigns x k pd st pd' st'
               | None => view pd' st' k = view pd st k
               end).
  { intros other Hget Hkeys.
    destruct (update_keys_owned other (dict_keys other) pd st pd' st')
      as (Hown' & Hs' & Hframe & Hat); try done.
    { intros k' l. rewrite Hget. apply Hm. }
    split; [done|]. split; [done|]. rewrite <- Hget.
    destruct (dict_get other k) as [x|] eqn:Hk.
    - destruct Hat as (x' & Hx' & Hlaw).
      { apply dict_get_keys. by rewrite Hk. }
      congruence.
    - apply Hframe. by apply dict_get_None_keys. }
  destruct m as [o|d]; simpl in *.
  - apply (Hlaw (ParamsDict.dict_of o)); [|done].
    intros k'. apply dict_get_dict_of.
  - by apply (Hlaw d).
Qed.

Lemma update_opt_owned layer pd st pd' st' :
  (forall k' l, hands_over layer k' l -> Hd k' l) ->
  owned Hd n0 k pd st ->
  update_opt pd layer st = (Return pd', st') ->
  owned Hd n0 k pd' st'
  /\ suppress_exception pd' = suppress_exception pd
  /\ layer_law layer k pd st pd' st'.
Proof.
  intros Hlayer Hown. destruct layer as [m|]; simpl.
  - apply update_owned; [|done]. intros k' l Hl. apply Hlayer. by exists m.
  - by intros [= <- <-].
Qed.
End Name.

(** [process_params] is its three updates, each made or skipped, and the
    validation of the result. *)
Lemma process_params_stages dag task conf overrides suppress st :
  process_params dag task conf overrides suppress st
  = (p1 <- update_opt (mkParamsDict [] suppress) (dag_layer dag) ;;
     p2 <- update_opt p1 (task_layer task) ;;
     p3 <- update_opt p2 (run_layer conf overrides) ;;
     ParamsDict.validate p3) st.
Proof.
  unfold process_params, run_layer, task_layer, dag_layer.
  erewrite bind_Return by done.
  destruct (overrides && mapping_bool (ADict (default [] conf)));
    destruct dag as [d|], (Operator.params task) as [m|];
    try destruct (mapping_bool m); reflexivity.
Qed.

Lemma resolve_read_resolves_to l p suppress st r :
  heap st !! l = Some p ->
  fst (Param.resolve l NOTSET suppress st) = Return r ->
  resolves_to p suppress r.
Proof.
  intros Hl. unfold resolves_to.
  destruct (resolve_cases l p NOTSET st Hl) as [(? & _)|[(Hf & Hc)|(Hf & Hc)]];
    [done| |]; rewrite Hc; simpl in *.
  - destruct suppress; [|done]. intros [= <-]. right.
    split; [done|]. split; [done|]. left. by rewrite Hf.
  - unfold resolved. destruct (jsonschema_validate _ _) eqn:Hr; simpl; [| |done].
    + intros [= <-]. by left.
    + destruct suppress; [|done]. intros [= <-]. right.
      split; [done|]. split; [done|]. right. by exists message.
Qed.
End Layers.

Section LayeredPipeline.
Context `{Externals}.

Lemma layer_law_skip layer k pd st pd' st' :
  layer_get layer k = None -> layer_law layer k pd st pd' st' ->
  view pd' st' k = view pd st k.
Proof.
  unfold layer_law, layer_get. destruct layer as [m|]; [|done]. by intros ->.
Qed.

Lemma layer_law_given layer k x pd st pd' st' :
  layer_get layer k = Some x -> layer_law layer k pd st pd' st' ->
  assigns x k pd st pd' st'.
Proof.
  unfold layer_law, layer_get. destruct layer as [m|]; [|done]. by intros ->.
Qed.

(** A plain value that an update let through is the value of the [Param] of
    its name, unless the validator rejected it under suppression. *)
Lemma assigns_plain_value v k pd st pd' st' :
  is_NOTSET v = false ->
  assigns (Plain v) k pd st pd' st' ->
  (exists p', view pd' st' k = Some p' /\ value p' = v)
  \/ (suppress_exception pd = true
      /\ exists sch m, jsonschema_validate v sch = ValidationError m).
Proof.
  intros Hn [Hv Hlet]. destruct (view pd st k) as [p|] eqn:Hp.
  - specialize (Hlet Hn p eq_refl). unfold let_through in Hlet.
    unfold assigned in Hv. rewrite Hn in Hv.
    destruct (jsonschema_validate v (schema p)) as [|m|m] eqn:Hr.
    + left. eexists. by split.
    + right. split; [done|]. by exists (schema p), m.
    + done.
  - left. eexists. by split.
Qed.

(** C1, as the code has it.  The run configuration is a source only when
    the flag is on and it is not empty: otherwise the pipeline does what it
    does without any.  When the pipeline returns, it has updated an empty
    collection from the [params] of the dag, then from those of the task,
    then from the run configuration in force, and validated the result.
    For a name whose [Param] instances are given under this name only, each
    source that has the name overrides what the sources before it left: a
    [Param] instance becomes the [Param] of the name; a plain value is
    stored in the [Param] of the name when the validator accepts it
    against the schema of that [Param] (in a new [Param] without schema
    for a new name), and when it is rejected the pipeline returns only
    under suppression and the [Param] keeps its value.  The dict returned
    has, for the name, what its [Param] resolves to at the end: its value
    when it is set and passes the schema, and [None] otherwise, under
    suppression.  So a name that no source has is not in the dict, and a
    name for which the last source that has it gives a plain value has
    this value in the dict, unless exceptions are suppressed and the
    validator rejected the value. *)
Theorem process_params_layers (dag : option DAG.t) (task : Operator.t)
    (conf : option (list (string * object))) (overrides suppress : bool)
    (st st' : store) (res : list (string * pyval)) :
  (run_layer conf false = None
   /\ run_layer None overrides = None
   /\ run_layer (Some []) overrides = None
   /\ (forall x c, run_layer (Some (x :: c)) true = Some (ADict (x :: c)))
   /\ process_params dag task conf false suppress st
      = process_params dag task None false suppress st
   /\ process_params dag task (Some []) true suppress st
      = process_params dag task None true suppress st)
  /\ ((forall k l, handed dag task conf overrides k l -> l < length (heap st)) ->
      process_params dag task conf overrides suppress st = (Return res, st') ->
      exists p1 st1 p2 st2 p3 st3,
        update_opt (mkParamsDict [] suppress) (dag_layer dag) st = (Return p1, st1)
        /\ update_opt p1 (task_layer task) st1 = (Return p2, st2)
        /\ update_opt p2 (run_layer conf overrides) st2 = (Return p3, st3)
        /\ ParamsDict.validate p3 st3 = (Return res, st')
        /\ forall k,
            (forall k' l, handed dag task conf overrides k l ->
                          handed dag task conf overrides k' l -> k' = k) ->
            layer_law (dag_layer dag) k (mkParamsDict [] suppress) st p1 st1
            /\ layer_law (task_layer task) k p1 st1 p2 st2
            /\ layer_law (run_layer conf overrides) k p2 st2 p3 st3
            /\ match view p3 st3 k with
               | Some p => exists r, dict_get res k = Some r /\ resolves_to p suppress r
               | None => dict_get res k = None
               end
            /\ (last_given dag task conf overrides k = None -> dict_get res k = None)
            /\ (forall v,
                  last_given dag task conf overrides k = Some (Plain v) ->
                  is_NOTSET v = false ->
                  dict_get res k = Some v
                  \/ (suppress = true
                      /\ exists sch m, jsonschema_validate v sch = ValidationError m))).
Proof.
  split.
  - unfold run_layer. split; [done|]. split; [by destruct overrides|].
    split; [by destruct overrides|]. split; [done|]. split; reflexivity.
  - intros Hlive. rewrite process_params_stages. unfold bind.
    destruct (update_opt _ (dag_layer dag) st) as [[p1|e1] st1] eqn:H1; [|done].
    destruct (update_opt p1 (task_layer task) st1) as [[p2|e2] st2] eqn:H2; [|done].
    destruct (update_opt p2 (run_layer conf overrides) st2) as [[p3|e3] st3] eqn:H3;
      [|done].
    intros Hval. exists p1, st1, p2, st2, p3, st3.
    split; [done|]. split; [done|]. split; [done|]. split; [done|].
    intros k Hown.
    set (Hd := handed dag task conf overrides) in *.
    assert (Hown0 : owned Hd (length (heap st)) k (mkParamsDict [] suppress) st).
    { split; simpl; try done. apply NoDup_nil_2. }
    destruct (update_opt_owned Hd _ k Hlive Hown (dag_layer dag) _ _ _ _
                (fun k' l Hl => or_introl Hl) Hown0 H1) as (Hown1 & Hs1 & Hlaw1).
    destruct (update_opt_owned Hd _ k Hlive Hown (task_layer task) _ _ _ _
                (fun k' l Hl => or_intror (or_introl Hl)) Hown1 H2)
      as (Hown2 & Hs2 & Hlaw2).
    destruct (update_opt_owned Hd _ k Hlive Hown (run_layer conf overrides) _ _ _ _
                (fun k' l Hl => or_intror (or_intror Hl)) Hown2 H3)
      as (Hown3 & Hs3 & Hlaw3).
    split; [done|]. split; [done|]. split; [done|].
    assert (Hres : match view p3 st3 k with
                   | Some p => exists r, dict_get res k = Some r
                                         /\ resolves_to p suppress r
                   | None => dict_get res k = None
                   end).
    { unfold ParamsDict.validate in Hval.
      destruct (validate_items_spec _ _ _ _ _ _ (own_keys _ _ _ _ _ Hown3) Hval)
        as [_ Hget].
      specialize (Hget k). unfold view.
      destruct (dict_get (__dict p3) k) as [l|] eqn:Hk; [|done].
      pose proof (own_live _ _ _ _ _ Hown3 k l Hk) as Hlen.
      destruct (lookup_lt_is_Some_2 _ _ Hlen) as [p Hl]. rewrite Hl.
      destruct Hget as (r & Hr & Hread). exists r. split; [done|].
      apply (resolve_read_resolves_to l p _ st3); [done|].
      rewrite <- Hread. f_equal. f_equal. simpl in *. congruence. }
    split; [done|]. simpl in Hs1.
    assert (Hs : suppress_exception p1 = suppress /\ suppress_exception p2 = suppress)
      by (split; congruence).
    destruct Hs as [Hs1' Hs2']. unfold last_given. split.
    + destruct (layer_get (run_layer conf overrides) k) eqn:G3; [done|].
      destruct (layer_get (task_layer task) k) eqn:G2; [done|].
      intros G1.
      rewrite (layer_law_skip _ _ _ _ _ _ G3 Hlaw3),
        (layer_law_skip _ _ _ _ _ _ G2 Hlaw2),
        (layer_law_skip _ _ _ _ _ _ G1 Hlaw1) in Hres.
      exact Hres.
    + intros v Hlast Hn.
      assert (Hfin : forall p', view p3 st3 k = Some p' -> value p' = v ->
                dict_get res k = Some v
                \/ (suppress = true
                    /\ exists sch m, jsonschema_validate v sch = ValidationError m)).
      { intros p' Hp' Hv. rewrite Hp' in Hres.
        destruct Hres as (r & Hr & [(_ & _ & ->)|(Hsup & _ & [Hu|[m Hm]])]).
        - left. congruence.
        - congruence.
        - right. split; [done|]. exists (schema p'), m. congruence. }
      destruct (layer_get (run_layer conf overrides) k) as [x3|] eqn:G3.
      { injection Hlast as ->.
        destruct (assigns_plain_value _ _ _ _ _ _ Hn (layer_law_given _ _ _ _ _ _ _ G3 Hlaw3))
          as [(p' & Hp' & Hv)|[Hsup Hrej]].
        - by apply (Hfin p').
        - right. split; [congruence|done]. }
      destruct (layer_get (task_layer task) k) as [x2|] eqn:G2.
      { injection Hlast as ->.
        destruct (assigns_plain_value _ _ _ _ _ _ Hn (layer_law_given _ _ _ _ _ _ _ G2 Hlaw2))
          as [(p' & Hp' & Hv)|[Hsup Hrej]].
        - apply (Hfin p'); [|done].
          by rewrite (layer_law_skip _ _ _ _ _ _ G3 Hlaw3).
        - right. split; [congruence|done]. }
      destruct (assigns_plain_value _ _ _ _ _ _ Hn (layer_law_given _ _ _ _ _ _ _ Hlast Hlaw1))
        as [(p' & Hp' & Hv)|[Hsup Hrej]].
      * apply (Hfin p'); [|done].
        by rewrite (layer_law_skip _ _ _ _ _ _ G3 Hlaw3),
          (layer_law_skip _ _ _ _ _ _ G2 Hlaw2).
      * right. split; [done|done].
Qed.
End LayeredPipeline.

(** * The definitions at work *)

#[local] Existing Instance Sample.externals.

(** The example of the specification: the dag gives [x = 1], the task
    [x = 2], the run configuration [x = 3]. *)
Example process_params_three_layers :
  let dag := Some (DAG.mk (ADict [("x", Plain (PInt 1))])) in
  let task := Operator.mk (Some (ADict [("x", Plain (PInt 2))])) in
  let conf := Some [("x", Plain (PInt 3))] in
  fst (process_params dag task conf true false Sample.empty_store)
  = Return [("x", PInt 3)]
  /\ fst (process_params dag task conf false false Sample.empty_store)
     = Return [("x", PInt 2)].
Proof. split; reflexivity. Qed.

(** A [Param] given under two names is one object: the dag declares [x]
    and [y] with the same [Param], the run configuration gives 7 to [y]
    only, and [x] is 7 as well. *)
Example process_params_shared_param :
  let dag := Some (DAG.mk (AParamsDict (mkParamsDict [("x", 0); ("y", 0)] false))) in
  fst (process_params dag Sample.task (Some [("y", Plain (PInt 7))])
         true false Sample.int_store)
  = Return [("x", PInt 7); ("y", PInt 7)]
  /\ last_given dag Sample.task (Some [("y", Plain (PInt 7))]) true "x"
     = Some (Instance 0)
  /\ value <$> heap Sample.int_store !! 0 = Some (PInt 1).
Proof. repeat split. Qed.

(** C1 fails as stated: the flag is on, the run configuration is not empty
    and gives ["abc"] to [x], the dag declares [x] as an integer of value 1,
    exceptions are suppressed; the pipeline returns [x = 1]. *)
Lemma process_params_run_value_rejected :
  fst (process_params Sample.dag Sample.task (Some [("x", Plain (PStr "abc"))])
         true true Sample.int_store)
  = Return [("x", PInt 1)]
  /\ dict_get [("x", PInt 1)] "x" <> Some (PStr "abc").
Proof. split; [reflexivity|discriminate]. Qed.

(** C10 fails as stated: [x] is declared as [Param("abc", type="integer")]
    in a collection that suppresses exceptions, and ["abc"] is assigned to
    it.  Nothing is raised and the stored value stays; it is the rejected
    value itself, and reading [x] afterwards gives [None], not the old
    value. *)
Lemma setitem_suppressed_read_is_None :
  ParamsDict.__setitem__ Sample.x_params_suppressing "x" (Plain (PStr "abc"))
    Sample.str_store
  = (Return Sample.x_params_suppressing,
     mkStore [mkParam (PStr "abc") PNone Sample.integer_schema]
       [(PStr "abc", Sample.integer_schema)])
  /\ fst (ParamsDict.__getitem__ Sample.x_params_suppressing "x"
            (snd (ParamsDict.__setitem__ Sample.x_params_suppressing "x"
                    (Plain (PStr "abc")) Sample.str_store)))
     = Return PNone
  /\ PNone <> PStr "abc".
Proof. split; [reflexivity|]. split; [reflexivity|discriminate]. Qed.

Lemma process_params_layers_witness :
  let conf := Some [("x", Plain (PInt 5))] in
  let st' := mkStore [mkParam (PInt 5) PNone Sample.integer_schema]
               [(PInt 5, Sample.integer_schema); (PInt 5, Sample.integer_schema)] in
  (forall k l, handed Sample.dag Sample.task conf true k l ->
               l < length (heap Sample.int_store))
  /\ process_params Sample.dag Sample.task conf true false Sample.int_store
     = (Return [("x", PInt 5)], st')
  /\ (forall k' l, handed Sample.dag Sample.task conf true "x" l ->
                   handed Sample.dag Sample.task conf true k' l -> k' = "x")
  /\ exists p1 st1 p2 st2 p3 st3,
      update_opt (mkParamsDict [] false) (dag_layer Sample.dag) Sample.int_store
      = (Return p1, st1)
      /\ update_opt p1 (task_layer Sample.task) st1 = (Return p2, st2)
      /\ update_opt p2 (run_layer conf true) st2 = (Return p3, st3)
      /\ ParamsDict.validate p3 st3 = (Return [("x", PInt 5)], st')
      /\ layer_law (dag_layer Sample.dag) "x" (mkParamsDict [] false) Sample.int_store
           p1 st1
      /\ layer_law (task_layer Sample.task) "x" p1 st1 p2 st2
      /\ layer_law (run_layer conf true) "x" p2 st2 p3 st3
      /\ match view p3 st3 "x" with
         | Some p => exists r, dict_get [("x", PInt 5)] "x" = Some r
                               /\ resolves_to p false r
         | None => dict_get [("x", PInt 5)] "x" = None
         end
      /\ last_given Sample.dag Sample.task conf true "x" = Some (Plain (PInt 5))
      /\ (dict_get [("x", PInt 5)] "x" = Some (PInt 5)
          \/ (false = true
              /\ exists sch m,
                  jsonschema_validate (PInt 5) sch = ValidationError m)).
Proof.
  intros conf st'.
  assert (Hhanded : forall k l, handed Sample.dag Sample.task conf true k l ->
                                k = "x" /\ l = 0).
  { intros k l [(m & Hm & Hg)|[(m & Hm & Hg)|(m & Hm & Hg)]].
    - injection Hm as <-. simpl in Hg.
      destruct (String.eqb_spec k "x"); [|discriminate].
      injection Hg as <-. done.
    - discriminate.
    - injection Hm as <-. simpl in Hg.
      destruct (String.eqb k "x"); discriminate. }
  assert (Hlive : forall k l, handed Sample.dag Sample.task conf true k l ->
                              l < length (heap Sample.int_store)).
  { intros k l Hl. destruct (Hhanded k l Hl) as [_ ->]. simpl. lia. }
  assert (Hown : forall k' l, handed Sample.dag Sample.task conf true "x" l ->
                              handed Sample.dag Sample.task conf true k' l -> k' = "x").
  { intros k' l _ Hl. by destruct (Hhanded k' l Hl). }
  split; [exact Hlive|]. split; [reflexivity|]. split; [exact Hown|].
  destruct (proj2 (process_params_layers (H:=Sample.externals) Sample.dag Sample.task
                     conf true false Sample.int_store st' [("x", PInt 5)])
              Hlive eq_refl)
    as (p1 & st1 & p2 & st2 & p3 & st3 & H1 & H2 & H3 & H4 & Hk).
  destruct (Hk "x" Hown) as (L1 & L2 & L3 & L4 & _ & L5).
  exists p1, st1, p2, st2, p3, st3.
  exact (conj H1 (conj H2 (conj H3 (conj H4 (conj L1 (conj L2 (conj L3 (conj L4
           (conj eq_refl (L5 (PInt 5) eq_refl eq_refl)))))))))).
Defined.


Lemma process_params_precedence_witness :
  process_params Sample.dag Sample.task (Some [("x", Plain (PInt 5))])
    true false Sample.int_store
  = (Return [("x", PInt 5)],
     mkStore [mkParam (PInt 5) PNone Sample.integer_schema]
       [(PInt 5, Sample.integer_schema); (PInt 5, Sample.integer_schema)])
  /\ dict_get [("x", PInt 5)] "x" = Some (PInt 5).
Proof.
  split; [reflexivity|].
  refine (proj2 (proj2 (process_params_precedence (H:=Sample.externals))
           Sample.x_params Sample.no_params [("x", Plain (PInt 5))]
           true false Sample.int_store _ _ _ _ _ eq_refl "x")
          (PInt 5) eq_refl eq_refl eq_refl _ eq_refl).
  - intros k l. unfold declared_param. simpl.
    destruct (String.eqb k "x"); [|discriminate].
    intros [= <-]. by eexists.
  - intros k1 k2 l. unfold declared_param. simpl.
    destruct (String.eqb_spec k1 "x"); [|discriminate].
    destruct (String.eqb_spec k2 "x"); [|discriminate]. congruence.
  - intros k x. simpl. destruct (String.eqb k "x"); [|discriminate].
    intros [= <-]. by eexists.
Defined.

Lemma resolve_missing_or_invalid_witness :
  heap Sample.unset_store !! 0 = Some (mkParam NOTSET PNone Sample.integer_schema)
  /\ fst (Param.resolve 0 NOTSET true Sample.unset_store) = Return PNone
  /\ fst (Param.resolve 0 NOTSET false Sample.unset_store)
     = Raise (ParamValidationError Param.no_value_msg)
  /\ fst (Param.resolve 0 (PStr "abc") true Sample.unset_store) = Return PNone
  /\ fst (Param.resolve 0 (PStr "abc") false Sample.unset_store)
     = Raise (ParamValidationError "instance is not of type 'integer'").
Proof.
  destruct (resolve_missing_or_invalid (H:=Sample.externals) 0 _ Sample.unset_store eq_refl) as [H1 H2].
  destruct (H1 eq_refl) as [Ha Hb].
  destruct (H2 (PStr "abc") _ eq_refl eq_refl) as [Hc Hd].
  repeat split; assumption.
Defined.

Lemma resolve_not_serializable_witness :
  is_NOTSET (PObject 7) = false /\ json_dumps_ok (PObject 7) = false
  /\ Param.resolve 0 (PObject 7) true Sample.int_store
     = (Raise (ParamValidationError (Param.not_serializable_msg (PObject 7))),
        Sample.int_store).
Proof.
  split; [reflexivity|]. split; [reflexivity|].
  exact (proj1 (resolve_not_serializable (H:=Sample.externals) 0 (PObject 7) Sample.int_store)
           eq_refl eq_refl true).
Defined.

Lemma init_json_check_only_witness :
  Param.__init__ (PObject 7) PNone [] Sample.empty_store
  = (Raise (ParamValidationError (Param.not_serializable_msg (PObject 7))),
     Sample.empty_store)
  /\ exists self st',
      Param.__init__ (PStr "a") PNone [] Sample.empty_store = (Return self, st')
      /\ heap st' !! self = Some (mkParam (PStr "a") PNone (PDict []))
      /\ fst (Param.resolve self (PInt 3) false st') = Return (PInt 3).
Proof.
  split.
  - exact (proj1 (init_json_check_only (H:=Sample.externals) (PObject 7) PNone [] Sample.empty_store)
             eq_refl eq_refl).
  - destruct (proj2 (proj2 (init_json_check_only (H:=Sample.externals) (PStr "a") PNone [] Sample.empty_store))
                (or_intror eq_refl)) as (self & st' & Hinit & _ & Hschemaless).
    destruct (Hschemaless eq_refl) as [Hobj Haccepts].
    exists self, st'. split; [exact Hinit|]. split; [exact Hobj|].
    apply Haccepts; [|reflexivity]. intros v _. reflexivity.
Defined.

Lemma serialize_deserialize_roundtrip_witness :
  json_dumps_ok (PInt 1) = true
  /\ exists self self' st' p',
      (self <- Param.__init__ (PInt 1) (PStr "d") [("schema", Sample.integer_schema)] ;;
       data <- Param.serialize self ;;
       self' <- Param.deserialize data Param.__version__ ;;
       ret (self, self')) Sample.empty_store = (Return (self, self'), st')
      /\ heap st' !! self' = Some p'
      /\ value p' = PInt 1 /\ description p' = PStr "d"
      /\ schema p' = Sample.integer_schema.
Proof.
  split; [reflexivity|].
  destruct (serialize_deserialize_roundtrip (H:=Sample.externals) (PInt 1) (PStr "d")
              [("schema", Sample.integer_schema)] Sample.empty_store eq_refl)
    as (self & self' & st' & Hrun & p & p' & _ & Hl' & _ & Hv & Hd & _ & Hs).
  exists self, self', st', p'. repeat split; try assumption.
  by apply Hs.
Defined.

Lemma deserialize_version_gate_witness :
  (2 > Param.__version__)%Z
  /\ Param.deserialize [] 2 Sample.empty_store
     = (Raise (TypeError "serialized version > class version"), Sample.empty_store)
  /\ ParamsDict.deserialize [] 2 Sample.empty_store
     = (Raise (TypeError "serialized version > class version"), Sample.empty_store)
  /\ ~ exists msg, fst (Param.deserialize [] 1 Sample.empty_store) = Raise (TypeError msg).
Proof.
  split; [reflexivity|].
  destruct (deserialize_version_gate (H:=Sample.externals) [] [] 2 Sample.empty_store) as (_ & _ & H3 & H4).
  split; [apply H3; reflexivity|]. split; [apply H4; reflexivity|].
  intros Hraise.
  apply (proj1 (deserialize_version_gate (H:=Sample.externals) [] [] 1 Sample.empty_store)) in Hraise.
  discriminate Hraise.
Defined.

Lemma resolve_memoizes_failure_keeps_witness :
  heap Sample.int_store !! 0 = Some (mkParam (PInt 1) PNone Sample.integer_schema)
  /\ (exists st',
        Param.resolve 0 (PInt 5) false Sample.int_store = (Return (PInt 5), st')
        /\ heap st' !! 0 = Some (mkParam (PInt 5) PNone Sample.integer_schema))
  /\ (exists msg st',
        ParamsDict.__setitem__ Sample.x_params "x" (Plain (PStr "abc")) Sample.int_store
        = (Raise (ParamValidationError msg), st')
        /\ msg = "Invalid input for param x: instance is not of type 'integer'"
        /\ heap st' = heap Sample.int_store).
Proof.
  split; [reflexivity|]. split.
  - destruct (resolve_memoizes_failure_keeps (H:=Sample.externals) 0 _ (PInt 5) false Sample.int_store eq_refl)
      as (_ & Hok & _).
    destruct (Hok (or_intror eq_refl) eq_refl eq_refl) as (st' & Hres & Hl & _).
    by exists st'.
  - destruct (resolve_memoizes_failure_keeps (H:=Sample.externals) 0 _ (PStr "abc") false Sample.int_store eq_refl)
      as (_ & _ & _ & _ & Hset).
    destruct (Hset Sample.x_params "x" "instance is not of type 'integer'"
                eq_refl eq_refl eq_refl eq_refl)
      as (msg & st' & Hraise & _ & Hmsg & Hheap).
    by exists msg, st'.
Defined.

Lemma update_adopts_or_revalidates_witness :
  NoDup (dict_keys [("x", Plain (PInt 5)); ("y", Plain (PStr "b"))])
  /\ ParamsDict.update Sample.x_params
       (ADict [("x", Plain (PInt 5)); ("y", Plain (PStr "b"))]) Sample.int_store
     = ParamsDictSpec.merge_plain Sample.x_params
         [("x", Plain (PInt 5)); ("y", Plain (PStr "b"))] Sample.int_store
  /\ ParamsDict.__setitem__ Sample.x_params "x" (Plain (PInt 5)) Sample.int_store
     = (Return Sample.x_params,
        mkStore [mkParam (PInt 5) PNone Sample.integer_schema]
          [(PInt 5, Sample.integer_schema)])
  /\ ParamsDict.update Sample.no_params (AParamsDict Sample.x_params) Sample.int_store
     = ParamsDictSpec.merge_collection Sample.no_params Sample.x_params Sample.int_store.
Proof.
  assert (Hnd : NoDup (dict_keys [("x", Plain (PInt 5)); ("y", Plain (PStr "b"))])).
  { apply NoDup_cons_2; [|apply NoDup_singleton].
    intros Hin. apply list_elem_of_singleton in Hin. discriminate Hin. }
  split; [exact Hnd|].
  destruct (update_adopts_or_revalidates (H:=Sample.externals) Sample.x_params
              Sample.int_store) as (_ & _ & Hplain & Hone & _).
  destruct (update_adopts_or_revalidates (H:=Sample.externals) Sample.no_params
              Sample.int_store) as (_ & Hadopt & _).
  split; [exact (Hplain _ Hnd)|]. split.
  - exact (Hone "x" (PInt 5) 0 _ eq_refl eq_refl eq_refl).
  - exact (Hadopt Sample.x_params (NoDup_singleton _)).
Defined.

Lemma setitem_suppressed_keeps_previous_witness :
  (exists st',
     ParamsDict.__setitem__ Sample.x_params_suppressing "x" (Plain (PStr "abc"))
       Sample.int_store = (Return Sample.x_params_suppressing, st')
     /\ heap st' = heap Sample.int_store
     /\ fst (ParamsDict.__getitem__ Sample.x_params_suppressing "x" st')
        = Return (PInt 1))
  /\ (exists st',
        ParamsDict.__setitem__ Sample.x_params_suppressing "x" (Plain (PStr "abc"))
          Sample.unset_store = (Return Sample.x_params_suppressing, st')
        /\ heap st' = heap Sample.unset_store
        /\ fst (ParamsDict.__getitem__ Sample.x_params_suppressing "x" st')
           = Return PNone).
Proof.
  split.
  - destruct (setitem_suppressed_keeps_previous (H:=Sample.externals)
                Sample.x_params_suppressing "x" 0 _
                (PStr "abc") "instance is not of type 'integer'" Sample.int_store
                eq_refl eq_refl eq_refl eq_refl eq_refl)
      as (st' & Hset & Hheap & _ & _ & Hold & _).
    exists st'. split; [exact Hset|]. split; [exact Hheap|].
    exact (proj1 (Hold eq_refl eq_refl)).
  - destruct (setitem_suppressed_keeps_previous (H:=Sample.externals)
                Sample.x_params_suppressing "x" 0 _
                (PStr "abc") "instance is not of type 'integer'" Sample.unset_store
                eq_refl eq_refl eq_refl eq_refl eq_refl)
      as (st' & Hset & Hheap & _ & _ & _ & Hnone).
    exists st'. split; [exact Hset|]. split; [exact Hheap|].
    exact (Hnone (or_introl eq_refl)).
Defined.

Lemma resolve_then_read_witness :
  Param.resolve 0 (PInt 5) false Sample.int_store
  = (Return (PInt 5),
     mkStore [mkParam (PInt 5) PNone Sample.integer_schema]
       [(PInt 5, Sample.integer_schema)])
  /\ fst (Param.resolve 0 NOTSET false
            (snd (Param.resolve 0 (PInt 5) false Sample.int_store)))
     = Return (PInt 5)
  /\ Param.has_value 0 (snd (Param.resolve 0 (PInt 5) false Sample.int_store))
     = (Return true, snd (Param.resolve 0 (PInt 5) false Sample.int_store)).
Proof.
  split; [reflexivity|].
  destruct (resolve_then_read (H:=Sample.externals) 0 (PInt 5) (PInt 5)
              Sample.int_store _ eq_refl) as ((st'' & Hagain & _) & _ & Hhas).
  split; [|exact Hhas].
  exact (f_equal fst Hagain).
Defined.

Lemma dump_has_value_witness :
  exists d,
    Param.dump 0 Sample.unset_store = (Return d, Sample.unset_store)
    /\ Param.has_value 0 Sample.unset_store = (Return false, Sample.unset_store)
    /\ dict_get d "value" = Some PNone.
Proof.
  destruct (dump_has_value 0 _ Sample.unset_store eq_refl)
    as (d & b & Hdump & Hhas & _ & Hvalue & _).
  exists d. split; [exact Hdump|]. split; [reflexivity|exact Hvalue].
Defined.

Lemma param_copy_independent_witness :
  exists c st',
    Param.__copy__ 0 Sample.int_store = (Return c, st')
    /\ c <> 0
    /\ heap (snd (Param.resolve c (PInt 7) false st')) !! 0
       = Some (mkParam (PInt 1) PNone Sample.integer_schema).
Proof.
  destruct (param_copy_independent (H:=Sample.externals) 0 _ Sample.int_store
              eq_refl (or_intror eq_refl))
    as (c & st' & Hcopy & Hne & _ & _ & _ & Hind).
  exists c, st'. split; [exact Hcopy|]. split; [exact Hne|]. apply Hind.
Defined.

Lemma setitem_then_getitem_witness :
  exists st',
    ParamsDict.__setitem__ Sample.x_params "x" (Plain (PInt 5)) Sample.int_store
    = (Return Sample.x_params, st')
    /\ fst (ParamsDict.__getitem__ Sample.x_params "x" st') = Return (PInt 5).
Proof.
  eexists. split; [reflexivity|].
  exact (proj1 (proj2 (proj2
           (setitem_then_getitem (H:=Sample.externals) Sample.x_params _ "x" (PInt 5)
              Sample.int_store _ eq_refl eq_refl eq_refl)))
           (or_introl eq_refl)).
Defined.

Lemma delitem_removes_key_witness :
  NoDup (dict_keys (__dict Sample.x_params))
  /\ ParamsDict.__delitem__ Sample.x_params "y" Sample.int_store
     = (Raise (KeyError "y"), Sample.int_store)
  /\ exists pd',
      ParamsDict.__delitem__ Sample.x_params "x" Sample.int_store
      = (Return pd', Sample.int_store)
      /\ ParamsDict.__contains__ pd' "x" = false
      /\ S (ParamsDict.__len__ pd') = ParamsDict.__len__ Sample.x_params.
Proof.
  assert (Hnd : NoDup (dict_keys (__dict Sample.x_params))) by apply NoDup_singleton.
  split; [exact Hnd|].
  destruct (delitem_removes_key (H:=Sample.externals) Sample.x_params "y"
              Sample.int_store Hnd) as [Hmissing _].
  destruct (delitem_removes_key (H:=Sample.externals) Sample.x_params "x"
              Sample.int_store Hnd) as [_ Hpresent].
  split; [exact (Hmissing eq_refl)|].
  destruct (Hpresent eq_refl) as (pd' & Hdel & Hgone & _ & Hlen & _).
  exists pd'. split; [exact Hdel|]. split; [exact Hgone|exact Hlen].
Defined.

Lemma delitem_setitem_drops_schema_witness :
  jsonschema_validate (PStr "abc") Sample.integer_schema
  = ValidationError "instance is not of type 'integer'"
  /\ exists pd2 st2,
      ParamsDict.__setitem__ Sample.no_params "x" (Plain (PStr "abc")) Sample.int_store
      = (Return pd2, st2)
      /\ validations st2 = []
      /\ view pd2 st2 "x" = Some (plain_param (PStr "abc")).
Proof.
  split; [reflexivity|].
  destruct (delitem_setitem_drops_schema (H:=Sample.externals) Sample.x_params
              Sample.no_params "x" (PStr "abc") Sample.int_store
              (NoDup_singleton _) eq_refl eq_refl)
    as (pd2 & st2 & Hset & Hval & _ & Hview & _).
  exists pd2, st2. split; [exact Hset|]. split; [exact Hval|exact Hview].
Defined.

Lemma paramsdict_copy_shares_witness :
  exists copy st',
    ParamsDict.__copy__ Sample.x_params Sample.int_store = (Return copy, Sample.int_store)
    /\ ParamsDict.__setitem__ copy "x" (Plain (PInt 5)) Sample.int_store
       = (Return copy, st')
    /\ fst (ParamsDict.__getitem__ Sample.x_params "x" st') = Return (PInt 5).
Proof.
  destruct (paramsdict_copy_shares (H:=Sample.externals) Sample.x_params Sample.int_store
              (NoDup_singleton _)) as (copy & Hcopy & Hdict & Hflag & Hshared).
  assert (Hcopy' : copy = Sample.x_params).
  { destruct copy as [d s]. simpl in Hdict, Hflag. by rewrite Hdict, Hflag. }
  exists copy. eexists. split; [exact Hcopy|]. split.
  - rewrite Hcopy'. reflexivity.
  - apply (Hshared "x" (PInt 5) Sample.x_params); try reflexivity.
    rewrite Hcopy'. reflexivity.
Defined.

Lemma paramsdict_init_wraps_witness :
  exists pd st',
    ParamsDict.__init__ (Some (plain_dict [("a", PInt 1)])) false Sample.empty_store
    = (Return pd, st')
    /\ ParamsDict.__iter__ pd = ["a"]
    /\ view pd st' "a" = Some (plain_param (PInt 1))
    /\ well_formed pd st'.
Proof.
  assert (Hok : Forall (fun kv : string * pyval => storable kv.2) [("a", PInt 1)]).
  { apply Forall_singleton. right. reflexivity. }
  destruct (paramsdict_init_wraps (H:=Sample.externals) [("a", PInt 1)] false
              Sample.empty_store (NoDup_singleton _) Hok)
    as (pd & news & Hinit & _ & Hiter & Hview & Hwf).
  exists pd. eexists. split; [exact Hinit|]. split; [exact Hiter|].
  split; [exact (Hview "a")|exact Hwf].
Defined.

Lemma paramsdict_init_rejects_witness :
  exists st',
    ParamsDict.__init__ (Some (plain_dict [("a", PObject 7)])) true Sample.empty_store
    = (Raise (ParamValidationError (Param.not_serializable_msg (PObject 7))), st')
    /\ validations st' = [].
Proof.
  destruct (paramsdict_init_rejects (H:=Sample.externals) [("a", PObject 7)] true
              Sample.empty_store)
    as (v & st' & Hin & _ & _ & Hinit & Hval).
  - apply Exists_cons_hd. simpl. intros [Hn|Hj]; discriminate.
  - assert (v = PObject 7) as ->.
    { apply Exists_cons in Hin as [Hv|Hin]; [by symmetry|]. by apply Exists_nil in Hin. }
    by exists st'.
Defined.

Lemma sample_x_live k l :
  dict_get (__dict Sample.x_params) k = Some l ->
  exists p, heap Sample.int_store !! l = Some p /\ storable (value p)
            /\ forall m, jsonschema_validate (value p) (schema p) <> SchemaError m.
Proof.
  simpl. destruct (String.eqb k "x"); [|discriminate].
  intros [= <-]. eexists. split; [reflexivity|]. split; [by right|].
  intros m. discriminate.
Defined.

Lemma dump_best_effort_witness :
  exists res st',
    ParamsDict.dump Sample.x_params Sample.int_store = (Return res, st')
    /\ dict_keys res = ["x"]
    /\ dict_get res "x" = Some (PInt 1).
Proof.
  destruct (proj2 (proj2 (dump_best_effort (H:=Sample.externals) Sample.x_params
                            Sample.int_store)) (NoDup_singleton _))
    as (res & st' & Hdump & Hkeys & Hget).
  - intros k l Hd. destruct (sample_x_live k l Hd) as (p & Hl & _ & Hs). by exists p.
  - exists res, st'. split; [exact Hdump|]. split; [exact Hkeys|exact (Hget "x")].
Defined.

Lemma validate_returns_stored_witness :
  ParamsDict.validate Sample.x_params_suppressing Sample.unset_store
  = ParamsDict.dump Sample.x_params_suppressing Sample.unset_store
  /\ exists res st',
      ParamsDict.validate Sample.x_params Sample.int_store = (Return res, st')
      /\ dict_get res "x" = Some (PInt 1).
Proof.
  split.
  - exact (proj1 (proj2 (validate_returns_stored (H:=Sample.externals)
                           Sample.x_params_suppressing Sample.unset_store)) eq_refl).
  - eexists _, _. split; [reflexivity|].
    exact (proj1 (proj2 (proj2 (proj2 (validate_returns_stored (H:=Sample.externals)
                                         Sample.x_params Sample.int_store))
                          _ _ eq_refl (NoDup_singleton _) eq_refl)) "x").
Defined.

Lemma validate_names_first_failure_witness :
  ParamsDict.validate Sample.x_params Sample.unset_store
  = (Raise (ParamValidationError
              "Invalid input for param x: No value passed and Param has no default value"),
     Sample.unset_store)
  /\ exists before k l after ve,
      __dict Sample.x_params = before ++ (k, l) :: after
      /\ ParamsDict.invalid_input_msg "x" Param.no_value_msg
         = ParamsDict.invalid_input_msg k ve.
Proof.
  split; [reflexivity|].
  destruct (validate_names_first_failure (H:=Sample.externals) Sample.x_params
              Sample.unset_store Sample.unset_store _ eq_refl)
    as (_ & before & k & l & after & ve & Hsplit & Hmsg & _).
  by exists before, k, l, after, ve.
Defined.

Lemma paramsdict_roundtrip_values_witness :
  exists data st1 pd' st2,
    ParamsDict.serialize Sample.x_params_suppressing Sample.int_store = (Return data, st1)
    /\ ParamsDict.deserialize (plain_dict data) ParamsDict.__version__ st1
       = (Return pd', st2)
    /\ suppress_exception pd' = false
    /\ view pd' st2 "x" = Some (plain_param (PInt 1)).
Proof.
  destruct (paramsdict_roundtrip_values (H:=Sample.externals)
              Sample.x_params_suppressing Sample.int_store (NoDup_singleton _)
              sample_x_live)
    as (data & st1 & pd' & st2 & Hser & Hde & _ & Hflag & Hview & _).
  exists data, st1, pd', st2. split; [exact Hser|]. split; [exact Hde|].
  split; [exact Hflag|exact (Hview "x")].
Defined.

Lemma process_params_override_persists_witness :
  fst (process_params Sample.dag Sample.task None false false Sample.int_store)
  = Return [("x", PInt 1)]
  /\ exists st' res2 st2,
      process_params Sample.dag Sample.task (Some [("x", Plain (PInt 5))])
        true false Sample.int_store = (Return [("x", PInt 5)], st')
      /\ process_params Sample.dag Sample.task None false false st'
         = (Return res2, st2)
      /\ dict_get res2 "x" = Some (PInt 5).
Proof.
  split; [reflexivity|].
  exists (snd (process_params Sample.dag Sample.task (Some [("x", Plain (PInt 5))])
                 true false Sample.int_store)).
  destruct (process_params_override_persists (H:=Sample.externals)
              Sample.x_params Sample.no_params [("x", Plain (PInt 5))]
              true false Sample.int_store
              (snd (process_params Sample.dag Sample.task
                      (Some [("x", Plain (PInt 5))]) true false Sample.int_store))
              [("x", PInt 5)])
    as (res2 & st2 & Hrun2 & _ & Hsame); [|reflexivity|].
  - intros k x. simpl. destruct (String.eqb k "x"); [|discriminate].
    intros [= <-]. by eexists.
  - exists res2, st2. split; [reflexivity|]. split; [exact Hrun2|].
    exact (proj2 (Hsame "x")).
Defined.

